(** * Remote kernel transport: framing, handshake and streams

    A shallow embedding of [polynote.kernel.remote.SocketTransport] and of the
    classes around it ([FramedSocket], [SocketTransportServer],
    [SocketTransportClient]), with the properties of the transport
    specification stated over it.

    Conventions.
    - A Scala [Int] is a [Z] in the range [-2^31, 2^31); [toInt] writes out the
      wrap-around of [Long.toInt].
    - Bytes are [Byte.byte]; a [BitVector]/[ByteVector] is a [list byte]
      (messages are byte aligned).
    - An effect [ZIO S A] is a function of the state it runs in.  It ends in a
      value, in a failure, or it does not return ([NoReturn]): the thread is
      blocked for ever, or a loop ran out of the fuel it was given.
    - The operating system is an oracle carried by the channel: what the peer
      sent, how the bytes are cut into reads, how the input ends, which writes
      fail.
    - The objects that are shared by reference ([FramedSocket]s, promises)
      live in a heap, [Env.t], with the deployed process and the oracles of
      the network: which connections arrive and when.
    - The keepalive fibers run between the effects of the main fiber, at the
      points marked [Env.yield], as an oracle of the scheduler says. *)

From Stdlib Require Import String DecimalString ZArith List Lia Bool.
From Stdlib.Strings Require Import Byte.
Import ListNotations.

Set Implicit Arguments.

(* ------------------------------------------------------------------ *)
(** ** Exceptions *)

Inductive Throwable : Type :=
| IOException
| ClosedChannelException
| AsynchronousCloseException
| IllegalStateException (message : string)
| TimeoutException (message : string)
| RuntimeException (message : string)
| Exception (message : string).

(** [err.isInstanceOf[ClosedChannelException]]: in [java.nio.channels],
    [AsynchronousCloseException] extends [ClosedChannelException]. *)
Definition isClosedChannelException (err : Throwable) : bool :=
  match err with
  | ClosedChannelException | AsynchronousCloseException => true
  | _ => false
  end.

Definition isAsynchronousCloseException (err : Throwable) : bool :=
  match err with
  | AsynchronousCloseException => true
  | _ => false
  end.

(* ------------------------------------------------------------------ *)
(** ** Effects *)

Inductive Exit (A : Type) : Type :=
| Success (a : A)
| Failure (e : Throwable)
| NoReturn.

Arguments Success {A} a.
Arguments Failure {A} e.
Arguments NoReturn {A}.

Definition ZIO (S A : Type) : Type := S -> Exit A * S.

Module ZIO.

Definition succeed {S A} (a : A) : ZIO S A := fun s => (Success a, s).

Definition fail {S A} (e : Throwable) : ZIO S A := fun s => (Failure e, s).

Definition never {S A} : ZIO S A := fun s => (NoReturn, s).

Definition flatMap {S A B} (m : ZIO S A) (k : A -> ZIO S B) : ZIO S B :=
  fun s =>
    match m s with
    | (Success a, s') => k a s'
    | (Failure e, s') => (Failure e, s')
    | (NoReturn, s') => (NoReturn, s')
    end.

Definition map {S A B} (m : ZIO S A) (f : A -> B) : ZIO S B :=
  flatMap m (fun a => succeed (f a)).

(** [m.catchSome { case e if h e = Some k => k }] *)
Definition catchSome {S A} (m : ZIO S A) (h : Throwable -> option (ZIO S A))
  : ZIO S A :=
  fun s =>
    match m s with
    | (Failure e, s') =>
        match h e with
        | Some k => k s'
        | None => (Failure e, s')
        end
    | r => r
    end.

(** [m.tapError(f)]: on failure run [f], then fail with the original error
    (with [f]'s own error when [f] fails). *)
Definition tapError {S A} (m : ZIO S A) (f : Throwable -> ZIO S unit)
  : ZIO S A :=
  fun s =>
    match m s with
    | (Failure e, s') =>
        match f e s' with
        | (Success _, s'') => (Failure e, s'')
        | (Failure e', s'') => (Failure e', s'')
        | (NoReturn, s'') => (NoReturn, s'')
        end
    | r => r
    end.

(** [acquire.bracket(release)(use)].  [release] is total in every use below;
    it runs whenever [use] returns, with a value or with a failure. *)
Definition bracket {S A B} (acquire : ZIO S A) (release : A -> S -> S)
  (use : A -> ZIO S B) : ZIO S B :=
  fun s =>
    match acquire s with
    | (Success a, s') =>
        match use a s' with
        | (NoReturn, s'') => (NoReturn, s'')
        | (r, s'') => (r, release a s'')
        end
    | (Failure e, s') => (Failure e, s')
    | (NoReturn, s') => (NoReturn, s')
    end.

(** Reading and changing the state. *)
Definition get {S} : ZIO S S := fun s => (Success s, s).
Definition modify {S} (f : S -> S) : ZIO S unit := fun s => (Success tt, f s).

(** Running an effect of a component [get_]/[set_] of the state. *)
Definition zoom {S T A} (get_ : S -> T) (set_ : T -> S -> S) (m : ZIO T A)
  : ZIO S A :=
  fun s => let (r, t') := m (get_ s) in (r, set_ t' s).

(** [l zipPar r], for sides that touch different parts of the state: the
    value is the pair of the two values.  When a side fails the other side
    is interrupted and waited for, and the whole fails; it takes a side
    that has returned to know the outcome.  The two sides are run one
    after the other, each to its end: what the interrupted side would have
    left undone is done here, and of two sides that both fail the error of
    the left one is reported, where ZIO reports the one that fails
    first. *)
Definition zipPar {S A B} (l : ZIO S A) (r : ZIO S B) : ZIO S (A * B) :=
  fun s =>
    let (ra, s1) := l s in
    let (rb, s2) := r s1 in
    (match ra, rb with
     | Success a, Success b => Success (a, b)
     | Failure e, Success _ => Failure e
     | Failure e, Failure _ => Failure e
     | Success _, Failure e => Failure e
     | _, _ => NoReturn
     end, s2).

Definition unit {S} : ZIO S unit := succeed tt.

End ZIO.

Declare Scope zio_scope.
Delimit Scope zio_scope with zio.
Notation "x <- m ;; k" := (ZIO.flatMap m (fun x => k))
  (at level 61, m at next level, right associativity) : zio_scope.
Notation "m *> k" := (ZIO.flatMap m (fun _ => k))
  (at level 61, right associativity) : zio_scope.
(** [a <* b]: run [a], then [b], keep [a]'s value. *)
Notation "m <* k" := (ZIO.flatMap m (fun x => ZIO.flatMap k (fun _ => ZIO.succeed x)))
  (at level 61, right associativity) : zio_scope.
Open Scope zio_scope.

(** [Logging.info], [Logging.error]: the log is not part of the state. *)
Definition Logging {S} (message : string) : ZIO S unit := ZIO.unit.

(* ------------------------------------------------------------------ *)
(** ** 32-bit big-endian integers *)

Definition byteToZ (b : byte) : Z := Z.of_N (Byte.to_N b).

Definition byteOfZ (z : Z) : byte :=
  match Byte.of_N (Z.to_N (Z.land z 255)) with
  | Some b => b
  | None => x00
  end.

(** [Long.toInt]: the low 32 bits, read as a signed number. *)
Definition toInt (z : Z) : Z := ((z + 2 ^ 31) mod 2 ^ 32 - 2 ^ 31)%Z.

(** The four bytes [ByteBuffer.putInt] stores (big-endian byte order). *)
Definition intBytes (v : Z) : list byte :=
  [ byteOfZ (Z.shiftr v 24); byteOfZ (Z.shiftr v 16);
    byteOfZ (Z.shiftr v 8); byteOfZ v ].

(** The [Int] that [ByteBuffer.getInt] reads from four bytes. *)
Definition bytesInt (b0 b1 b2 b3 : byte) : Z :=
  toInt (Z.lor (Z.shiftl (byteToZ b0) 24)
        (Z.lor (Z.shiftl (byteToZ b1) 16)
        (Z.lor (Z.shiftl (byteToZ b2) 8) (byteToZ b3)))).

(* ------------------------------------------------------------------ *)
(** ** java.nio.ByteBuffer *)

Module ByteBuffer.

(** The limit of every buffer here is its capacity, [length array]. *)
Record t : Type := mk { array : list byte; position : nat }.

Definition allocate (capacity : nat) : t := mk (repeat x00 capacity) 0.

Definition wrap (bytes : list byte) : t := mk bytes 0.

Definition rewind (b : t) : t := mk (array b) 0.

Definition remaining (b : t) : nat := length (array b) - position b.

Definition hasRemaining (b : t) : bool := position b <? length (array b).

(** The bytes between the position and the limit. *)
Definition content (b : t) : list byte := skipn (position b) (array b).

(** Relative bulk put, as a channel read does into its destination. *)
Definition put (b : t) (src : list byte) : t :=
  mk (firstn (position b) (array b) ++ src
        ++ skipn (position b + length src) (array b))
     (position b + length src).

(** Absolute [putInt(0, v)]: the position does not move. *)
Definition putInt0 (b : t) (v : Z) : t :=
  mk (intBytes v ++ skipn 4 (array b)) (position b).

(** Absolute [getInt(0)]. *)
Definition getInt0 (b : t) : Z :=
  match array b with
  | b0 :: b1 :: b2 :: b3 :: _ => bytesInt b0 b1 b2 b3
  | _ => 0%Z
  end.

(** All the remaining bytes have been taken out by a channel write. *)
Definition drain (b : t) : t := mk (array b) (length (array b)).

End ByteBuffer.

(* ------------------------------------------------------------------ *)
(** ** java.nio.channels.SocketChannel (blocking mode) *)

Module SocketChannel.

(** How the input ends once every byte the peer sent has been read. *)
Inductive EndOfInput : Type :=
| EndOfStream                (* the peer closed: [read] returns -1 *)
| ReadThrows (e : Throwable) (* the connection broke: [read] throws *)
| Silent.                    (* the peer sends nothing more: [read] blocks *)

(** What a [write] call does. *)
Inductive WriteOutcome : Type :=
| Writes                      (* the whole buffer is written *)
| WriteThrows (e : Throwable) (* the call throws *)
| Stalls (sent : nat).        (* the send buffer fills up and stays full:
                                 at most [sent] bytes go out and the call
                                 does not return *)

Record t : Type := mk {
  isOpen : bool;
  (** Input: the bytes the peer sent that were not read yet. *)
  inbound : list byte;
  (** The most bytes each coming [read] call hands over; when the list is
      used up a read hands over all it can. *)
  chunks : list nat;
  atEnd : EndOfInput;
  (** Output: the bytes written so far, in wire order. *)
  outbound : list byte;
  (** What each coming [write] call does; every call after the list is
      used up writes the whole buffer. *)
  writeFaults : list WriteOutcome
}.

Definition close (ch : t) : t :=
  mk false (inbound ch) (chunks ch) (atEnd ch) (outbound ch) (writeFaults ch).

(** [socketChannel.read(dst)]: the number of bytes read, or -1. *)
Definition read (dst : ByteBuffer.t) : ZIO t (Z * ByteBuffer.t) :=
  fun ch =>
    if negb (isOpen ch) then (Failure ClosedChannelException, ch)
    else
      match inbound ch with
      | [] =>
          match atEnd ch with
          | EndOfStream => (Success ((-1)%Z, dst), ch)
          | ReadThrows e => (Failure e, ch)
          | Silent => (NoReturn, ch)
          end
      | _ :: _ =>
          let offered :=
            match chunks ch with
            | [] => length (inbound ch)
            | c :: _ => c
            end in
          let n := Nat.min (ByteBuffer.remaining dst)
                     (Nat.min offered (length (inbound ch))) in
          (Success (Z.of_nat n, ByteBuffer.put dst (firstn n (inbound ch))),
           mk (isOpen ch) (skipn n (inbound ch)) (tl (chunks ch)) (atEnd ch)
              (outbound ch) (writeFaults ch))
      end.

(** [socketChannel.write(src)].  A blocking channel returns only after all
    the remaining bytes have been written; while the send buffer is full
    the call waits. *)
Definition write (src : ByteBuffer.t) : ZIO t (Z * ByteBuffer.t) :=
  fun ch =>
    if negb (isOpen ch) then (Failure ClosedChannelException, ch)
    else
      match writeFaults ch with
      | WriteThrows e :: faults =>
          (Failure e,
           mk (isOpen ch) (inbound ch) (chunks ch) (atEnd ch) (outbound ch)
              faults)
      | Stalls sent :: faults =>
          (NoReturn,
           mk (isOpen ch) (inbound ch) (chunks ch) (atEnd ch)
              (outbound ch ++ firstn sent (ByteBuffer.content src)) faults)
      | _ =>
          (Success (Z.of_nat (ByteBuffer.remaining src), ByteBuffer.drain src),
           mk (isOpen ch) (inbound ch) (chunks ch) (atEnd ch)
              (outbound ch ++ ByteBuffer.content src) (tl (writeFaults ch)))
      end.

End SocketChannel.

(* ------------------------------------------------------------------ *)
(** ** zio.Promise[Throwable, Unit], the closed latch *)

Module Promise.

Inductive t : Type :=
| Pending
| Succeeded
| Failed (e : Throwable).

(** [succeed] and [fail] complete the promise only when it is pending. *)
Definition succeed (p : t) : t :=
  match p with
  | Pending => Succeeded
  | _ => p
  end.

Definition fail (e : Throwable) (p : t) : t :=
  match p with
  | Pending => Failed e
  | _ => p
  end.

Definition isDone (p : t) : bool :=
  match p with
  | Pending => false
  | _ => true
  end.

(** [await]: the value of a completed promise; a pending one suspends. *)
Definition await {S} (p : t) : ZIO S unit :=
  match p with
  | Pending => ZIO.never
  | Succeeded => ZIO.unit
  | Failed e => ZIO.fail e
  end.

End Promise.

(* ------------------------------------------------------------------ *)
(** ** java.util.concurrent.Semaphore *)

Module Semaphore.

Definition t : Type := nat. (* available permits *)

(** [acquire()] blocks while no permit is available. *)
Definition acquire : ZIO t unit :=
  fun permits =>
    match permits with
    | O => (NoReturn, permits)
    | S n => (Success tt, n)
    end.

(** [tryAcquire(0, TimeUnit.SECONDS)] *)
Definition tryAcquire : ZIO t bool :=
  fun permits =>
    match permits with
    | O => (Success false, permits)
    | S n => (Success true, n)
    end.

Definition release (permits : t) : t := S permits.

End Semaphore.

(* ------------------------------------------------------------------ *)
(** ** fs2.Stream

    A stream over the state [W] is a machine that is pulled one step at a
    time: a step emits an element, emits nothing, ends the stream, raises, or
    does not return.  Nothing is read from the source of a stream that is no
    longer pulled, as in fs2. *)

Module Stream.

Inductive Step (A St : Type) : Type :=
| Emit (a : A) (st : St)
| Skip (st : St)
| Done
| Raise (e : Throwable)
| Stall.

Arguments Emit {A St} a st.
Arguments Skip {A St} st.
Arguments Done {A St}.
Arguments Raise {A St} e.
Arguments Stall {A St}.

Record t (W A : Type) : Type := mk {
  state : Type;
  init : state;
  (** [pull fuel st w]: [fuel] bounds the loops of the effects evaluated. *)
  pull : nat -> state -> W -> Step A state * W
}.

Arguments mk {W A state} init pull.

Section Combinators.

Context {W : Type}.

(** [Stream.repeatEval(fa)] *)
Definition repeatEval {A} (fa : nat -> ZIO W A) : t W A :=
  mk tt (fun fuel _ w =>
    match fa fuel w with
    | (Success a, w') => (Emit a tt, w')
    | (Failure e, w') => (Raise e, w')
    | (NoReturn, w') => (Stall, w')
    end).

(** [s.handleErrorWith(err => Stream.eval(h(err)).drain)]: on an error the
    stream goes on as the handler stream, which evaluates [h err], emits
    nothing and ends. *)
Definition handleErrorWith_evalDrain {A} (s : t W A)
  (h : Throwable -> ZIO W unit) : t W A :=
  mk (init s) (fun fuel st w =>
    match pull s fuel st w with
    | (Raise err, w') =>
        match h err w' with
        | (Success _, w'') => (Done, w'')
        | (Failure e', w'') => (Raise e', w'')
        | (NoReturn, w'') => (Stall, w'')
        end
    | r => r
    end).

(** [s.unNoneTerminate]: ends at the first [None]. *)
Definition unNoneTerminate {A} (s : t W (option A)) : t W A :=
  mk (init s) (fun fuel st w =>
    match pull s fuel st w with
    | (Emit (Some a) st', w') => (Emit a st', w')
    | (Emit None _, w') => (Done, w')
    | (Skip st', w') => (Skip st', w')
    | (Done, w') => (Done, w')
    | (Raise e, w') => (Raise e, w')
    | (Stall, w') => (Stall, w')
    end).

(** [s.unNone]: drops every [None]. *)
Definition unNone {A} (s : t W (option A)) : t W A :=
  mk (init s) (fun fuel st w =>
    match pull s fuel st w with
    | (Emit (Some a) st', w') => (Emit a st', w')
    | (Emit None st', w') => (Skip st', w')
    | (Skip st', w') => (Skip st', w')
    | (Done, w') => (Done, w')
    | (Raise e, w') => (Raise e, w')
    | (Stall, w') => (Stall, w')
    end).

(** [s.map(f)] *)
Definition map {A B} (s : t W A) (f : A -> B) : t W B :=
  mk (init s) (fun fuel st w =>
    match pull s fuel st w with
    | (Emit a st', w') => (Emit (f a) st', w')
    | (Skip st', w') => (Skip st', w')
    | (Done, w') => (Done, w')
    | (Raise e, w') => (Raise e, w')
    | (Stall, w') => (Stall, w')
    end).

(** [s.through(decode.pipe[F, B])], with the decoder of [B] as [decodeAll]:
    each element is decoded into the values it holds, and those are emitted
    in order before the source is pulled again.  [decodeAll a] is the list
    of values decoded from [a] and the error, if any, that the decoder ends
    with after them. *)
Definition through_decode {A B} (s : t W A)
  (decodeAll : A -> list B * option Throwable) : t W B :=
  mk (init s, (@nil B, @None Throwable)) (fun fuel st w =>
    match snd st with
    | (b :: pending, err) => (Emit b (fst st, (pending, err)), w)
    | ([], Some e) => (Raise e, w)
    | ([], None) =>
        match pull s fuel (fst st) w with
        | (Emit a st', w') => (Skip (st', decodeAll a), w')
        | (Skip st', w') => (Skip (st', ([], None)), w')
        | (Done, w') => (Done, w')
        | (Raise e, w') => (Raise e, w')
        | (Stall, w') => (Stall, w')
        end
    end).

(** Modelled from the spec: [terminateAfter(p)], an extension method of the
    [polynote.kernel] package object that is not among the sources.  The
    stream "terminates after delivering" the first element that satisfies
    [p]: that element is emitted, and the next pull ends the stream without
    pulling the source. *)
Definition terminateAfter {A} (s : t W A) (p : A -> bool) : t W A :=
  mk (init s, false) (fun fuel st w =>
    if (snd st : bool) then (Done, w)
    else
      match pull s fuel (fst st) w with
      | (Emit a st', w') => (Emit a (st', p a), w')
      | (Skip st', w') => (Skip (st', false), w')
      | (Done, w') => (Done, w')
      | (Raise e, w') => (Raise e, w')
      | (Stall, w') => (Stall, w')
      end).

(** Modelled from the spec: [interruptAndIgnoreWhen(signal)], an extension
    method of the [polynote.kernel] package object that is not among the
    sources.  The stream "terminates when the closed latch fires": once the
    promise read by [signal] is completed, with success or with an error, a
    pull ends the stream without pulling the source and without raising. *)
Definition interruptAndIgnoreWhen {A} (s : t W A) (signal : W -> Promise.t)
  : t W A :=
  mk (init s) (fun fuel st w =>
    if Promise.isDone (signal w) then (Done, w) else pull s fuel st w).

End Combinators.

(** A stream of a component of the state, seen as a stream of the state. *)
Definition zoom {W V A} (get_ : W -> V) (set_ : V -> W -> W) (s : t V A)
  : t W A :=
  mk (init s) (fun fuel st w =>
    let (r, v') := pull s fuel st (get_ w) in (r, set_ v' w)).

(** How a run of a stream ended. *)
Inductive Ending : Type :=
| Completed            (* the stream terminated *)
| Errored (e : Throwable)
| Running.             (* not over after the steps given, or stalled *)

(** Pulling a stream to its end, at most [steps] times:
    the elements delivered, in order, how the run ended, the state left. *)
Fixpoint runFrom {W A} (s : t W A) (steps fuel : nat) (st : state s) (w : W)
  : list A * Ending * W :=
  match steps with
  | O => ([], Running, w)
  | S steps' =>
      match pull s fuel st w with
      | (Emit a st', w') =>
          let '(out, ending, w'') := runFrom s steps' fuel st' w' in
          (a :: out, ending, w'')
      | (Skip st', w') => runFrom s steps' fuel st' w'
      | (Done, w') => ([], Completed, w')
      | (Raise e, w') => ([], Errored e, w')
      | (Stall, w') => ([], Running, w')
      end
  end.

Definition run {W A} (s : t W A) (steps fuel : nat) (w : W)
  : list A * Ending * W :=
  runFrom s steps fuel (init s) w.

End Stream.

(* ------------------------------------------------------------------ *)
(** ** SocketTransport.FramedSocket *)

Module FramedSocket.

Record t : Type := mk {
  socketChannel : SocketChannel.t;
  closed : Promise.t;
  incomingLengthBuffer : ByteBuffer.t;
  outgoingLengthBuffer : ByteBuffer.t;
  writeLock : Semaphore.t;
  (** Whether the keepalive fiber forked by [FramedSocket.apply] is alive. *)
  keepaliveFiber : bool
}.

Definition set_socketChannel (ch : SocketChannel.t) (fs : t) : t :=
  mk ch (closed fs) (incomingLengthBuffer fs) (outgoingLengthBuffer fs)
     (writeLock fs) (keepaliveFiber fs).

Definition set_closed (p : Promise.t) (fs : t) : t :=
  mk (socketChannel fs) p (incomingLengthBuffer fs) (outgoingLengthBuffer fs)
     (writeLock fs) (keepaliveFiber fs).

Definition set_incomingLengthBuffer (b : ByteBuffer.t) (fs : t) : t :=
  mk (socketChannel fs) (closed fs) b (outgoingLengthBuffer fs)
     (writeLock fs) (keepaliveFiber fs).

Definition set_outgoingLengthBuffer (b : ByteBuffer.t) (fs : t) : t :=
  mk (socketChannel fs) (closed fs) (incomingLengthBuffer fs) b
     (writeLock fs) (keepaliveFiber fs).

Definition set_writeLock (permits : Semaphore.t) (fs : t) : t :=
  mk (socketChannel fs) (closed fs) (incomingLengthBuffer fs)
     (outgoingLengthBuffer fs) permits (keepaliveFiber fs).

Definition set_keepaliveFiber (alive : bool) (fs : t) : t :=
  mk (socketChannel fs) (closed fs) (incomingLengthBuffer fs)
     (outgoingLengthBuffer fs) (writeLock fs) alive.

(** An effect of the underlying channel, run on the socket. *)
Definition onChannel {A} (m : ZIO SocketChannel.t A) : ZIO t A :=
  ZIO.zoom socketChannel set_socketChannel m.

Definition writeLock_acquire : ZIO t unit :=
  ZIO.zoom writeLock set_writeLock Semaphore.acquire.

Definition writeLock_tryAcquire : ZIO t bool :=
  ZIO.zoom writeLock set_writeLock Semaphore.tryAcquire.

Definition writeLock_release (fs : t) : t :=
  set_writeLock (Semaphore.release (writeLock fs)) fs.

Definition closed_succeed : ZIO t unit :=
  ZIO.modify (fun fs => set_closed (Promise.succeed (closed fs)) fs).

Definition closed_fail (err : Throwable) : ZIO t unit :=
  ZIO.modify (fun fs => set_closed (Promise.fail err (closed fs)) fs).

(** [while (incomingLengthBuffer.hasRemaining)
       if (socketChannel.read(incomingLengthBuffer) == -1) return None].
    The value is [false] when the loop left through [return None]. *)
Fixpoint readLength (fuel : nat) : ZIO t bool :=
  match fuel with
  | O => ZIO.never
  | S fuel' =>
      fs <- ZIO.get ;;
      if ByteBuffer.hasRemaining (incomingLengthBuffer fs) then
        r <- onChannel (SocketChannel.read (incomingLengthBuffer fs)) ;;
        ZIO.modify (set_incomingLengthBuffer (snd r)) *>
        if (fst r =? -1)%Z then ZIO.succeed false else readLength fuel'
      else ZIO.succeed true
  end.

(** [while (msgBuffer.hasRemaining) socketChannel.read(msgBuffer)]: the
    number that the read returns is dropped. *)
Fixpoint readMessage (fuel : nat) (msgBuffer : ByteBuffer.t)
  : ZIO t ByteBuffer.t :=
  match fuel with
  | O => ZIO.never
  | S fuel' =>
      if ByteBuffer.hasRemaining msgBuffer then
        r <- onChannel (SocketChannel.read msgBuffer) ;;
        readMessage fuel' (snd r)
      else ZIO.succeed msgBuffer
  end.

Definition readBuffer (fuel : nat) : ZIO t (option (option ByteBuffer.t)) :=
  ZIO.modify (fun fs =>
    set_incomingLengthBuffer (ByteBuffer.rewind (incomingLengthBuffer fs)) fs) *>
  full <- readLength fuel ;;
  if negb full then ZIO.succeed None
  else
    fs <- ZIO.get ;;
    let len := ByteBuffer.getInt0 (incomingLengthBuffer fs) in
    if (len <? 0)%Z then ZIO.succeed None
    else if (len =? 0)%Z then ZIO.succeed (Some None)
    else
      msgBuffer <- readMessage fuel (ByteBuffer.allocate (Z.to_nat len)) ;;
      ZIO.succeed (Some (Some (ByteBuffer.rewind msgBuffer))).

Definition close : ZIO t unit :=
  ZIO.bracket writeLock_acquire (fun _ => writeLock_release)
    (fun _ => onChannel (ZIO.modify SocketChannel.close) <* closed_succeed).

Definition read (fuel : nat) : ZIO t (option (option ByteBuffer.t)) :=
  ZIO.tapError
    (ZIO.catchSome (readBuffer fuel)
       (fun err =>
          if isAsynchronousCloseException err
          then Some (Logging "Remote peer closed connection" *> close
                       *> ZIO.succeed None)
          else None))
    (fun err => closed_fail err).

(** MUST hold [writeLock] to invoke this. *)
Definition writeSize (size : Z) : ZIO t unit :=
  ZIO.modify (fun fs =>
    set_outgoingLengthBuffer
      (ByteBuffer.putInt0 (ByteBuffer.rewind (outgoingLengthBuffer fs)) size)
      fs) *>
  fs <- ZIO.get ;;
  r <- onChannel (SocketChannel.write (outgoingLengthBuffer fs)) ;;
  ZIO.modify (set_outgoingLengthBuffer (snd r)).

(** [while (byteBuffer.hasRemaining) socketChannel.write(byteBuffer)] *)
Fixpoint writeRemaining (fuel : nat) (byteBuffer : ByteBuffer.t) : ZIO t unit :=
  match fuel with
  | O => ZIO.never
  | S fuel' =>
      if ByteBuffer.hasRemaining byteBuffer then
        r <- onChannel (SocketChannel.write byteBuffer) ;;
        writeRemaining fuel' (snd r)
      else ZIO.unit
  end.

Definition write (fuel : nat) (msg : list byte) : ZIO t unit :=
  ZIO.tapError
    (ZIO.bracket writeLock_acquire (fun _ => writeLock_release)
       (fun _ =>
          let byteVector := msg in
          let size := toInt (Z.of_nat (length byteVector)) in
          writeSize size *>
          let byteBuffer := ByteBuffer.wrap byteVector in
          writeRemaining fuel byteBuffer))
    (fun err =>
       if isClosedChannelException err then close
       else closed_fail err *> close).

(** Send a keepalive, but if the channel is already being written, do
    nothing. *)
Definition sendKeepalive : ZIO t unit :=
  ZIO.bracket writeLock_tryAcquire
    (fun acquired fs => if acquired then writeLock_release fs else fs)
    (fun acquired => if (acquired : bool) then writeSize 0 else ZIO.unit).

Definition isConnected (fs : t) : bool :=
  SocketChannel.isOpen (socketChannel fs).

Definition awaitClosed : ZIO t unit :=
  fs <- ZIO.get ;; Promise.await (closed fs).

(** [FramedSocket.apply(socketChannel, keepalive)]: a fresh promise, fresh
    length buffers and lock; with [keepalive] the keepalive fiber is forked. *)
Definition apply (socketChannel : SocketChannel.t) (keepalive : bool) : t :=
  mk socketChannel Promise.Pending (ByteBuffer.allocate 4)
     (ByteBuffer.allocate 4) 1 keepalive.

(** One round of the keepalive fiber,
    [sendKeepalive().tapError(err => closed.fail(err) *> socketChannel.close())]
    under [repeat(ZSchedule.spaced(250 ms))]: a failure ends the fiber,
    and a write of the channel that stalls keeps it waiting there, with
    the write lock, so that it runs no further round either. *)
Definition keepaliveRound : ZIO t unit :=
  fs <- ZIO.get ;;
  if keepaliveFiber fs then
    fun fs =>
      match ZIO.tapError sendKeepalive
              (fun err => closed_fail err *>
                          onChannel (ZIO.modify SocketChannel.close)) fs with
      | (Success _, fs') => (Success tt, fs')
      | (_, fs') => (Success tt, set_keepaliveFiber false fs')
      end
  else ZIO.unit.

(** [BitVector.view(buf)]: the bytes between position and limit. *)
Definition BitVector_view (buf : ByteBuffer.t) : list byte :=
  ByteBuffer.content buf.

Definition bitVectors : Stream.t t (list byte) :=
  Stream.map
    (Stream.unNone
       (Stream.unNoneTerminate
          (Stream.handleErrorWith_evalDrain
             (Stream.repeatEval read)
             (fun err => Logging "Remote kernel connection failure"
                           *> closed_fail err))))
    BitVector_view.

End FramedSocket.

(* ------------------------------------------------------------------ *)
(** ** java.lang.Process and SocketTransport.DeployedProcess *)

Module Process.

Record t : Type := mk {
  isAlive : bool;
  exitValue : Z;
  (** [destroy()] was called. *)
  destroyed : bool;
  (** The seconds the process runs on before it exits by itself;
      [None]: it does not. *)
  lifetime : option nat;
  (** The seconds the process takes to end once [destroy()] has asked it
      to; [None]: it goes on as if nothing had been asked. *)
  shutdown : option nat
}.

(** [process.destroy()]: the process is asked to end. *)
Definition destroy (p : t) : t :=
  mk (isAlive p) (exitValue p) true
     (if isAlive p then
        match shutdown p, lifetime p with
        | Some k, Some n => Some (Nat.min n k)
        | Some k, None => Some k
        | None, life => life
        end
      else lifetime p)
     (shutdown p).

(** [process.waitFor(timeout, TimeUnit.SECONDS)] *)
Definition waitFor (timeout : nat) (p : t) : bool * t :=
  if isAlive p then
    match lifetime p with
    | Some n =>
        if n <=? timeout
        then (true, mk false (exitValue p) (destroyed p) (Some 0) (shutdown p))
        else (false,
              mk true (exitValue p) (destroyed p) (Some (n - timeout))
                 (shutdown p))
    | None => (false, p)
    end
  else (true, p).

End Process.

(** The trait [DeployedProcess]; the time unit is the second in every
    call. *)
Class DeployedProcess (P : Type) : Type := {
  exitStatus : ZIO P (option Z);
  awaitExit : nat -> ZIO P (option Z);
  kill : ZIO P unit
}.

Definition awaitOrKill {P} `{DeployedProcess P} (gracePeriodSeconds : nat)
  : ZIO P unit :=
  status <- awaitExit gracePeriodSeconds ;;
  match status with
  | Some _ => ZIO.unit
  | None =>
      kill *>
      status' <- awaitExit gracePeriodSeconds ;;
      match status' with
      | Some _ => ZIO.unit
      | None => ZIO.fail (Exception "Unable to kill deployed process")
      end
  end.

(** [DeploySubprocess.Subprocess] *)
#[export] Instance Subprocess : DeployedProcess Process.t := {
  exitStatus := fun p =>
    (Success (if Process.isAlive p then None else Some (Process.exitValue p)),
     p);
  awaitExit := fun timeout p =>
    let (exited, p') := Process.waitFor timeout p in
    (Success (if exited then Some (Process.exitValue p') else None), p');
  kill := ZIO.modify Process.destroy
}.

(* ------------------------------------------------------------------ *)
(** ** The objects of a run

    The [FramedSocket]s and the promises live in a heap and are named by
    their index; the environment also holds the deployed process and the
    oracles of the network and of the scheduler. *)

Definition InetSocketAddress : Type := (string * nat)%type.

Module Env.

Record t : Type := mk {
  sockets : list FramedSocket.t;
  promises : list Promise.t;
  (** The process that [deployKernel] started. *)
  process : option Process.t;
  (** What starting the kernel process gives. *)
  launcher : Throwable + Process.t;
  (** Server side, one entry for each coming [server.accept()]: the
      connection that arrives and the milliseconds until it does; [None],
      and every call after the list is used up: nobody connects. *)
  backlog : list (option (Z * SocketChannel.t));
  (** Client side, one entry for each coming [SocketChannel.open]. *)
  network : list (Throwable + SocketChannel.t);
  (** One entry for each point where the main fiber can be preempted: the
      sockets, in order, whose keepalive fiber runs a round there. *)
  scheduler : list (list nat)
}.

Definition set_sockets (l : list FramedSocket.t) (env : t) : t :=
  mk l (promises env) (process env) (launcher env) (backlog env)
     (network env) (scheduler env).

Definition set_promises (l : list Promise.t) (env : t) : t :=
  mk (sockets env) l (process env) (launcher env) (backlog env)
     (network env) (scheduler env).

Definition set_process (p : option Process.t) (env : t) : t :=
  mk (sockets env) (promises env) p (launcher env) (backlog env)
     (network env) (scheduler env).

Definition set_backlog (l : list (option (Z * SocketChannel.t))) (env : t)
  : t :=
  mk (sockets env) (promises env) (process env) (launcher env) l
     (network env) (scheduler env).

Definition set_network (l : list (Throwable + SocketChannel.t)) (env : t) : t :=
  mk (sockets env) (promises env) (process env) (launcher env) (backlog env)
     l (scheduler env).

Definition set_scheduler (l : list (list nat)) (env : t) : t :=
  mk (sockets env) (promises env) (process env) (launcher env) (backlog env)
     (network env) l.

(** The heap cell [ref] overwritten; nothing happens out of range. *)
Fixpoint update {A} (ref : nat) (a : A) (heap : list A) : list A :=
  match heap, ref with
  | [], _ => []
  | _ :: rest, O => a :: rest
  | b :: rest, S ref' => b :: update ref' a rest
  end.

(** A new [FramedSocket] object: its reference is the next index. *)
Definition newSocket (fs : FramedSocket.t) : ZIO t nat :=
  fun env => (Success (length (sockets env)),
              set_sockets (sockets env ++ [fs]) env).

(** [Promise.make] *)
Definition newPromise : ZIO t nat :=
  fun env => (Success (length (promises env)),
              set_promises (promises env ++ [Promise.Pending]) env).

(** An effect of the socket [ref].  No reference dangles in a run; for one
    that did, the effect would not return. *)
Definition onSocket {A} (ref : nat) (m : ZIO FramedSocket.t A) : ZIO t A :=
  fun env =>
    match nth_error (sockets env) ref with
    | Some fs =>
        let (r, fs') := m fs in
        (r, set_sockets (update ref fs' (sockets env)) env)
    | None => (NoReturn, env)
    end.

(** A stream of the socket [ref]. *)
Definition streamOf {A} (ref : nat) (s : Stream.t FramedSocket.t A)
  : Stream.t t A :=
  Stream.mk (Stream.init s) (fun fuel st env =>
    match nth_error (sockets env) ref with
    | Some fs =>
        let (r, fs') := Stream.pull s fuel st fs in
        (r, set_sockets (update ref fs' (sockets env)) env)
    | None => (Stream.Stall, env)
    end).

(** The state of the promise [ref]. *)
Definition promise (ref : nat) (env : t) : Promise.t :=
  nth ref (promises env) Promise.Pending.

Definition completePromise (ref : nat) (complete : Promise.t -> Promise.t)
  : ZIO t unit :=
  ZIO.modify (fun env =>
    set_promises (update ref (complete (promise ref env)) (promises env)) env).

(** The rounds of the keepalive fibers of the sockets [refs], in order. *)
Definition keepaliveRounds (refs : list nat) (env : t) : t :=
  fold_left (fun e ref => snd (onSocket ref FramedSocket.keepaliveRound e))
    refs env.

(** A point where the main fiber can be preempted: the keepalive fibers
    that the scheduler picks run a round each.  A round is [sendKeepalive]
    as a whole; a round that comes while the main fiber holds the write
    lock does nothing, so no round needs to be placed inside a [write]. *)
Definition yield : ZIO t unit :=
  fun env =>
    match scheduler env with
    | [] => (Success tt, env)
    | refs :: later =>
        (Success tt, keepaliveRounds refs (set_scheduler later env))
    end.

End Env.

(* ------------------------------------------------------------------ *)
(** ** zio.duration.Duration and timeouts *)

Module Duration.

Inductive t : Type :=
| minutes (n : Z)
| milliseconds (n : Z).

Definition toMillis (d : t) : Z :=
  match d with
  | minutes n => (n * 60000)%Z
  | milliseconds n => n
  end.

Definition toNanos (d : t) : Z := (toMillis d * 1000000)%Z.

(** [d.asScala] in an interpolated string.  A finite [zio] duration,
    here a positive one, holds nanoseconds, and [asScala] is the [FiniteDuration] of that many
    nanoseconds, which prints as the number and the unit, in the plural but
    for 1. *)
Definition asScala (d : t) : string :=
  NilZero.string_of_int (Z.to_int (toNanos d))
  ++ (if (toNanos d =? 1)%Z then " nanosecond" else " nanoseconds").

End Duration.

(** An effect that takes time: [None] when it never completes, else the
    milliseconds it takes with its outcome and the state it leaves. *)
Definition Timed (S A : Type) : Type := S -> option (Z * Exit A * S).

Module Timed.

(** [m.flatMap(k)] for a [k] that takes no time. *)
Definition flatMap {S A B} (m : Timed S A) (k : A -> ZIO S B) : Timed S B :=
  fun s =>
    match m s with
    | Some (elapsed, Success a, s') =>
        let (r, s'') := k a s' in Some (elapsed, r, s'')
    | Some (elapsed, Failure e, s') => Some (elapsed, Failure e, s')
    | Some (elapsed, NoReturn, s') => None
    | None => None
    end.

(** [m.timeout(d)]: [Some] of the value when [m] completes before [d] has
    passed; else [m] is interrupted, leaves the state as it was, and the
    value is [None]. *)
Definition timeout {S A} (m : Timed S A) (d : Duration.t) : ZIO S (option A) :=
  fun s =>
    match m s with
    | Some (elapsed, r, s') =>
        if (elapsed <? Duration.toMillis d)%Z then
          match r with
          | Success a => (Success (Some a), s')
          | Failure e => (Failure e, s')
          | NoReturn => (NoReturn, s')
          end
        else (Success None, s)
    | None => (Success None, s)
    end.

End Timed.

(* ------------------------------------------------------------------ *)
(** ** Channel roles *)

Inductive IdentifyChannel : Type :=
| MainChannel
| NotebookUpdatesChannel.

Definition IdentifyChannel_toString (role : IdentifyChannel) : string :=
  match role with
  | MainChannel => "MainChannel"
  | NotebookUpdatesChannel => "NotebookUpdatesChannel"
  end.

(* ------------------------------------------------------------------ *)
(** ** SocketTransport, SocketTransportServer, SocketTransportClient *)

Module SocketTransport.

Record Channels : Type := mkChannels {
  mainChannel : nat;
  notebookUpdatesChannel : nat;
  address : InetSocketAddress
}.

Definition isConnected (channels : Channels) (env : Env.t) : bool :=
  match nth_error (Env.sockets env) (mainChannel channels),
        nth_error (Env.sockets env) (notebookUpdatesChannel channels) with
  | Some main, Some updates =>
      FramedSocket.isConnected main && FramedSocket.isConnected updates
  | _, _ => false
  end.

(** [ZIO.sequencePar(Seq(mainChannel.close(), notebookUpdatesChannel.close()))]:
    the two closes touch different sockets. *)
Definition close (channels : Channels) : ZIO Env.t unit :=
  ZIO.map
    (ZIO.zipPar (Env.onSocket (mainChannel channels) FramedSocket.close)
       (Env.onSocket (notebookUpdatesChannel channels) FramedSocket.close))
    (fun _ => tt).

Record SocketTransportServer : Type := mkServer {
  server_address : InetSocketAddress;
  server_channels : Channels;
  server_closed : nat
}.

Record SocketTransportClient : Type := mkClient {
  client_channels : Channels;
  client_closed : nat
}.

(** [effect.repeat(ZSchedule.doUntil(p))]: the effect is run again until
    its value satisfies [p]; the fiber can be preempted between two runs. *)
Fixpoint repeat_doUntil {A} (fuel : nat) (effect : ZIO Env.t A) (p : A -> bool)
  : ZIO Env.t A :=
  match fuel with
  | O => ZIO.never
  | S fuel' =>
      a <- effect ;;
      if p a then ZIO.succeed a else Env.yield *> repeat_doUntil fuel' effect p
  end.

Section Codecs.

(** The codecs are not among the sources: [IdentifyChannel.encode],
    [IdentifyChannel.decodeBuffer], and the decoders of [RemoteRequest] and
    of [NotebookUpdate] behind [decode.pipe]. *)
Variable IdentifyChannel_encode : IdentifyChannel -> Throwable + list byte.
Variable IdentifyChannel_decodeBuffer :
  ByteBuffer.t -> Throwable + IdentifyChannel.
Variables RemoteRequest NotebookUpdate : Type.
Variable decodeRequests : list byte -> list RemoteRequest * option Throwable.
Variable decodeUpdates : list byte -> list NotebookUpdate * option Throwable.
(** [_.isInstanceOf[ShutdownRequest]] *)
Variable isShutdownRequest : RemoteRequest -> bool.

(** [ZIO.fromEither] *)
Definition fromEither {S A} (x : Throwable + A) : ZIO S A :=
  match x with
  | inl e => ZIO.fail e
  | inr a => ZIO.succeed a
  end.

(** The test of [ZSchedule.doUntil] in [identify]:
    [case Some(Some(_)) => true; case _ => false]. *)
Definition isPayload (r : option (option ByteBuffer.t)) : bool :=
  match r with
  | Some (Some _) => true
  | _ => false
  end.

Definition identify (fuel : nat) (channel : nat) : ZIO Env.t IdentifyChannel :=
  r <- repeat_doUntil fuel (Env.onSocket channel (FramedSocket.read fuel))
         isPayload ;;
  match r with
  | Some (Some buf) => fromEither (IdentifyChannel_decodeBuffer buf)
  | _ => ZIO.fail (IllegalStateException "No buffer was received")
  end.

Definition selectChannels (fuel : nat) (channel1 channel2 : nat)
  (address : InetSocketAddress) : ZIO Env.t Channels :=
  roles <- ZIO.zipPar (identify fuel channel1) (identify fuel channel2) ;;
  match roles with
  | (MainChannel, NotebookUpdatesChannel) =>
      ZIO.succeed (mkChannels channel1 channel2 address)
  | (NotebookUpdatesChannel, MainChannel) =>
      ZIO.succeed (mkChannels channel2 channel1 address)
  | (role1, role2) =>
      ZIO.fail (IllegalStateException
                  ("Illegal channel set: (" ++ IdentifyChannel_toString role1
                   ++ "," ++ IdentifyChannel_toString role2 ++ ")"))
  end.

(** The outcome of the two identifications is a permutation of the two
    roles. *)
Definition permutation (r1 r2 : Exit IdentifyChannel) : Prop :=
  (r1 = Success MainChannel /\ r2 = Success NotebookUpdatesChannel)
  \/ (r1 = Success NotebookUpdatesChannel /\ r2 = Success MainChannel).

(** [SocketTransportServer.apply].  The two fibers forked at the end,
    [channelN.awaitClosed.to(closed)], only wait here: what they do once a
    socket's latch is completed is not part of this development. *)
Definition SocketTransportServer_apply (fuel : nat)
  (server : InetSocketAddress) (channel1 channel2 : nat)
  : ZIO Env.t SocketTransportServer :=
  closed <- Env.newPromise ;;
  channels <- selectChannels fuel channel1 channel2 server ;;
  ZIO.succeed (mkServer server channels closed).

(** [server.accept()], with the time it takes. *)
Definition accept : Timed Env.t SocketChannel.t :=
  fun env =>
    match Env.backlog env with
    | Some (elapsed, channel) :: later =>
        Some (elapsed, Success channel, Env.set_backlog later env)
    | _ => None
    end.

Definition startConnection (timeout : Duration.t) : ZIO Env.t nat :=
  r <- Timed.timeout
         (Timed.flatMap accept (fun channel =>
            Env.newSocket (FramedSocket.apply channel true)))
         timeout ;;
  match r with
  | Some s => ZIO.succeed s
  | None =>
      ZIO.fail (TimeoutException
                  ("Remote kernel process failed to start after "
                   ++ Duration.asScala timeout))
  end.

(** [deploy.deployKernel(this, serverAddress)] *)
Definition deployKernel : ZIO Env.t unit :=
  fun env =>
    match Env.launcher env with
    | inl e => (Failure e, env)
    | inr p => (Success tt, Env.set_process (Some p) env)
    end.

(** [deployAndServe()], on the listening socket bound to [serverAddress].
    The task manager and the progress report are left out. *)
Definition deployAndServe (fuel : nat) (serverAddress : InetSocketAddress)
  : ZIO Env.t SocketTransportServer :=
  deployKernel *>
  connection <- startConnection (Duration.minutes 3) ;;
  Env.yield *>
  connection2 <- startConnection (Duration.minutes 3) ;;
  Env.yield *>
  SocketTransportServer_apply fuel serverAddress connection connection2.

(** [SocketChannel.open(serverAddress)] *)
Definition SocketChannel_open : ZIO Env.t SocketChannel.t :=
  fun env =>
    match Env.network env with
    | inr channel :: later => (Success channel, Env.set_network later env)
    | inl e :: later => (Failure e, Env.set_network later env)
    | [] => (Failure IOException, env)
    end.

Definition SocketTransportClient_apply (channels : Channels)
  : ZIO Env.t SocketTransportClient :=
  closed <- Env.newPromise ;;
  ZIO.succeed (mkClient channels closed).

Definition connectClient (fuel : nat) (serverAddress : InetSocketAddress)
  : ZIO Env.t SocketTransportClient :=
  mainChannel <- (channel <- SocketChannel_open ;;
                  Env.newSocket (FramedSocket.apply channel true)) ;;
  Env.yield *>
  updatesChannel <- (channel <- SocketChannel_open ;;
                     Env.newSocket (FramedSocket.apply channel true)) ;;
  Env.yield *>
  (msg <- fromEither (IdentifyChannel_encode MainChannel) ;;
   Env.onSocket mainChannel (FramedSocket.write fuel msg)) *>
  Env.yield *>
  (msg <- fromEither (IdentifyChannel_encode NotebookUpdatesChannel) ;;
   Env.onSocket updatesChannel (FramedSocket.write fuel msg)) *>
  Env.yield *>
  let channels := mkChannels mainChannel updatesChannel serverAddress in
  SocketTransportClient_apply channels.

(** The streams of the client; [translate(logError(...))] only logs. *)
Definition requestStream (client : SocketTransportClient)
  : Stream.t Env.t RemoteRequest :=
  Stream.through_decode
    (Env.streamOf (mainChannel (client_channels client))
       FramedSocket.bitVectors)
    decodeRequests.

Definition updateStream (client : SocketTransportClient)
  : Stream.t Env.t NotebookUpdate :=
  Stream.through_decode
    (Env.streamOf (notebookUpdatesChannel (client_channels client))
       FramedSocket.bitVectors)
    decodeUpdates.

Definition requests (client : SocketTransportClient)
  : Stream.t Env.t RemoteRequest :=
  Stream.terminateAfter (requestStream client) isShutdownRequest.

(** The state of [requests]: the values decoded and not delivered yet, the
    error that the decoder ended with, and whether a [ShutdownRequest] was
    delivered. *)
Definition requestsState (client : SocketTransportClient)
  (pending : list RemoteRequest) (err : option Throwable) (finished : bool)
  : Stream.state (requests client) :=
  (tt, (pending, err), finished).

Definition updates (client : SocketTransportClient)
  : Stream.t Env.t NotebookUpdate :=
  Stream.interruptAndIgnoreWhen (updateStream client)
    (Env.promise (client_closed client)).

(** [SocketTransportClient.close()] *)
Definition client_close (client : SocketTransportClient) : ZIO Env.t unit :=
  Env.completePromise (client_closed client) Promise.succeed *>
  close (client_channels client).

End Codecs.

End SocketTransport.

(* ------------------------------------------------------------------ *)
(** ** The wire, as the statements speak of it *)

Module Wire.

(** The bytes still to be read from a socket, how the coming reads cut them
    and what was written to it. *)
Definition inbound (fs : FramedSocket.t) : list byte :=
  SocketChannel.inbound (FramedSocket.socketChannel fs).

Definition chunks (fs : FramedSocket.t) : list nat :=
  SocketChannel.chunks (FramedSocket.socketChannel fs).

Definition outbound (fs : FramedSocket.t) : list byte :=
  SocketChannel.outbound (FramedSocket.socketChannel fs).

(** The socket [fs] with [bytes] still to be read, cut by [cuts]. *)
Definition receiving (fs : FramedSocket.t) (bytes : list byte)
  (cuts : list nat) : FramedSocket.t :=
  let ch := FramedSocket.socketChannel fs in
  FramedSocket.set_socketChannel
    (SocketChannel.mk (SocketChannel.isOpen ch) bytes cuts
       (SocketChannel.atEnd ch) (SocketChannel.outbound ch)
       (SocketChannel.writeFaults ch))
    fs.

(** The two length buffers are the ones of [ByteBuffer.allocate(4)]. *)
Definition allocated (fs : FramedSocket.t) : bool :=
  (length (ByteBuffer.array (FramedSocket.incomingLengthBuffer fs)) =? 4)
  && (length (ByteBuffer.array (FramedSocket.outgoingLengthBuffer fs)) =? 4).

Definition noFault (outcome : SocketChannel.WriteOutcome) : bool :=
  match outcome with
  | SocketChannel.Writes => true
  | _ => false
  end.

(** The socket can be written: the channel is open, no write ahead fails
    or stalls, and the write lock is free. *)
Definition writable (fs : FramedSocket.t) : bool :=
  SocketChannel.isOpen (FramedSocket.socketChannel fs)
  && forallb noFault (SocketChannel.writeFaults (FramedSocket.socketChannel fs))
  && (0 <? FramedSocket.writeLock fs).

(** The bytes that were written to a socket between two of its states. *)
Definition sent (before after : FramedSocket.t) : list byte :=
  skipn (length (outbound before)) (outbound after).

(** A message "framed by preceding it with a signed 32-bit big-endian
    length, not including the 4 bytes of the length itself". *)
Definition frame (payload : list byte) : list byte :=
  intBytes (Z.of_nat (length payload)) ++ payload.

(** Following the spec: the "signed 32-bit big-endian length" that four
    bytes spell.  The first byte weighs most; the four bytes spell a
    number below [2^32], and from [2^31] on it stands for the negative
    number [2^32] below it. *)
Definition signedBigEndian (b0 b1 b2 b3 : byte) : Z :=
  let unsigned :=
    (Z.of_N (Byte.to_N b0) * 2 ^ 24 + Z.of_N (Byte.to_N b1) * 2 ^ 16
     + Z.of_N (Byte.to_N b2) * 2 ^ 8 + Z.of_N (Byte.to_N b3))%Z in
  if (unsigned <? 2 ^ 31)%Z then unsigned else (unsigned - 2 ^ 32)%Z.

(** What [readBuffer] returns for a frame of length [len] followed by
    [rest], and the input it leaves. *)
Definition frameResult (len : Z) (rest : list byte)
  : option (option ByteBuffer.t) :=
  if (len <? 0)%Z then None
  else if (len =? 0)%Z then Some None
  else Some (Some (ByteBuffer.wrap (firstn (Z.to_nat len) rest))).

Definition frameRest (len : Z) (rest : list byte) : list byte :=
  if (0 <? len)%Z then skipn (Z.to_nat len) rest else rest.

(** How the input ends for the frame stream, after the frames and before
    [tail]: the stream ends inside or in front of a length, or a negative
    length comes. *)
Definition endsFrames (fs : FramedSocket.t) (tail : list byte) : Prop :=
  (SocketChannel.atEnd (FramedSocket.socketChannel fs)
   = SocketChannel.EndOfStream
   /\ length tail < 4)
  \/ (exists b0 b1 b2 b3 junk,
        tail = b0 :: b1 :: b2 :: b3 :: junk
        /\ (bytesInt b0 b1 b2 b3 < 0)%Z).

(** How the frame stream of a socket ends, behind the frames and in front
    of [tail]: as [endsFrames] says, or by a read that fails. *)
Definition endsStream (fs : FramedSocket.t) (tail : list byte) : Prop :=
  endsFrames fs tail
  \/ (tail = []
      /\ exists e,
           SocketChannel.atEnd (FramedSocket.socketChannel fs)
           = SocketChannel.ReadThrows e
           /\ isAsynchronousCloseException e = false).

(** No connection comes to the coming [server.accept()] before the time
    [d] has passed. *)
Definition notAcceptedWithin (d : Duration.t)
  (backlog : list (option (Z * SocketChannel.t))) : Prop :=
  match backlog with
  | Some (elapsed, _) :: _ => (Duration.toMillis d <= elapsed)%Z
  | _ => True
  end.

(** [k] keepalive frames in a row. *)
Definition keepalives (k : nat) : list byte :=
  concat (repeat (intBytes 0) k).

(** A connection that was just opened: nothing was written to it yet, and
    no write ahead fails or stalls. *)
Definition fresh (channel : SocketChannel.t) : Prop :=
  SocketChannel.isOpen channel = true
  /\ SocketChannel.outbound channel = []
  /\ forallb noFault (SocketChannel.writeFaults channel) = true.

(** The error of a connection that is not accepted in time. *)
Definition startupTimeout : Throwable :=
  TimeoutException
    ("Remote kernel process failed to start after "
     ++ Duration.asScala (Duration.minutes 3)).

(** The socket [ref] is in the heap and satisfies [P]. *)
Definition holds (ref : nat) (P : FramedSocket.t -> Prop) (env : Env.t)
  : Prop :=
  exists fs, nth_error (Env.sockets env) ref = Some fs /\ P fs.

(** [P] is kept by a round of the keepalive fiber. *)
Definition stable (P : FramedSocket.t -> Prop) : Prop :=
  forall fs, P fs -> P (snd (FramedSocket.keepaliveRound fs)).

(** A socket that can be written and whose output so far is [sent],
    followed by keepalive frames only. *)
Definition sendingAfter (sent : list byte) (fs : FramedSocket.t) : Prop :=
  writable fs = true
  /\ allocated fs = true
  /\ exists k, outbound fs = sent ++ keepalives k.

(** A list of requests without a [ShutdownRequest]. *)
Definition noShutdown {R} (isShutdownRequest : R -> bool) (reqs : list R)
  : Prop :=
  forallb (fun r => negb (isShutdownRequest r)) reqs = true.

(** The payload decodes, without an error, to requests that are not
    [ShutdownRequest]s. *)
Definition plainRequests {R}
  (decodeRequests : list byte -> list R * option Throwable)
  (isShutdownRequest : R -> bool) (payload : list byte) : Prop :=
  snd (decodeRequests payload) = None
  /\ noShutdown isShutdownRequest (fst (decodeRequests payload)).

(** From [env] to [env'] nothing changed but, maybe, the socket [ref]:
    the promises, the other sockets, the process and the oracles of the
    network and of the scheduler are the same, and no socket was added. *)
Definition onlyChanged (ref : nat) (env env' : Env.t) : Prop :=
  Env.promises env' = Env.promises env
  /\ (forall ref', ref' <> ref ->
        nth_error (Env.sockets env') ref' = nth_error (Env.sockets env) ref')
  /\ length (Env.sockets env') = length (Env.sockets env)
  /\ Env.process env' = Env.process env
  /\ Env.launcher env' = Env.launcher env
  /\ Env.backlog env' = Env.backlog env
  /\ Env.network env' = Env.network env
  /\ Env.scheduler env' = Env.scheduler env.

(** A socket of a connection that holds: it can be written, and [bytes]
    are still to be read from it, cut into at most [bound] pieces. *)
Definition awaiting (bytes : list byte) (bound : nat) (fs : FramedSocket.t)
  : Prop :=
  writable fs = true
  /\ allocated fs = true
  /\ inbound fs = bytes
  /\ length (chunks fs) <= bound.

(** A socket of a connection that the peer closed after all it sent was
    read. *)
Definition atEndOfStream (fs : FramedSocket.t) : Prop :=
  writable fs = true
  /\ allocated fs = true
  /\ inbound fs = []
  /\ SocketChannel.atEnd (FramedSocket.socketChannel fs)
     = SocketChannel.EndOfStream.

(** The payloads that are not empty. *)
Definition payloads (frames : list (list byte)) : list (list byte) :=
  filter (fun payload => negb (length payload =? 0)) frames.

End Wire.

(* ------------------------------------------------------------------ *)
(** ** Sockets to run the definitions on *)

Module Examples.

(** A fresh socket whose peer sent [bytes] and then closed. *)
Definition socket (bytes : list byte) (cuts : list nat) : FramedSocket.t :=
  FramedSocket.apply
    (SocketChannel.mk true bytes cuts SocketChannel.EndOfStream [] []) true.

(** A fresh socket whose write calls do as [faults] says. *)
Definition faulty (faults : list SocketChannel.WriteOutcome)
  : FramedSocket.t :=
  FramedSocket.apply
    (SocketChannel.mk true [] [] SocketChannel.EndOfStream [] faults) true.

(** The frame of "AB" followed by one more byte, cut into reads of at most
    1, 0 and 2 bytes and what is left. *)
Definition twoBytesAndMore : FramedSocket.t :=
  socket [x00; x00; x00; x02; x41; x42; x43] [1; 0; 2].

(** The marker of a closed peer, a negative length, cut into reads of at
    most 2 bytes and what is left, followed by one more byte. *)
Definition markerAndMore : FramedSocket.t :=
  socket [xff; xff; xff; xfe; x44] [2].

(** A keepalive, cut into reads of at most 3 bytes and what is left,
    followed by one more byte. *)
Definition keepaliveAndMore : FramedSocket.t :=
  socket [x00; x00; x00; x00; x45] [3].

(** A frame that announces two bytes and brings one before the stream
    ends. *)
Definition truncated : FramedSocket.t :=
  socket [x00; x00; x00; x02; x41] [].

(** A codec of the channel roles: one byte, 0 for the main channel and 1
    for the channel of the notebook updates. *)
Definition encodeRole (role : IdentifyChannel) : Throwable + list byte :=
  inr [match role with
       | MainChannel => x00
       | NotebookUpdatesChannel => x01
       end].

Definition decodeRole (buf : ByteBuffer.t) : Throwable + IdentifyChannel :=
  match ByteBuffer.content buf with
  | [x00] => inr MainChannel
  | [x01] => inr NotebookUpdatesChannel
  | _ => inl (RuntimeException "cannot decode IdentifyChannel")
  end.

(** A kernel process that runs, and ends at once when asked to. *)
Definition kernel : Process.t := Process.mk true 0 false None (Some 0).

(** A server about to deploy [kernel]; the two connections arrive after 10
    and 20 milliseconds and bring [bytes1] and [bytes2]. *)
Definition serving (bytes1 bytes2 : list byte) : Env.t :=
  Env.mk [] [] None (inr kernel)
    [ Some (10%Z, SocketChannel.mk true bytes1 [] SocketChannel.EndOfStream
                    [] []);
      Some (20%Z, SocketChannel.mk true bytes2 [] SocketChannel.EndOfStream
                    [] []) ]
    [] [].

(** A server about to deploy [kernel] to which nobody connects. *)
Definition lonely : Env.t := Env.mk [] [] None (inr kernel) [] [] [].

(** A server about to deploy [kernel]; the client connects twice at once
    and then sends nothing. *)
Definition silentClient : Env.t :=
  Env.mk [] [] None (inr kernel)
    [ Some (0%Z, SocketChannel.mk true [] [] SocketChannel.Silent [] []);
      Some (0%Z, SocketChannel.mk true [] [] SocketChannel.Silent [] []) ]
    [] [].

(** A client whose two connections open; the scheduler runs the keepalive
    fibers as [rounds] says. *)
Definition connecting (rounds : list (list nat)) : Env.t :=
  Env.mk [] [] None (inl IOException) []
    [ inr (SocketChannel.mk true [] [] SocketChannel.Silent [] []);
      inr (SocketChannel.mk true [] [] SocketChannel.Silent [] []) ]
    rounds.

(** Two accepted sockets, the first with [bytes1] to read and the second
    with [bytes2]. *)
Definition accepted (bytes1 bytes2 : list byte) : Env.t :=
  Env.mk [socket bytes1 []; socket bytes2 []] [] (Some kernel) (inr kernel)
    [] [] [].

(** Requests and updates of one byte each; the request [xff] is the
    [ShutdownRequest]. *)
Definition decodeBytes (payload : list byte) : list byte * option Throwable :=
  (payload, None).

Definition isShutdownByte (request : byte) : bool := Byte.eqb request xff.

(** A connected client: socket 0 is the main channel and has [bytes] to
    read, socket 1 is the channel of the updates and has [bytes'] to read;
    promise 0 is the closed latch of the client. *)
Definition connected (bytes bytes' : list byte) : Env.t :=
  Env.mk [socket bytes []; socket bytes' []] [Promise.Pending] None
    (inl IOException) [] [] [].

Definition localhost : InetSocketAddress := ("127.0.0.1"%string, 4000).

Definition theClient : SocketTransport.SocketTransportClient :=
  SocketTransport.mkClient (SocketTransport.mkChannels 0 1 localhost) 0.

End Examples.

(* ------------------------------------------------------------------ *)
(** ** More words for the statements *)

Module Control.

(** What the channel operations of a socket never touch: the closed latch,
    the permits of the write lock, the keepalive fiber. *)
Definition part (fs : FramedSocket.t)
  : Promise.t * Semaphore.t * bool :=
  (FramedSocket.closed fs, FramedSocket.writeLock fs,
   FramedSocket.keepaliveFiber fs).

(** The latch [p'] comes from [p] without a completed latch being changed. *)
Definition latchKept (p p' : Promise.t) : Prop :=
  Promise.isDone p = true -> p' = p.

(** A socket with its write lock held, as during a [write]. *)
Definition busy (fs : FramedSocket.t) : FramedSocket.t :=
  FramedSocket.set_writeLock 0 fs.

End Control.

(* ------------------------------------------------------------------ *)
(** ** The operations of the server and of the client *)

Module Endpoint.

Import SocketTransport.

(** An effect of the deployed process of the server.  A server that was
    built has one; without it the effect would not return. *)
Definition onProcess {A} (m : ZIO Process.t A) : ZIO Env.t A :=
  fun env =>
    match Env.process env with
    | Some p => let (r, p') := m p in (r, Env.set_process (Some p') env)
    | None => (NoReturn, env)
    end.

(** The bytes that the socket [ref] has written so far. *)
Definition sentOn (ref : nat) (env : Env.t) : list byte :=
  match nth_error (Env.sockets env) ref with
  | Some fs => Wire.outbound fs
  | None => []
  end.

(** The socket [ref] can be written. *)
Definition ready (ref : nat) (env : Env.t) : Prop :=
  Wire.holds ref
    (fun fs => Wire.writable fs = true /\ Wire.allocated fs = true) env.

(** A socket in full use: it can be written, nobody closed it, nothing
    failed on it, and its keepalive fiber runs. *)
Definition running (fs : FramedSocket.t) : Prop :=
  Wire.writable fs = true
  /\ Wire.allocated fs = true
  /\ FramedSocket.keepaliveFiber fs = true
  /\ FramedSocket.closed fs = Promise.Pending.

(** From [env] to [env'] the frame of [msg] was written to the socket
    [ref], and nothing else happened. *)
Definition framedOn (ref : nat) (msg : list byte) (env env' : Env.t)
  : Prop :=
  sentOn ref env' = sentOn ref env ++ Wire.frame msg
  /\ ready ref env'
  /\ Wire.onlyChanged ref env env'
  /\ Env.process env' = Env.process env.

Section Encoders.

(** The encoders are not among the sources: [codec.encode(x).toEither] is
    the message of the error, or the bits. *)
Variables RemoteRequest NotebookUpdate RemoteResponse : Type.
Variable RemoteRequest_encode : RemoteRequest -> string + list byte.
Variable NotebookUpdate_encode : NotebookUpdate -> string + list byte.
Variable RemoteResponse_encode : RemoteResponse -> string + list byte.

(** [ZIO.fromEither(x).mapError(err => new RuntimeException(err.message))] *)
Definition fromEncoded {S} (x : string + list byte) : ZIO S (list byte) :=
  match x with
  | inl message => ZIO.fail (RuntimeException message)
  | inr msg => ZIO.succeed msg
  end.

(** [SocketTransportServer.sendRequest]; [onError] only logs. *)
Definition sendRequest (fuel : nat) (server : SocketTransportServer)
  (req : RemoteRequest) : ZIO Env.t unit :=
  msg <- fromEncoded (RemoteRequest_encode req) ;;
  Env.onSocket (mainChannel (server_channels server))
    (FramedSocket.write fuel msg).

(** [SocketTransportServer.sendNotebookUpdate] *)
Definition sendNotebookUpdate (fuel : nat) (server : SocketTransportServer)
  (update : NotebookUpdate) : ZIO Env.t unit :=
  msg <- fromEncoded (NotebookUpdate_encode update) ;;
  Env.onSocket (notebookUpdatesChannel (server_channels server))
    (FramedSocket.write fuel msg).

(** [SocketTransportClient.sendResponse]; [onError] only logs. *)
Definition sendResponse (fuel : nat) (client : SocketTransportClient)
  (rep : RemoteResponse) : ZIO Env.t unit :=
  bytes <- fromEncoded (RemoteResponse_encode rep) ;;
  Env.onSocket (mainChannel (client_channels client))
    (FramedSocket.write fuel bytes).

End Encoders.

(** [SocketTransportServer.close()] *)
Definition server_close (server : SocketTransportServer) : ZIO Env.t unit :=
  Env.completePromise (server_closed server) Promise.succeed *>
  SocketTransport.close (server_channels server) *>
  onProcess (awaitOrKill 30).

(** [SocketTransportServer.isConnected] *)
Definition server_isConnected (server : SocketTransportServer)
  : ZIO Env.t bool :=
  fun env => (Success (isConnected (server_channels server) env), env).

(** [SocketTransportServer.awaitClosed] *)
Definition server_awaitClosed (server : SocketTransportServer)
  : ZIO Env.t unit :=
  fun env => Promise.await (Env.promise (server_closed server) env) env.

End Endpoint.

(* ------------------------------------------------------------------ *)
(** ** The environment of the kernel process *)

Module DeploySubprocess.

(** A map from strings to strings as its bindings, a key at most once. *)
Definition Map : Type := list (string * string).

Definition Map_get (k : string) (m : Map) : option string :=
  match find (fun kv => String.eqb (fst kv) k) m with
  | Some kv => Some (snd kv)
  | None => None
  end.

(** [m + (k -> v)] and [processEnv.put(k, v)]: the binding of [k] is
    replaced. *)
Definition Map_put (k v : string) (m : Map) : Map :=
  (k, v) :: filter (fun kv => negb (String.eqb (fst kv) k)) m.

(** [m1 ++ m2] *)
Definition Map_concat (m1 m2 : Map) : Map :=
  fold_left (fun m kv => Map_put (fst kv) (snd kv) m) m2 m1.

(** The environment that [deployKernel] gives the process: that of the
    builder, which is the one inherited from this process, after
    [(config.env ++ nbConfig.env.getOrElse(Map.empty)).foreach {
       case (k,v) => processEnv.put(k, v) }]. *)
Definition processEnvironment (inherited config : Map) (nbEnv : option Map)
  : Map :=
  fold_left (fun processEnv kv => Map_put (fst kv) (snd kv) processEnv)
    (Map_concat config
       (match nbEnv with
        | Some m => m
        | None => []
        end))
    inherited.

End DeploySubprocess.

Module MoreExamples.

(** A fresh socket in the middle of a [write] of another fiber. *)
Definition writing : FramedSocket.t := Control.busy (Examples.socket [] []).

(** A fresh socket whose send buffer is full: the next write of the
    channel stalls. *)
Definition stalled : FramedSocket.t :=
  Examples.faulty [SocketChannel.Stalls 0].

(** A socket that was closed with [close()]. *)
Definition closedSocket : FramedSocket.t :=
  snd (FramedSocket.close (Examples.socket [x00; x00; x00; x01; x41] [])).

(** A fresh socket whose peer sent [bytes] before the connection broke
    with [e]. *)
Definition broken (bytes : list byte) (e : Throwable) : FramedSocket.t :=
  FramedSocket.apply
    (SocketChannel.mk true bytes [] (SocketChannel.ReadThrows e) [] []) true.

(** A kernel process that exits by itself after [n] seconds, and at once
    when asked to. *)
Definition exiting (n : nat) : Process.t :=
  Process.mk true 0 false (Some n) (Some 0).

(** A kernel process that runs and does not end when asked to. *)
Definition stubborn : Process.t := Process.mk true 0 false None None.

(** A server whose kernel connected: socket 0 is the main channel, socket
    1 the channel of the updates, promise 0 the closed latch. *)
Definition theServer : SocketTransport.SocketTransportServer :=
  SocketTransport.mkServer Examples.localhost
    (SocketTransport.mkChannels 0 1 Examples.localhost) 0.

Definition served (p : Process.t) : Env.t :=
  Env.mk [Examples.socket [] []; Examples.socket [] []] [Promise.Pending]
    (Some p) (inr p) [] [] [].

(** Encoders of one byte each; the byte [xfe] cannot be encoded. *)
Definition encodeByte (b : byte) : string + list byte :=
  if Byte.eqb b xfe then inl "cannot encode"%string else inr [b].

(** A client whose first connection opens and whose second is refused;
    the scheduler runs the keepalive fibers as [rounds] says. *)
Definition halfConnecting (rounds : list (list nat)) : Env.t :=
  Env.mk [] [] None (inl IOException) []
    [ inr (SocketChannel.mk true [] [] SocketChannel.Silent [] []);
      inl IOException ]
    rounds.

(** A connected client whose channel of the updates brings the frames of
    [x07] and of [x08; x09] around a keepalive, and then the marker of a
    closed peer. *)
Definition updating : Env.t :=
  Examples.connected []
    (flat_map Wire.frame [[x07]; []; [x08; x09]] ++ [xff; xff; xff; xff]).

End MoreExamples.

(* ================================================================== *)
(** * Properties *)

Unset Implicit Arguments.

Section Integers.

Local Open Scope Z_scope.

Lemma byteToZ_range (b : byte) : 0 <= byteToZ b < 256.
Proof.
  unfold byteToZ. pose proof (Byte.to_N_bounded b) as H. lia.
Qed.

Lemma byteToZ_byteOfZ (z : Z) : byteToZ (byteOfZ z) = Z.land z 255.
Proof.
  unfold byteToZ, byteOfZ.
  assert (R : 0 <= Z.land z 255 < 256).
  { change 255 with (Z.ones 8). rewrite Z.land_ones by lia.
    apply Z.mod_pos_bound. lia. }
  destruct (Byte.of_N (Z.to_N (Z.land z 255))) as [b|] eqn:E.
  - apply Byte.to_of_N in E. rewrite E. lia.
  - apply Byte.of_N_None_iff in E. lia.
Qed.

Lemma testbit_byte (z k n : Z) :
  0 <= k -> 0 <= n ->
  Z.testbit (Z.shiftl (Z.land (Z.shiftr z k) 255) k) n
  = Z.testbit z n && (k <=? n) && (n <? k + 8).
Proof.
  intros Hk Hn.
  destruct (Z.leb_spec k n) as [L|L].
  - rewrite Z.shiftl_spec by lia. rewrite Z.land_spec.
    rewrite Z.shiftr_spec by lia. replace (n - k + k) with n by lia.
    change 255 with (Z.ones 8). rewrite Z.testbit_ones by lia.
    destruct (Z.testbit z n); simpl; [|reflexivity].
    destruct (Z.leb_spec 0 (n - k)); destruct (Z.ltb_spec (n - k) 8);
      destruct (Z.ltb_spec n (k + 8)); simpl; try reflexivity; lia.
  - rewrite Z.shiftl_spec_low by lia.
    rewrite andb_false_r. reflexivity.
Qed.

Lemma lor_intBytes (v : Z) :
  Z.lor (Z.shiftl (byteToZ (byteOfZ (Z.shiftr v 24))) 24)
    (Z.lor (Z.shiftl (byteToZ (byteOfZ (Z.shiftr v 16))) 16)
       (Z.lor (Z.shiftl (byteToZ (byteOfZ (Z.shiftr v 8))) 8)
          (byteToZ (byteOfZ v))))
  = v mod 2 ^ 32.
Proof.
  rewrite !byteToZ_byteOfZ.
  rewrite <- (Z.land_ones v 32) by lia.
  replace (Z.land v 255) with (Z.shiftl (Z.land (Z.shiftr v 0) 255) 0)
    by (rewrite Z.shiftl_0_r, Z.shiftr_0_r; reflexivity).
  apply Z.bits_inj'. intros n Hn.
  rewrite !Z.lor_spec, !testbit_byte by lia.
  rewrite Z.land_spec, Z.testbit_ones by lia.
  destruct (Z.testbit v n); simpl; [|reflexivity].
  destruct (Z.leb_spec 24 n); destruct (Z.ltb_spec n (24 + 8));
    destruct (Z.leb_spec 16 n); destruct (Z.ltb_spec n (16 + 8));
    destruct (Z.leb_spec 8 n); destruct (Z.ltb_spec n (8 + 8));
    destruct (Z.leb_spec 0 n); destruct (Z.ltb_spec n (0 + 8));
    destruct (Z.ltb_spec n 32); simpl; try reflexivity; lia.
Qed.

Lemma toInt_mod (v : Z) : toInt (v mod 2 ^ 32) = toInt v.
Proof.
  unfold toInt. f_equal.
  rewrite Zplus_mod_idemp_l. reflexivity.
Qed.

Lemma toInt_id (v : Z) : - 2 ^ 31 <= v < 2 ^ 31 -> toInt v = v.
Proof.
  intros R. unfold toInt. rewrite Z.mod_small; lia.
Qed.

Lemma toInt_range (v : Z) : - 2 ^ 31 <= toInt v < 2 ^ 31.
Proof.
  unfold toInt. pose proof (Z.mod_pos_bound (v + 2 ^ 31) (2 ^ 32)). lia.
Qed.

(** [getInt] reads back what [putInt] stored. *)
Lemma bytesInt_intBytes (v : Z) :
  bytesInt (byteOfZ (Z.shiftr v 24)) (byteOfZ (Z.shiftr v 16))
           (byteOfZ (Z.shiftr v 8)) (byteOfZ v) = toInt v.
Proof.
  unfold bytesInt. rewrite lor_intBytes. apply toInt_mod.
Qed.

Lemma lor_shiftl_add (x n y : Z) :
  0 <= n -> 0 <= y < 2 ^ n -> Z.lor (Z.shiftl x n) y = x * 2 ^ n + y.
Proof.
  intros Hn Hy.
  assert (D : Z.land (Z.shiftl x n) y = 0).
  { apply Z.bits_inj'. intros m Hm.
    rewrite Z.land_spec, Z.bits_0.
    destruct (Z.ltb_spec m n) as [L|L].
    - rewrite Z.shiftl_spec_low by lia. reflexivity.
    - rewrite <- (Z.mod_small y (2 ^ n)) by lia.
      rewrite Z.mod_pow2_bits_high by lia. apply andb_false_r. }
  rewrite <- Z.lxor_lor by exact D.
  rewrite <- Z.add_nocarry_lxor by exact D.
  rewrite Z.shiftl_mul_pow2 by lia. reflexivity.
Qed.

(** The [Int] that [getInt] reads is the signed big-endian number of the
    spec. *)
Lemma bytesInt_signedBigEndian (b0 b1 b2 b3 : byte) :
  bytesInt b0 b1 b2 b3 = Wire.signedBigEndian b0 b1 b2 b3.
Proof.
  unfold bytesInt, Wire.signedBigEndian.
  fold (byteToZ b0). fold (byteToZ b1). fold (byteToZ b2). fold (byteToZ b3).
  pose proof (byteToZ_range b0). pose proof (byteToZ_range b1).
  pose proof (byteToZ_range b2). pose proof (byteToZ_range b3).
  rewrite (lor_shiftl_add (byteToZ b2) 8) by lia.
  rewrite (lor_shiftl_add (byteToZ b1) 16) by lia.
  rewrite (lor_shiftl_add (byteToZ b0) 24) by lia.
  set (u := byteToZ b0 * 2 ^ 24
            + (byteToZ b1 * 2 ^ 16 + (byteToZ b2 * 2 ^ 8 + byteToZ b3))).
  replace (byteToZ b0 * 2 ^ 24 + byteToZ b1 * 2 ^ 16 + byteToZ b2 * 2 ^ 8
           + byteToZ b3) with u by (subst u; lia).
  assert (R : 0 <= u < 2 ^ 32) by (subst u; lia).
  unfold toInt.
  destruct (Z.ltb_spec u (2 ^ 31)) as [L|L].
  - rewrite Z.mod_small by lia. lia.
  - replace (u + 2 ^ 31) with (u - 2 ^ 31 + 1 * 2 ^ 32) by lia.
    rewrite Z.mod_add by lia. rewrite Z.mod_small by lia. lia.
Qed.

End Integers.

Section Buffers.

Lemma firstn_plus {A} (n m : nat) (l : list A) :
  firstn (n + m) l = firstn n l ++ firstn m (skipn n l).
Proof.
  revert l. induction n as [|n IH]; intros l; simpl.
  - reflexivity.
  - destruct l as [|a l]; simpl.
    + rewrite firstn_nil. reflexivity.
    + rewrite IH. reflexivity.
Qed.

Lemma skipn_plus {A} (n m : nat) (l : list A) :
  skipn (n + m) l = skipn m (skipn n l).
Proof.
  revert l. induction n as [|n IH]; intros l; simpl.
  - reflexivity.
  - destruct l as [|a l]; simpl.
    + rewrite skipn_nil. reflexivity.
    + apply IH.
Qed.

Lemma hasRemaining_true (b : ByteBuffer.t) :
  ByteBuffer.hasRemaining b = true <-> 0 < ByteBuffer.remaining b.
Proof.
  unfold ByteBuffer.hasRemaining, ByteBuffer.remaining.
  rewrite Nat.ltb_lt. lia.
Qed.

Lemma hasRemaining_false (b : ByteBuffer.t) :
  ByteBuffer.hasRemaining b = false <-> ByteBuffer.remaining b = 0.
Proof.
  unfold ByteBuffer.hasRemaining, ByteBuffer.remaining.
  rewrite Nat.ltb_ge. lia.
Qed.

(** Putting [src] into a buffer that has room for it. *)
Lemma put_fits (b : ByteBuffer.t) (src : list byte) :
  ByteBuffer.position b <= length (ByteBuffer.array b) ->
  length src <= ByteBuffer.remaining b ->
  length (ByteBuffer.array (ByteBuffer.put b src)) = length (ByteBuffer.array b)
  /\ ByteBuffer.remaining (ByteBuffer.put b src)
     = ByteBuffer.remaining b - length src
  /\ firstn (ByteBuffer.position (ByteBuffer.put b src))
       (ByteBuffer.array (ByteBuffer.put b src))
     = firstn (ByteBuffer.position b) (ByteBuffer.array b) ++ src.
Proof.
  unfold ByteBuffer.remaining, ByteBuffer.put. simpl. intros Hp H.
  assert (L : length (firstn (ByteBuffer.position b) (ByteBuffer.array b)
                        ++ src
                        ++ skipn (ByteBuffer.position b + length src)
                             (ByteBuffer.array b))
              = length (ByteBuffer.array b)).
  { rewrite !length_app, length_firstn, length_skipn. lia. }
  split; [exact L|]. split; [rewrite L; lia|].
  rewrite app_assoc.
  rewrite firstn_app.
  rewrite length_app, length_firstn.
  replace (ByteBuffer.position b + length src
           - (Nat.min (ByteBuffer.position b) (length (ByteBuffer.array b))
              + length src)) with 0 by lia.
  simpl. rewrite app_nil_r.
  apply firstn_all2. rewrite length_app, length_firstn. lia.
Qed.

End Buffers.

Section Reading.

Import FramedSocket.

Lemma receiving_same (fs : FramedSocket.t) :
  Wire.receiving fs (Wire.inbound fs) (Wire.chunks fs) = fs.
Proof.
  destruct fs as [[] ? ? ? ? ?]. reflexivity.
Qed.

Lemma receiving_receiving (fs : FramedSocket.t) b1 c1 b2 c2 :
  Wire.receiving (Wire.receiving fs b1 c1) b2 c2 = Wire.receiving fs b2 c2.
Proof.
  reflexivity.
Qed.

Lemma inbound_receiving (fs : FramedSocket.t) b c :
  Wire.inbound (Wire.receiving fs b c) = b.
Proof. reflexivity. Qed.

Lemma chunks_receiving (fs : FramedSocket.t) b c :
  Wire.chunks (Wire.receiving fs b c) = c.
Proof. reflexivity. Qed.

Lemma isConnected_receiving (fs : FramedSocket.t) b c :
  isConnected (Wire.receiving fs b c) = isConnected fs.
Proof. reflexivity. Qed.

(** One [socketChannel.read] on an open channel that has input. *)
Lemma channel_read_some (fs : FramedSocket.t) (dst : ByteBuffer.t) :
  isConnected fs = true ->
  Wire.inbound fs <> [] ->
  let offered :=
    match Wire.chunks fs with
    | [] => length (Wire.inbound fs)
    | c :: _ => c
    end in
  let n := Nat.min (ByteBuffer.remaining dst)
             (Nat.min offered (length (Wire.inbound fs))) in
  onChannel (SocketChannel.read dst) fs
  = (Success (Z.of_nat n, ByteBuffer.put dst (firstn n (Wire.inbound fs))),
     Wire.receiving fs (skipn n (Wire.inbound fs)) (tl (Wire.chunks fs))).
Proof.
  unfold isConnected, Wire.inbound, Wire.chunks, Wire.receiving, onChannel,
    ZIO.zoom, SocketChannel.read.
  intros Ho Hi. rewrite Ho. simpl.
  destruct (SocketChannel.inbound (socketChannel fs)) eqn:E;
    [congruence|]. reflexivity.
Qed.

(** The payload loop, when the bytes it waits for are all to come. *)
Lemma readMessage_fills (fuel : nat) :
  forall (fs : FramedSocket.t) (buf : ByteBuffer.t),
    isConnected fs = true ->
    ByteBuffer.position buf <= length (ByteBuffer.array buf) ->
    ByteBuffer.remaining buf <= length (Wire.inbound fs) ->
    length (Wire.chunks fs) + ByteBuffer.remaining buf < fuel ->
    exists cuts,
      length cuts <= length (Wire.chunks fs) /\
      readMessage fuel buf fs
      = (Success
           (ByteBuffer.mk
              (firstn (ByteBuffer.position buf) (ByteBuffer.array buf)
                 ++ firstn (ByteBuffer.remaining buf) (Wire.inbound fs))
              (length (ByteBuffer.array buf))),
         Wire.receiving fs
           (skipn (ByteBuffer.remaining buf) (Wire.inbound fs)) cuts).
Proof.
  induction fuel as [|fuel IH]; intros fs buf Ho Hp Hr Hf; [lia|].
  simpl. destruct (ByteBuffer.hasRemaining buf) eqn:HR.
  - apply hasRemaining_true in HR.
    assert (Hi : Wire.inbound fs <> []).
    { intros E. rewrite E in Hr. simpl in Hr. lia. }
    unfold ZIO.flatMap at 1.
    rewrite (channel_read_some fs buf Ho Hi). cbv zeta.
    set (offered := match Wire.chunks fs with
                    | [] => length (Wire.inbound fs)
                    | c :: _ => c
                    end).
    set (n := Nat.min (ByteBuffer.remaining buf)
                (Nat.min offered (length (Wire.inbound fs)))).
    simpl snd.
    assert (Hn : length (firstn n (Wire.inbound fs)) = n).
    { rewrite length_firstn. lia. }
    destruct (put_fits buf (firstn n (Wire.inbound fs))) as (PL & PR & PF).
    { exact Hp. }
    { rewrite Hn. lia. }
    rewrite Hn in PR.
    set (fs1 := Wire.receiving fs (skipn n (Wire.inbound fs))
                  (tl (Wire.chunks fs))).
    set (buf1 := ByteBuffer.put buf (firstn n (Wire.inbound fs))) in *.
    assert (M : length (tl (Wire.chunks fs)) + (ByteBuffer.remaining buf - n)
                < fuel).
    { subst n offered. destruct (Wire.chunks fs) as [|c cs]; simpl in *; lia. }
    destruct (IH fs1 buf1) as (cuts & Hc & E).
    + exact Ho.
    + unfold ByteBuffer.remaining in PR. subst buf1.
      unfold ByteBuffer.put in *. simpl in *.
      unfold ByteBuffer.remaining in *. lia.
    + rewrite PR. subst fs1. rewrite inbound_receiving, length_skipn. lia.
    + rewrite PR. exact M.
    + exists cuts. split.
      * etransitivity; [exact Hc|]. subst fs1. rewrite chunks_receiving.
        destruct (Wire.chunks fs); simpl; lia.
      * rewrite E. rewrite PF, PL, PR. subst fs1.
        rewrite receiving_receiving, inbound_receiving.
        rewrite <- skipn_plus, <- app_assoc, <- firstn_plus.
        replace (n + (ByteBuffer.remaining buf - n))
          with (ByteBuffer.remaining buf) by lia.
        reflexivity.
  - apply hasRemaining_false in HR. exists (Wire.chunks fs).
    split; [lia|]. rewrite HR. simpl. rewrite app_nil_r.
    rewrite receiving_same. unfold ZIO.succeed. f_equal. f_equal.
    destruct buf as [arr pos]. unfold ByteBuffer.remaining in HR.
    simpl in *. assert (pos = length arr) by lia. subst pos.
    rewrite firstn_all. reflexivity.
Qed.


(** The length loop, when the bytes it waits for are all to come. *)
Lemma readLength_fills (fuel : nat) :
  forall (fs : FramedSocket.t),
    let buf := incomingLengthBuffer fs in
    isConnected fs = true ->
    ByteBuffer.position buf <= length (ByteBuffer.array buf) ->
    ByteBuffer.remaining buf <= length (Wire.inbound fs) ->
    length (Wire.chunks fs) + ByteBuffer.remaining buf < fuel ->
    exists cuts,
      length cuts <= length (Wire.chunks fs) /\
      readLength fuel fs
      = (Success true,
         set_incomingLengthBuffer
           (ByteBuffer.mk
              (firstn (ByteBuffer.position buf) (ByteBuffer.array buf)
                 ++ firstn (ByteBuffer.remaining buf) (Wire.inbound fs))
              (length (ByteBuffer.array buf)))
           (Wire.receiving fs
              (skipn (ByteBuffer.remaining buf) (Wire.inbound fs)) cuts)).
Proof.
  induction fuel as [|fuel IH]; intros fs buf Ho Hp Hr Hf; [lia|].
  simpl. unfold ZIO.flatMap at 1. unfold ZIO.get at 1. fold buf.
  destruct (ByteBuffer.hasRemaining buf) eqn:HR.
  - apply hasRemaining_true in HR.
    assert (Hi : Wire.inbound fs <> []).
    { intros E. rewrite E in Hr. simpl in Hr. lia. }
    unfold ZIO.flatMap at 1.
    rewrite (channel_read_some fs buf Ho Hi). cbv zeta.
    set (offered := match Wire.chunks fs with
                    | [] => length (Wire.inbound fs)
                    | c :: _ => c
                    end).
    set (n := Nat.min (ByteBuffer.remaining buf)
                (Nat.min offered (length (Wire.inbound fs)))).
    simpl snd. simpl fst.
    assert (Hn : length (firstn n (Wire.inbound fs)) = n).
    { rewrite length_firstn. lia. }
    destruct (put_fits buf (firstn n (Wire.inbound fs))) as (PL & PR & PF).
    { exact Hp. }
    { rewrite Hn. lia. }
    rewrite Hn in PR.
    set (buf1 := ByteBuffer.put buf (firstn n (Wire.inbound fs))) in *.
    set (fs1 := set_incomingLengthBuffer buf1
                  (Wire.receiving fs (skipn n (Wire.inbound fs))
                     (tl (Wire.chunks fs)))).
    unfold ZIO.flatMap at 1. unfold ZIO.modify at 1. fold fs1.
    replace (Z.of_nat n =? -1)%Z with false by (symmetry; apply Z.eqb_neq; lia).
    assert (M : length (tl (Wire.chunks fs)) + (ByteBuffer.remaining buf - n)
                < fuel).
    { subst n offered. destruct (Wire.chunks fs) as [|c cs]; simpl in *; lia. }
    destruct (IH fs1) as (cuts & Hc & E).
    + exact Ho.
    + change (incomingLengthBuffer fs1) with buf1.
      unfold ByteBuffer.remaining in PR. subst buf1.
      unfold ByteBuffer.put in *. simpl in *.
      unfold ByteBuffer.remaining in *. lia.
    + change (incomingLengthBuffer fs1) with buf1. rewrite PR.
      change (Wire.inbound fs1) with (skipn n (Wire.inbound fs)).
      rewrite length_skipn. lia.
    + change (incomingLengthBuffer fs1) with buf1. rewrite PR.
      change (Wire.chunks fs1) with (tl (Wire.chunks fs)). exact M.
    + exists cuts. split.
      * etransitivity; [exact Hc|].
        change (Wire.chunks fs1) with (tl (Wire.chunks fs)).
        destruct (Wire.chunks fs); simpl; lia.
      * rewrite E. change (incomingLengthBuffer fs1) with buf1.
        rewrite PF, PL, PR.
        change (Wire.inbound fs1) with (skipn n (Wire.inbound fs)).
        rewrite <- skipn_plus, <- app_assoc, <- firstn_plus.
        replace (n + (ByteBuffer.remaining buf - n))
          with (ByteBuffer.remaining buf) by lia.
        reflexivity.
  - apply hasRemaining_false in HR. exists (Wire.chunks fs).
    split; [lia|]. rewrite HR. simpl. rewrite app_nil_r.
    rewrite receiving_same. unfold ZIO.succeed. f_equal.
    assert (B : ByteBuffer.mk
                  (firstn (ByteBuffer.position buf) (ByteBuffer.array buf))
                  (length (ByteBuffer.array buf)) = buf).
    { destruct buf as [arr pos]. unfold ByteBuffer.remaining in HR.
      simpl in *. assert (pos = length arr) by lia. subst pos.
      rewrite firstn_all. reflexivity. }
    rewrite B. subst buf. destruct fs. reflexivity.
Qed.

(** The length loop, when the stream ends before the buffer is full: the
    read that returns -1 leaves the loop through [return None]. *)
Lemma readLength_eof (fuel : nat) :
  forall (fs : FramedSocket.t),
    let buf := incomingLengthBuffer fs in
    isConnected fs = true ->
    SocketChannel.atEnd (socketChannel fs) = SocketChannel.EndOfStream ->
    ByteBuffer.position buf <= length (ByteBuffer.array buf) ->
    length (Wire.inbound fs) < ByteBuffer.remaining buf ->
    length (Wire.chunks fs) + length (Wire.inbound fs) < fuel ->
    exists buf' cuts,
      readLength fuel fs
      = (Success false,
         set_incomingLengthBuffer buf' (Wire.receiving fs [] cuts)).
Proof.
  induction fuel as [|fuel IH]; intros fs buf Ho He Hp Hr Hf; [lia|].
  simpl. unfold ZIO.flatMap at 1. unfold ZIO.get at 1. fold buf.
  assert (HR : ByteBuffer.hasRemaining buf = true)
    by (apply hasRemaining_true; lia).
  rewrite HR.
  destruct (Wire.inbound fs) as [|b0 bs] eqn:Ei.
  - exists buf, (Wire.chunks fs).
    unfold ZIO.flatMap, onChannel, ZIO.zoom, SocketChannel.read.
    unfold isConnected in Ho. rewrite Ho. simpl.
    unfold Wire.inbound in Ei. rewrite Ei, He. simpl.
    unfold ZIO.succeed. f_equal.
    unfold Wire.receiving, Wire.chunks. rewrite <- Ei.
    subst buf. destruct fs as [[] ? ? ? ? ?]. reflexivity.
  - assert (Hi : Wire.inbound fs <> []) by (rewrite Ei; discriminate).
    unfold ZIO.flatMap at 1.
    rewrite (channel_read_some fs buf Ho Hi). cbv zeta. rewrite Ei.
    rewrite ?Ei in *.
    set (offered := match Wire.chunks fs with
                    | [] => length (b0 :: bs)
                    | c :: _ => c
                    end).
    set (n := Nat.min (ByteBuffer.remaining buf)
                (Nat.min offered (length (b0 :: bs)))).
    simpl snd. simpl fst.
    assert (Hn : length (firstn n (b0 :: bs)) = n).
    { rewrite length_firstn. lia. }
    destruct (put_fits buf (firstn n (b0 :: bs))) as (PL & PR & PF).
    { exact Hp. }
    { rewrite Hn. lia. }
    rewrite Hn in PR.
    set (buf1 := ByteBuffer.put buf (firstn n (b0 :: bs))) in *.
    set (fs1 := set_incomingLengthBuffer buf1
                  (Wire.receiving fs (skipn n (b0 :: bs))
                     (tl (Wire.chunks fs)))).
    unfold ZIO.flatMap at 1. unfold ZIO.modify at 1. fold fs1.
    replace (Z.of_nat n =? -1)%Z with false by (symmetry; apply Z.eqb_neq; lia).
    destruct (IH fs1) as (buf' & cuts & E).
    + exact Ho.
    + exact He.
    + change (incomingLengthBuffer fs1) with buf1.
      unfold ByteBuffer.remaining in PR. subst buf1.
      unfold ByteBuffer.put in *. simpl in *.
      unfold ByteBuffer.remaining in *. lia.
    + change (incomingLengthBuffer fs1) with buf1. rewrite PR.
      change (Wire.inbound fs1) with (skipn n (b0 :: bs)).
      rewrite length_skipn. lia.
    + change (Wire.inbound fs1) with (skipn n (b0 :: bs)).
      change (Wire.chunks fs1) with (tl (Wire.chunks fs)).
      rewrite length_skipn.
      subst n offered.
      destruct (Wire.chunks fs) as [|c cs]; cbn [length tl] in *; lia.
    + exists buf', cuts. rewrite E. reflexivity.
Qed.

(** The payload loop, when the stream ends before the buffer is full: the
    -1 that the read returns is not looked at, and the loop never ends. *)
Lemma readMessage_eof_loops (fuel : nat) :
  forall (fs : FramedSocket.t) (buf : ByteBuffer.t),
    isConnected fs = true ->
    SocketChannel.atEnd (socketChannel fs) = SocketChannel.EndOfStream ->
    ByteBuffer.position buf <= length (ByteBuffer.array buf) ->
    length (Wire.inbound fs) < ByteBuffer.remaining buf ->
    fst (readMessage fuel buf fs) = NoReturn.
Proof.
  induction fuel as [|fuel IH]; intros fs buf Ho He Hp Hr; [reflexivity|].
  simpl.
  assert (HR : ByteBuffer.hasRemaining buf = true)
    by (apply hasRemaining_true; lia).
  rewrite HR.
  destruct (Wire.inbound fs) as [|b0 bs] eqn:Ei.
  - unfold ZIO.flatMap, onChannel, ZIO.zoom, SocketChannel.read.
    unfold isConnected in Ho. rewrite Ho. simpl.
    unfold Wire.inbound in Ei. rewrite Ei, He. simpl.
    apply IH.
    + destruct fs as [[] ? ? ? ? ?]; exact Ho.
    + destruct fs as [[] ? ? ? ? ?]; exact He.
    + exact Hp.
    + destruct fs as [[] ? ? ? ? ?]. unfold Wire.inbound in *. simpl in *.
      rewrite Ei. exact Hr.
  - assert (Hi : Wire.inbound fs <> []) by (rewrite Ei; discriminate).
    unfold ZIO.flatMap at 1.
    rewrite (channel_read_some fs buf Ho Hi). cbv zeta. rewrite Ei.
    rewrite ?Ei in *.
    set (offered := match Wire.chunks fs with
                    | [] => length (b0 :: bs)
                    | c :: _ => c
                    end).
    set (n := Nat.min (ByteBuffer.remaining buf)
                (Nat.min offered (length (b0 :: bs)))).
    simpl snd.
    assert (Hn : length (firstn n (b0 :: bs)) = n).
    { rewrite length_firstn. lia. }
    destruct (put_fits buf (firstn n (b0 :: bs))) as (PL & PR & PF).
    { exact Hp. }
    { rewrite Hn. lia. }
    rewrite Hn in PR.
    apply IH.
    + exact Ho.
    + exact He.
    + unfold ByteBuffer.remaining in PR.
      unfold ByteBuffer.put in *. simpl in *.
      unfold ByteBuffer.remaining in *. lia.
    + rewrite PR, inbound_receiving, length_skipn. lia.
Qed.

End Reading.

Section Frames.

Import FramedSocket.

Lemma allocated_length_buffers (fs : FramedSocket.t) :
  Wire.allocated fs = true ->
  length (ByteBuffer.array (incomingLengthBuffer fs)) = 4
  /\ length (ByteBuffer.array (outgoingLengthBuffer fs)) = 4.
Proof.
  unfold Wire.allocated. rewrite andb_true_iff, !Nat.eqb_eq. tauto.
Qed.

Lemma readBuffer_frame (fuel : nat) (fs : FramedSocket.t)
  (b0 b1 b2 b3 : byte) (rest : list byte) :
  let len := bytesInt b0 b1 b2 b3 in
  isConnected fs = true ->
  Wire.allocated fs = true ->
  Wire.inbound fs = b0 :: b1 :: b2 :: b3 :: rest ->
  ((0 < len)%Z -> Z.to_nat len <= length rest) ->
  length (Wire.chunks fs) + 4 + Z.to_nat len < fuel ->
  exists cuts,
    length cuts <= length (Wire.chunks fs) /\
    readBuffer fuel fs
    = (Success (Wire.frameResult len rest),
       set_incomingLengthBuffer (ByteBuffer.mk [b0; b1; b2; b3] 4)
         (Wire.receiving fs (Wire.frameRest len rest) cuts)).
Proof.
  intros len Ho Ha Hi Hlen Hf.
  destruct (allocated_length_buffers fs Ha) as [Hin _].
  unfold readBuffer.
  unfold ZIO.flatMap at 1. unfold ZIO.modify at 1.
  set (fs0 := set_incomingLengthBuffer
                (ByteBuffer.rewind (incomingLengthBuffer fs)) fs).
  destruct (readLength_fills fuel fs0) as (cuts1 & Hc1 & E1).
  - exact Ho.
  - simpl. lia.
  - change (Wire.inbound fs0) with (Wire.inbound fs). rewrite Hi.
    unfold ByteBuffer.remaining. simpl. lia.
  - change (Wire.chunks fs0) with (Wire.chunks fs).
    unfold ByteBuffer.remaining. simpl. lia.
  - change (Wire.chunks fs0) with (Wire.chunks fs) in Hc1.
    unfold ZIO.flatMap at 1. rewrite E1. clear E1.
    change (Wire.inbound fs0) with (Wire.inbound fs).
    change (ByteBuffer.remaining (incomingLengthBuffer fs0))
      with (length (ByteBuffer.array (incomingLengthBuffer fs)) - 0).
    change (ByteBuffer.position (incomingLengthBuffer fs0)) with 0.
    change (ByteBuffer.array (incomingLengthBuffer fs0))
      with (ByteBuffer.array (incomingLengthBuffer fs)).
    rewrite Hin, Hi. change (4 - 0) with 4. cbn [firstn skipn app negb].
    unfold ZIO.flatMap at 1. unfold ZIO.get at 1.
    cbn [incomingLengthBuffer set_incomingLengthBuffer ByteBuffer.getInt0
         ByteBuffer.array]. fold len.
    unfold Wire.frameResult, Wire.frameRest.
    destruct (Z.ltb_spec len 0) as [Lneg|Lnn].
    + exists cuts1. split; [exact Hc1|].
      replace (0 <? len)%Z with false by (symmetry; apply Z.ltb_ge; lia).
      reflexivity.
    + destruct (Z.eqb_spec len 0) as [Lz|Lnz].
      * exists cuts1. split; [exact Hc1|]. rewrite Lz. reflexivity.
      * replace (0 <? len)%Z with true by (symmetry; apply Z.ltb_lt; lia).
        set (fs1 := set_incomingLengthBuffer (ByteBuffer.mk [b0; b1; b2; b3] 4)
                      (Wire.receiving fs0 rest cuts1)).
        destruct (readMessage_fills fuel fs1
                    (ByteBuffer.allocate (Z.to_nat len)))
          as (cuts2 & Hc2 & E2).
        -- exact Ho.
        -- simpl. lia.
        -- unfold ByteBuffer.remaining, ByteBuffer.allocate. simpl.
           rewrite repeat_length, Nat.sub_0_r.
           change (Wire.inbound fs1) with rest. apply Hlen. lia.
        -- unfold ByteBuffer.remaining, ByteBuffer.allocate. simpl.
           rewrite repeat_length, Nat.sub_0_r.
           change (Wire.chunks fs1) with cuts1. lia.
        -- exists cuts2. split.
           ++ change (Wire.chunks fs1) with cuts1 in Hc2. lia.
           ++ unfold ZIO.flatMap at 1. rewrite E2.
              unfold ByteBuffer.remaining, ByteBuffer.allocate. simpl.
              rewrite repeat_length, Nat.sub_0_r.
              reflexivity.
Qed.

(** [read] is [readBuffer] as long as [readBuffer] does not throw. *)
Lemma read_of_readBuffer (fuel : nat) (fs fs' : FramedSocket.t) r :
  readBuffer fuel fs = (Success r, fs') -> read fuel fs = (Success r, fs').
Proof.
  intros E. unfold read, ZIO.tapError, ZIO.catchSome. rewrite E. reflexivity.
Qed.

Lemma read_noReturn (fuel : nat) (fs : FramedSocket.t) :
  fst (readBuffer fuel fs) = NoReturn -> fst (read fuel fs) = NoReturn.
Proof.
  intros E. unfold read, ZIO.tapError, ZIO.catchSome.
  destruct (readBuffer fuel fs) as [[r|e|] fs']; simpl in E; try discriminate.
  reflexivity.
Qed.

End Frames.

Section Writing.

Import FramedSocket.

Lemma writable_parts (fs : FramedSocket.t) :
  Wire.writable fs = true ->
  SocketChannel.isOpen (socketChannel fs) = true
  /\ forallb Wire.noFault (SocketChannel.writeFaults (socketChannel fs)) = true
  /\ exists permits, writeLock fs = S permits.
Proof.
  unfold Wire.writable. rewrite !andb_true_iff, Nat.ltb_lt.
  intros [[Ho Hf] Hl]. repeat split; try assumption.
  destruct (writeLock fs) as [|k]; [lia|]. exists k. reflexivity.
Qed.

(** One [socketChannel.write] on a channel that can be written. *)
Lemma channel_write_ok (ch : SocketChannel.t) (src : ByteBuffer.t) :
  SocketChannel.isOpen ch = true ->
  forallb Wire.noFault (SocketChannel.writeFaults ch) = true ->
  SocketChannel.write src ch
  = (Success (Z.of_nat (ByteBuffer.remaining src), ByteBuffer.drain src),
     SocketChannel.mk true (SocketChannel.inbound ch) (SocketChannel.chunks ch)
       (SocketChannel.atEnd ch)
       (SocketChannel.outbound ch ++ ByteBuffer.content src)
       (tl (SocketChannel.writeFaults ch)))
  /\ forallb Wire.noFault (tl (SocketChannel.writeFaults ch)) = true.
Proof.
  intros Ho Hf. unfold SocketChannel.write. rewrite Ho. simpl.
  destruct (SocketChannel.writeFaults ch) as [|[|e|n] faults]; simpl in *;
    try discriminate; split; reflexivity || assumption.
Qed.

Lemma hasRemaining_drain (b : ByteBuffer.t) :
  ByteBuffer.hasRemaining (ByteBuffer.drain b) = false.
Proof.
  unfold ByteBuffer.hasRemaining, ByteBuffer.drain. simpl.
  apply Nat.ltb_irrefl.
Qed.

Lemma writeSize_ok (size : Z) (fs : FramedSocket.t) :
  SocketChannel.isOpen (socketChannel fs) = true ->
  forallb Wire.noFault (SocketChannel.writeFaults (socketChannel fs)) = true ->
  Wire.allocated fs = true ->
  exists fs',
    writeSize size fs = (Success tt, fs')
    /\ Wire.outbound fs' = Wire.outbound fs ++ intBytes size
    /\ SocketChannel.isOpen (socketChannel fs') = true
    /\ forallb Wire.noFault (SocketChannel.writeFaults (socketChannel fs'))
       = true
    /\ Wire.allocated fs' = true
    /\ writeLock fs' = writeLock fs
    /\ keepaliveFiber fs' = keepaliveFiber fs
    /\ closed fs' = closed fs.
Proof.
  intros Ho Hf Ha.
  destruct (allocated_length_buffers fs Ha) as [Hin Hout].
  destruct fs as [ch cl inl [oarr opos] lock ka].
  cbn [socketChannel outgoingLengthBuffer incomingLengthBuffer
       ByteBuffer.array] in *.
  destruct (channel_write_ok ch
              (ByteBuffer.putInt0 (ByteBuffer.rewind (ByteBuffer.mk oarr opos))
                 size) Ho Hf)
    as [E Hf'].
  unfold writeSize, ZIO.flatMap, ZIO.modify, ZIO.get, onChannel, ZIO.zoom.
  cbn [socketChannel set_outgoingLengthBuffer outgoingLengthBuffer].
  rewrite E. eexists. split; [reflexivity|].
  assert (S4 : skipn 4 oarr = []).
  { apply skipn_all2. lia. }
  unfold Wire.outbound, Wire.allocated, ByteBuffer.content,
    ByteBuffer.putInt0, ByteBuffer.rewind, ByteBuffer.drain.
  cbn -[intBytes Nat.eqb skipn].
  rewrite S4, app_nil_r. cbn [skipn].
  repeat split; try assumption; try reflexivity.
  rewrite Hin. reflexivity.
Qed.

Lemma write_ok (fuel : nat) (msg : list byte) (fs : FramedSocket.t) :
  Wire.writable fs = true ->
  Wire.allocated fs = true ->
  2 <= fuel ->
  exists fs',
    write fuel msg fs = (Success tt, fs')
    /\ Wire.outbound fs'
       = Wire.outbound fs ++ intBytes (toInt (Z.of_nat (length msg))) ++ msg
    /\ Wire.writable fs' = true
    /\ Wire.allocated fs' = true
    /\ keepaliveFiber fs' = keepaliveFiber fs
    /\ closed fs' = closed fs.
Proof.
  intros Hw Ha Hfuel.
  destruct (writable_parts fs Hw) as (Ho & Hf & permits & Hl).
  destruct fuel as [|[|fuel]]; try lia.
  set (fs0 := set_writeLock permits fs).
  destruct (writeSize_ok (toInt (Z.of_nat (length msg))) fs0)
    as (fs1 & E1 & O1 & Ho1 & Hf1 & Ha1 & L1 & K1 & C1); try assumption.
  unfold write, ZIO.tapError, ZIO.bracket, writeLock_acquire, ZIO.zoom,
    Semaphore.acquire.
  rewrite Hl. fold fs0. unfold ZIO.flatMap at 1. rewrite E1.
  cbn [writeRemaining].
  destruct (ByteBuffer.hasRemaining (ByteBuffer.wrap msg)) eqn:HR.
  - destruct (channel_write_ok (socketChannel fs1) (ByteBuffer.wrap msg)
                Ho1 Hf1) as [E2 Hf2].
    unfold ZIO.flatMap at 1, onChannel at 1, ZIO.zoom at 1. rewrite E2.
    cbn [snd]. rewrite hasRemaining_drain. cbn [ZIO.unit ZIO.succeed].
    eexists. split; [reflexivity|].
    unfold Wire.outbound, Wire.writable, Wire.allocated in *.
    cbn -[intBytes Nat.eqb Nat.ltb] in *.
    rewrite O1, Hf2, Ha1, L1, <- app_assoc.
    repeat split; try assumption; reflexivity.
  - apply hasRemaining_false in HR.
    unfold ByteBuffer.remaining, ByteBuffer.wrap in HR. simpl in HR.
    assert (msg = []) by (destruct msg; simpl in HR; [reflexivity|lia]).
    subst msg. cbn [ZIO.unit ZIO.succeed].
    eexists. split; [reflexivity|].
    unfold Wire.outbound, Wire.writable, Wire.allocated in *.
    cbn -[intBytes Nat.eqb Nat.ltb] in *.
    rewrite O1, Hf1, Ha1, Ho1, L1.
    repeat split; try assumption; reflexivity.
Qed.

End Writing.

Section Fuel.

Import FramedSocket.

(** One turn of the length loop. *)
Lemma readLength_S (fuel : nat) (fs : FramedSocket.t) :
  readLength (S fuel) fs
  = if ByteBuffer.hasRemaining (incomingLengthBuffer fs) then
      match onChannel (SocketChannel.read (incomingLengthBuffer fs)) fs with
      | (Success x, fs1) =>
          if (fst x =? -1)%Z
          then (Success false, set_incomingLengthBuffer (snd x) fs1)
          else readLength fuel (set_incomingLengthBuffer (snd x) fs1)
      | (Failure e, fs1) => (Failure e, fs1)
      | (NoReturn, fs1) => (NoReturn, fs1)
      end
    else (Success true, fs).
Proof.
  cbn [readLength]. unfold ZIO.flatMap at 1. unfold ZIO.get at 1.
  destruct (ByteBuffer.hasRemaining (incomingLengthBuffer fs));
    [|reflexivity].
  unfold ZIO.flatMap at 1.
  destruct (onChannel (SocketChannel.read (incomingLengthBuffer fs)) fs)
    as [[x|e|] fs1]; try reflexivity.
  unfold ZIO.flatMap at 1. unfold ZIO.modify at 1.
  destruct (fst x =? -1)%Z; reflexivity.
Qed.

(** More fuel does not change the outcome of a length loop that ended. *)
Lemma readLength_more_fuel (fuel : nat) :
  forall (fs fs' : FramedSocket.t) (r : Exit bool),
    readLength fuel fs = (r, fs') -> r <> NoReturn ->
    readLength (S fuel) fs = (r, fs').
Proof.
  induction fuel as [|fuel IH]; intros fs fs' r E Hr.
  - simpl in E. unfold ZIO.never in E. congruence.
  - rewrite readLength_S in E. rewrite readLength_S.
    destruct (ByteBuffer.hasRemaining (incomingLengthBuffer fs));
      [|exact E].
    destruct (onChannel (SocketChannel.read (incomingLengthBuffer fs)) fs)
      as [[x|e|] fs1]; try exact E.
    destruct (fst x =? -1)%Z; [exact E|].
    apply IH; assumption.
Qed.

Lemma readLength_fuel_le (fuel fuel' : nat) (fs fs' : FramedSocket.t)
  (r : Exit bool) :
  fuel <= fuel' ->
  readLength fuel fs = (r, fs') -> r <> NoReturn ->
  readLength fuel' fs = (r, fs').
Proof.
  induction 1 as [|m Hle IH]; intros E Hr; [exact E|].
  apply readLength_more_fuel; auto.
Qed.

(** With whatever fuel, a length loop whose bytes are all to come either
    has not ended yet or has filled the buffer. *)
Lemma readLength_any_fuel (fuel : nat) (fs : FramedSocket.t) :
  let buf := incomingLengthBuffer fs in
  isConnected fs = true ->
  ByteBuffer.position buf <= length (ByteBuffer.array buf) ->
  ByteBuffer.remaining buf <= length (Wire.inbound fs) ->
  fst (readLength fuel fs) = NoReturn
  \/ exists cuts,
       readLength fuel fs
       = (Success true,
          set_incomingLengthBuffer
            (ByteBuffer.mk
               (firstn (ByteBuffer.position buf) (ByteBuffer.array buf)
                  ++ firstn (ByteBuffer.remaining buf) (Wire.inbound fs))
               (length (ByteBuffer.array buf)))
            (Wire.receiving fs
               (skipn (ByteBuffer.remaining buf) (Wire.inbound fs)) cuts)).
Proof.
  intros buf Ho Hp Hr.
  set (enough := S (length (Wire.chunks fs) + ByteBuffer.remaining buf)).
  destruct (readLength_fills (Nat.max fuel enough) fs Ho Hp Hr)
    as (cuts & _ & E); [subst enough; fold buf; lia|].
  destruct (readLength fuel fs) as [r fs'] eqn:Ef.
  destruct r as [b|e|]; [| |left; reflexivity]; right; exists cuts.
  - assert (Ef' : readLength (Nat.max fuel enough) fs = (Success b, fs')).
    { apply (readLength_fuel_le fuel); [lia|exact Ef|discriminate]. }
    rewrite E in Ef'. symmetry. exact Ef'.
  - assert (Ef' : readLength (Nat.max fuel enough) fs = (Failure e, fs')).
    { apply (readLength_fuel_le fuel); [lia|exact Ef|discriminate]. }
    rewrite E in Ef'. discriminate Ef'.
Qed.

End Fuel.

Section FramingClaims.

Import FramedSocket.

Lemma skipn_length_app {A} (l k : list A) : skipn (length l) (l ++ k) = k.
Proof.
  induction l as [|a l IH]; simpl; auto.
Qed.

(** A frame whose payload is cut short by the end of the stream: [read]
    never returns, whatever the fuel. *)
Lemma read_truncated_payload_loops (fs : FramedSocket.t)
  (b0 b1 b2 b3 : byte) (rest : list byte) :
  isConnected fs = true ->
  Wire.allocated fs = true ->
  SocketChannel.atEnd (socketChannel fs) = SocketChannel.EndOfStream ->
  Wire.inbound fs = b0 :: b1 :: b2 :: b3 :: rest ->
  (Z.of_nat (length rest) < bytesInt b0 b1 b2 b3)%Z ->
  forall fuel, fst (read fuel fs) = NoReturn.
Proof.
  intros Ho Ha He Hi Hlen fuel. apply read_noReturn.
  destruct (allocated_length_buffers fs Ha) as [Hin _].
  unfold readBuffer.
  unfold ZIO.flatMap at 1. unfold ZIO.modify at 1.
  set (fs0 := set_incomingLengthBuffer
                (ByteBuffer.rewind (incomingLengthBuffer fs)) fs).
  unfold ZIO.flatMap at 1.
  destruct (readLength_any_fuel fuel fs0) as [N|(cuts & E)].
  - exact Ho.
  - simpl. lia.
  - change (Wire.inbound fs0) with (Wire.inbound fs). rewrite Hi.
    unfold ByteBuffer.remaining. simpl. lia.
  - destruct (readLength fuel fs0) as [[b|e|] fs1]; simpl in N;
      try discriminate. reflexivity.
  - rewrite E. clear E.
    change (Wire.inbound fs0) with (Wire.inbound fs).
    change (ByteBuffer.remaining (incomingLengthBuffer fs0))
      with (length (ByteBuffer.array (incomingLengthBuffer fs)) - 0).
    change (ByteBuffer.position (incomingLengthBuffer fs0)) with 0.
    change (ByteBuffer.array (incomingLengthBuffer fs0))
      with (ByteBuffer.array (incomingLengthBuffer fs)).
    rewrite Hin, Hi. change (4 - 0) with 4. cbn [firstn skipn app negb].
    unfold ZIO.flatMap at 1. unfold ZIO.get at 1.
    cbn [incomingLengthBuffer set_incomingLengthBuffer ByteBuffer.getInt0
         ByteBuffer.array].
    set (len := bytesInt b0 b1 b2 b3) in *.
    replace (len <? 0)%Z with false by (symmetry; apply Z.ltb_ge; lia).
    replace (len =? 0)%Z with false by (symmetry; apply Z.eqb_neq; lia).
    unfold ZIO.flatMap at 1.
    set (fs1 := set_incomingLengthBuffer _ _).
    assert (F : fst (readMessage fuel (ByteBuffer.allocate (Z.to_nat len)) fs1)
                = NoReturn).
    { apply readMessage_eof_loops; try assumption.
      - simpl. lia.
      - unfold ByteBuffer.remaining, ByteBuffer.allocate. simpl.
        rewrite repeat_length. change (Wire.inbound fs1) with rest. lia. }
    destruct (readMessage fuel (ByteBuffer.allocate (Z.to_nat len)) fs1)
      as [[m|e|] fs2]; simpl in F; try discriminate F. reflexivity.
Qed.

(** The end of the stream inside the length: [read] returns [None]. *)
Lemma read_truncated_length (fuel : nat) (fs : FramedSocket.t) :
  isConnected fs = true ->
  Wire.allocated fs = true ->
  SocketChannel.atEnd (socketChannel fs) = SocketChannel.EndOfStream ->
  length (Wire.inbound fs) < 4 ->
  length (Wire.chunks fs) + length (Wire.inbound fs) < fuel ->
  exists buf cuts,
    read fuel fs
    = (Success None, set_incomingLengthBuffer buf (Wire.receiving fs [] cuts)).
Proof.
  intros Ho Ha He Hi Hf.
  destruct (allocated_length_buffers fs Ha) as [Hin _].
  set (fs0 := set_incomingLengthBuffer
                (ByteBuffer.rewind (incomingLengthBuffer fs)) fs).
  destruct (readLength_eof fuel fs0) as (buf & cuts & E); try assumption.
  - simpl. lia.
  - unfold ByteBuffer.remaining. simpl.
    change (Wire.inbound fs0) with (Wire.inbound fs). lia.
  - exists buf, cuts. apply read_of_readBuffer.
    unfold readBuffer.
    unfold ZIO.flatMap at 1. unfold ZIO.modify at 1. fold fs0.
    unfold ZIO.flatMap at 1. rewrite E. reflexivity.
Qed.

End FramingClaims.

Section FramedSocketClaims.

Import FramedSocket.

(** C2.  [read()] decodes the frame at the head of the input by its
    length [len], the signed 32-bit big-endian number that the first four
    bytes spell: it returns [None] when [len < 0], [Some(None)] when
    [len == 0], and [Some(Some(buf))] with the [len] bytes that follow the
    length when [len > 0]; the length and the payload are read in full
    however the operating system cuts the bytes into reads
    ([Wire.chunks fs] is arbitrary), and the input after the frame is left
    unread. *)
Theorem read_decodes_frame_by_length (fuel : nat) (fs : FramedSocket.t)
  (b0 b1 b2 b3 : byte) (rest : list byte) :
  let len := Wire.signedBigEndian b0 b1 b2 b3 in
  isConnected fs = true ->
  Wire.allocated fs = true ->
  Wire.inbound fs = b0 :: b1 :: b2 :: b3 :: rest ->
  ((0 < len)%Z -> Z.to_nat len <= length rest) ->
  length (Wire.chunks fs) + 4 + Z.to_nat len < fuel ->
  exists fs',
    snd (read fuel fs) = fs' /\
    ((len < 0)%Z ->
       fst (read fuel fs) = Success None /\ Wire.inbound fs' = rest) /\
    (len = 0%Z ->
       fst (read fuel fs) = Success (Some None) /\ Wire.inbound fs' = rest) /\
    ((0 < len)%Z ->
       exists buf,
         fst (read fuel fs) = Success (Some (Some buf))
         /\ BitVector_view buf = firstn (Z.to_nat len) rest
         /\ Z.of_nat (length (BitVector_view buf)) = len
         /\ Wire.inbound fs' = skipn (Z.to_nat len) rest).
Proof.
  intros len Ho Ha Hi Hlen Hf.
  assert (Eb : bytesInt b0 b1 b2 b3 = len)
    by apply bytesInt_signedBigEndian.
  destruct (readBuffer_frame fuel fs b0 b1 b2 b3 rest Ho Ha Hi)
    as (cuts & _ & E); [rewrite Eb; exact Hlen|rewrite Eb; exact Hf|].
  apply read_of_readBuffer in E. rewrite Eb in E. rewrite E.
  eexists. split; [reflexivity|].
  unfold Wire.frameResult, Wire.frameRest. cbn [fst snd].
  split; [|split].
  - intros L. replace (len <? 0)%Z with true by (symmetry; apply Z.ltb_lt; lia).
    replace (0 <? len)%Z with false by (symmetry; apply Z.ltb_ge; lia).
    split; reflexivity.
  - intros L. rewrite L. split; reflexivity.
  - intros L. replace (len <? 0)%Z with false by (symmetry; apply Z.ltb_ge; lia).
    replace (len =? 0)%Z with false by (symmetry; apply Z.eqb_neq; lia).
    replace (0 <? len)%Z with true by (symmetry; apply Z.ltb_lt; lia).
    eexists. split; [reflexivity|].
    unfold BitVector_view, ByteBuffer.content, ByteBuffer.wrap.
    cbn [ByteBuffer.position ByteBuffer.array skipn].
    repeat split. rewrite length_firstn.
    specialize (Hlen L). lia.
Qed.

Lemma read_decodes_frame_by_length_witness :
  (fst (read 10 Examples.markerAndMore) = Success None
   /\ Wire.inbound (snd (read 10 Examples.markerAndMore)) = [x44])
  /\ (fst (read 10 Examples.keepaliveAndMore) = Success (Some None)
      /\ Wire.inbound (snd (read 10 Examples.keepaliveAndMore)) = [x45])
  /\ (exists buf,
        fst (read 10 Examples.twoBytesAndMore) = Success (Some (Some buf))
        /\ BitVector_view buf = [x41; x42]
        /\ Z.of_nat (length (BitVector_view buf)) = 2%Z
        /\ Wire.inbound (snd (read 10 Examples.twoBytesAndMore)) = [x43]).
Proof.
  split; [|split].
  - destruct (read_decodes_frame_by_length 10 Examples.markerAndMore
                xff xff xff xfe [x44] eq_refl eq_refl eq_refl)
      as (fs' & E & Negative & _ & _).
    + intros L. vm_compute in L. discriminate L.
    + vm_compute. lia.
    + rewrite E. apply Negative. vm_compute. reflexivity.
  - destruct (read_decodes_frame_by_length 10 Examples.keepaliveAndMore
                x00 x00 x00 x00 [x45] eq_refl eq_refl eq_refl)
      as (fs' & E & _ & Zero & _).
    + intros L. vm_compute in L. discriminate L.
    + vm_compute. lia.
    + rewrite E. apply Zero. reflexivity.
  - destruct (read_decodes_frame_by_length 10 Examples.twoBytesAndMore
                x00 x00 x00 x02 [x41; x42; x43] eq_refl eq_refl eq_refl)
      as (fs' & E & _ & _ & Positive).
    + intros _. vm_compute. lia.
    + vm_compute. lia.
    + rewrite E. apply Positive. vm_compute. reflexivity.
Defined.

(** The frame on the wire after a write of [p], read back. *)
Lemma frame_read_back (fuel : nat) (p rest : list byte)
  (receiver : FramedSocket.t) :
  (Z.of_nat (length p) <= 2 ^ 31 - 1)%Z ->
  isConnected receiver = true ->
  Wire.allocated receiver = true ->
  Wire.inbound receiver
  = (intBytes (toInt (Z.of_nat (length p))) ++ p) ++ rest ->
  length (Wire.chunks receiver) + 4 + length p < fuel ->
  exists receiver',
    read fuel receiver
    = (Success (if length p =? 0 then Some None
                else Some (Some (ByteBuffer.wrap p))), receiver')
    /\ Wire.inbound receiver' = rest
    /\ isConnected receiver' = true
    /\ Wire.allocated receiver' = true
    /\ length (Wire.chunks receiver') <= length (Wire.chunks receiver)
    /\ SocketChannel.atEnd (socketChannel receiver')
       = SocketChannel.atEnd (socketChannel receiver)
    /\ closed receiver' = closed receiver
    /\ Wire.writable receiver' = Wire.writable receiver.
Proof.
  intros Hp Ho Ha Hi Hf.
  assert (Hs : toInt (Z.of_nat (length p)) = Z.of_nat (length p)).
  { apply toInt_id. lia. }
  rewrite Hs in Hi. unfold intBytes in Hi. cbn [app] in Hi.
  destruct (readBuffer_frame fuel receiver _ _ _ _ (p ++ rest) Ho Ha Hi)
    as (cuts & Hc & E).
  - rewrite bytesInt_intBytes, Hs, Nat2Z.id, length_app. lia.
  - rewrite bytesInt_intBytes, Hs, Nat2Z.id. exact Hf.
  - apply read_of_readBuffer in E.
    rewrite bytesInt_intBytes, Hs in E. rewrite E.
    eexists. split; [|split; [|split; [|split; [|split; [|split; [|split]]]]]].
    + f_equal. unfold Wire.frameResult.
      replace (Z.of_nat (length p) <? 0)%Z with false
        by (symmetry; apply Z.ltb_ge; lia).
      destruct (Nat.eqb_spec (length p) 0) as [Z0|NZ].
      * rewrite Z0. reflexivity.
      * replace (Z.of_nat (length p) =? 0)%Z with false
          by (symmetry; apply Z.eqb_neq; lia).
        rewrite Nat2Z.id, firstn_app, Nat.sub_diag, firstn_all.
        cbn [firstn]. rewrite app_nil_r. reflexivity.
    + unfold Wire.frameRest.
      change (Wire.inbound (set_incomingLengthBuffer ?b (Wire.receiving ?f ?x ?c)))
        with x.
      destruct (Z.ltb_spec 0 (Z.of_nat (length p))) as [L|L].
      * rewrite Nat2Z.id. apply skipn_length_app.
      * destruct p; simpl in L; [reflexivity|lia].
    + exact Ho.
    + unfold Wire.allocated. cbn [incomingLengthBuffer outgoingLengthBuffer
        set_incomingLengthBuffer Wire.receiving set_socketChannel
        ByteBuffer.array length].
      destruct (allocated_length_buffers receiver Ha) as [_ Hout].
      rewrite Hout. reflexivity.
    + exact Hc.
    + reflexivity.
    + reflexivity.
    + unfold Wire.writable, isConnected in *.
      cbn [socketChannel writeLock set_incomingLengthBuffer Wire.receiving
           set_socketChannel SocketChannel.isOpen SocketChannel.writeFaults].
      reflexivity.
Qed.

(** C1, amended.  For every byte sequence [p] with [1 <= |p| <= 2^31-1]:
    [write(p)] succeeds on a socket that can be written, and a [read()] on
    the receiving end, whose input begins with the bytes that this write
    sent, returns exactly [p]; it is the frame this first read delivers, and
    the input behind it is left unread.  (For [|p| = 0] the read returns the
    keepalive result [Some(None)] and no payload is delivered.) *)
Theorem write_then_read_returns_payload (wfuel fuel : nat)
  (p rest : list byte) (sender receiver : FramedSocket.t) :
  1 <= length p ->
  (Z.of_nat (length p) <= 2 ^ 31 - 1)%Z ->
  Wire.writable sender = true ->
  Wire.allocated sender = true ->
  2 <= wfuel ->
  isConnected receiver = true ->
  Wire.allocated receiver = true ->
  Wire.inbound receiver
  = Wire.sent sender (snd (write wfuel p sender)) ++ rest ->
  length (Wire.chunks receiver) + 4 + length p < fuel ->
  fst (write wfuel p sender) = Success tt
  /\ exists buf,
       fst (read fuel receiver) = Success (Some (Some buf))
       /\ BitVector_view buf = p
       /\ Wire.inbound (snd (read fuel receiver)) = rest.
Proof.
  intros H1 Hmax Hw Ha Hwf Ho Har Hi Hf.
  destruct (write_ok wfuel p sender Hw Ha Hwf) as (sender' & E & O & _).
  rewrite E in *. cbn [fst snd] in *. split; [reflexivity|].
  unfold Wire.sent in Hi. rewrite O, skipn_length_app in Hi.
  destruct (frame_read_back fuel p rest receiver Hmax Ho Har Hi Hf)
    as (receiver' & R & I & _).
  rewrite R. cbn [fst snd].
  replace (length p =? 0) with false by (symmetry; apply Nat.eqb_neq; lia).
  exists (ByteBuffer.wrap p). repeat split. exact I.
Qed.

Lemma write_then_read_returns_payload_witness :
  fst (write 2 [x41; x42] (Examples.socket [] [])) = Success tt
  /\ exists buf,
       fst (read 10 Examples.twoBytesAndMore) = Success (Some (Some buf))
       /\ BitVector_view buf = [x41; x42]
       /\ Wire.inbound (snd (read 10 Examples.twoBytesAndMore)) = [x43].
Proof.
  apply (write_then_read_returns_payload 2 10 [x41; x42] [x43]
           (Examples.socket [] []) Examples.twoBytesAndMore).
  - simpl. lia.
  - simpl. lia.
  - reflexivity.
  - reflexivity.
  - lia.
  - reflexivity.
  - reflexivity.
  - reflexivity.
  - simpl. lia.
Defined.

(** C1 as stated fails at the empty byte sequence: what [write] puts on the
    wire for it is a length of zero, which the receiving [read()] takes for
    a keepalive; no buffer is returned, with whatever fuel. *)
Lemma empty_message_is_read_as_keepalive :
  let sender := Examples.socket [] [] in
  let receiver :=
    Examples.socket (Wire.sent sender (snd (write 2 [] sender))) [] in
  fst (write 2 [] sender) = Success tt
  /\ fst (read 2 receiver) = Success (Some None)
  /\ forall fuel,
       ~ exists buf,
           fst (read fuel receiver) = Success (Some (Some buf))
           /\ BitVector_view buf = [].
Proof.
  cbv zeta. split; [reflexivity|]. split; [reflexivity|].
  intros fuel (buf & E & _).
  destruct fuel as [|[|fuel]]; vm_compute in E; discriminate E.
Qed.

(** C3, at the failing input.  The stream ends inside the payload (the
    frame announces two bytes, one arrives, then [socketChannel.read]
    returns -1): [read()] does not return [None], it never returns. *)
Theorem read_eof_in_payload_never_returns :
  forall fuel, fst (read fuel Examples.truncated) = NoReturn.
Proof.
  apply (read_truncated_payload_loops Examples.truncated x00 x00 x00 x02 [x41]).
  - reflexivity.
  - reflexivity.
  - reflexivity.
  - reflexivity.
  - vm_compute. reflexivity.
Qed.

End FramedSocketClaims.

Section WriteFailure.

Import FramedSocket.

(** Writing to the channel leaves the latch alone. *)
Lemma writeSize_closed (size : Z) (fs : FramedSocket.t) :
  closed (snd (writeSize size fs)) = closed fs.
Proof.
  unfold writeSize, ZIO.flatMap, ZIO.modify, ZIO.get, onChannel, ZIO.zoom.
  cbn [socketChannel set_outgoingLengthBuffer outgoingLengthBuffer].
  destruct (SocketChannel.write _ (socketChannel fs)) as [[x|e|] ch'];
    reflexivity.
Qed.

Lemma writeRemaining_closed (fuel : nat) :
  forall (byteBuffer : ByteBuffer.t) (fs : FramedSocket.t),
    closed (snd (writeRemaining fuel byteBuffer fs)) = closed fs.
Proof.
  induction fuel as [|fuel IH]; intros byteBuffer fs; [reflexivity|].
  cbn [writeRemaining].
  destruct (ByteBuffer.hasRemaining byteBuffer); [|reflexivity].
  unfold ZIO.flatMap, onChannel, ZIO.zoom.
  destruct (SocketChannel.write byteBuffer (socketChannel fs))
    as [[x|e|] ch']; try reflexivity.
  rewrite IH. reflexivity.
Qed.

(** [close()] with the write lock free. *)
Lemma close_unlocked (fs : FramedSocket.t) (permits : nat) :
  writeLock fs = S permits ->
  close fs
  = (Success tt,
     set_closed (Promise.succeed (closed fs))
       (set_socketChannel (SocketChannel.close (socketChannel fs)) fs)).
Proof.
  intros Hl. destruct fs as [ch cl inl outl lock ka]. simpl in Hl. subst lock.
  reflexivity.
Qed.

(** C10.  When [write] fails with the error [err], the socket is closed
    and the latch ends completed.  If [err] is a [ClosedChannelException]
    the latch is completed as [close()] completes it, with success, and
    not with the error: a latch that was pending is [Succeeded], the latch
    is the one an orderly [close()] of the socket leaves, and [awaitClosed]
    returns, so it tells no difference.  For any other error the latch is
    failed with [err] before the socket is closed: a latch that was
    pending is [Failed err], and [awaitClosed] fails with [err]. *)
Theorem write_failure_and_latch (fuel : nat) (msg : list byte)
  (fs : FramedSocket.t) (err : Throwable) :
  fst (write fuel msg fs) = Failure err ->
  let fs' := snd (write fuel msg fs) in
  isConnected fs' = false
  /\ closed fs'
     = (if isClosedChannelException err then Promise.succeed (closed fs)
        else Promise.fail err (closed fs))
  /\ (isClosedChannelException err = true ->
      fst (close fs) = Success tt
      /\ closed fs' = closed (snd (close fs))
      /\ awaitClosed fs' = (fst (awaitClosed (snd (close fs))), fs'))
  /\ Promise.isDone (closed fs') = true
  /\ (closed fs = Promise.Pending ->
      closed fs'
      = (if isClosedChannelException err then Promise.Succeeded
         else Promise.Failed err)
      /\ awaitClosed fs'
         = (if isClosedChannelException err then Success tt else Failure err,
            fs')).
Proof.
  cut (fst (write fuel msg fs) = Failure err ->
       isConnected (snd (write fuel msg fs)) = false
       /\ closed (snd (write fuel msg fs))
          = (if isClosedChannelException err then Promise.succeed (closed fs)
             else Promise.fail err (closed fs))
       /\ (isClosedChannelException err = true ->
           fst (close fs) = Success tt
           /\ closed (snd (write fuel msg fs)) = closed (snd (close fs))
           /\ awaitClosed (snd (write fuel msg fs))
              = (fst (awaitClosed (snd (close fs))), snd (write fuel msg fs)))).
  { intros Main F. cbv zeta. destruct (Main F) as (C & L & A).
    split; [exact C|]. split; [exact L|]. split; [exact A|].
    split.
    - rewrite L. destruct (isClosedChannelException err), (closed fs);
        reflexivity.
    - intros Hp. rewrite Hp in L. split.
      + rewrite L. destruct (isClosedChannelException err); reflexivity.
      + unfold awaitClosed, ZIO.flatMap, ZIO.get. rewrite L.
        destruct (isClosedChannelException err); reflexivity. }
  unfold write, ZIO.tapError, ZIO.bracket, writeLock_acquire, ZIO.zoom,
    Semaphore.acquire.
  destruct (writeLock fs) as [|permits] eqn:Hl; [discriminate|].
  set (fs0 := set_writeLock permits fs).
  set (body := writeSize (toInt (Z.of_nat (length msg)))
               *> writeRemaining fuel (ByteBuffer.wrap msg)).
  assert (Hc : closed (snd (body fs0)) = closed fs).
  { subst body. unfold ZIO.flatMap.
    pose proof (writeSize_closed (toInt (Z.of_nat (length msg))) fs0) as W.
    destruct (writeSize (toInt (Z.of_nat (length msg))) fs0)
      as [[u|e|] fs1]; cbn [snd] in *; try exact W.
    rewrite writeRemaining_closed. exact W. }
  destruct (body fs0) as [[u|e|] fs1]; cbn [snd] in Hc; try discriminate.
  rewrite (close_unlocked fs permits Hl).
  destruct (isClosedChannelException e) eqn:Hi.
  - rewrite (close_unlocked (writeLock_release fs1) (writeLock fs1) eq_refl).
    cbn [fst snd]. intros E. injection E as <-. rewrite Hi.
    cbn [closed set_closed writeLock_release set_writeLock set_socketChannel].
    rewrite Hc. repeat split.
    unfold awaitClosed, ZIO.flatMap, ZIO.get.
    cbn [closed set_closed].
    destruct (Promise.succeed (closed fs)); reflexivity.
  - unfold ZIO.flatMap, closed_fail, ZIO.modify.
    rewrite (close_unlocked
               (set_closed (Promise.fail e (closed (writeLock_release fs1)))
                  (writeLock_release fs1))
               (writeLock fs1) eq_refl).
    cbn [fst snd]. intros E. injection E as <-. rewrite Hi.
    cbn [closed set_closed writeLock_release set_writeLock set_socketChannel].
    rewrite Hc. repeat split; try discriminate.
    destruct (closed fs); reflexivity.
Qed.

Lemma write_failure_and_latch_witness :
  let dead := Examples.faulty [SocketChannel.WriteThrows ClosedChannelException] in
  let broken :=
    Examples.faulty [SocketChannel.Writes; SocketChannel.WriteThrows IOException] in
  (isConnected (snd (write 2 [x41] dead)) = false
   /\ closed (snd (write 2 [x41] dead)) = Promise.Succeeded
   /\ closed (snd (write 2 [x41] dead)) = closed (snd (close dead))
   /\ fst (awaitClosed (snd (write 2 [x41] dead))) = Success tt)
  /\ (isConnected (snd (write 2 [x41] broken)) = false
      /\ closed (snd (write 2 [x41] broken)) = Promise.Failed IOException
      /\ fst (awaitClosed (snd (write 2 [x41] broken)))
         = Failure IOException).
Proof.
  cbv zeta. split.
  - destruct (write_failure_and_latch 2 [x41]
                (Examples.faulty
                   [SocketChannel.WriteThrows ClosedChannelException])
                ClosedChannelException eq_refl)
      as (C & _ & Same & _ & Pending).
    destruct (Same eq_refl) as (_ & S & _).
    destruct (Pending eq_refl) as (L & A).
    split; [exact C|]. split; [exact L|]. split; [exact S|].
    rewrite A. reflexivity.
  - destruct (write_failure_and_latch 2 [x41]
                (Examples.faulty
                   [SocketChannel.Writes; SocketChannel.WriteThrows IOException])
                IOException eq_refl)
      as (C & _ & _ & _ & Pending).
    destruct (Pending eq_refl) as (L & A).
    split; [exact C|]. split; [exact L|]. rewrite A. reflexivity.
Defined.

End WriteFailure.

Section FrameStream.

Import FramedSocket.

(** One pull of [bitVectors] is one [read()]. *)
Lemma bitVectors_pull (fuel : nat) (st : Stream.state bitVectors)
  (fs : FramedSocket.t) :
  Stream.pull bitVectors fuel st fs
  = match read fuel fs with
    | (Success (Some (Some buf)), fs') =>
        (Stream.Emit (BitVector_view buf) tt, fs')
    | (Success (Some None), fs') => (Stream.Skip tt, fs')
    | (Success None, fs') => (Stream.Done, fs')
    | (Failure e, fs') =>
        (Stream.Done, set_closed (Promise.fail e (closed fs')) fs')
    | (NoReturn, fs') => (Stream.Stall, fs')
    end.
Proof.
  unfold bitVectors. cbn [Stream.pull Stream.map Stream.unNone
    Stream.unNoneTerminate Stream.handleErrorWith_evalDrain Stream.repeatEval
    Stream.init].
  destruct (read fuel fs) as [[[[buf|]|]|e|] fs']; reflexivity.
Qed.

Lemma bitVectors_runFrom (frames : list (list byte)) :
  forall (steps fuel : nat) (fs : FramedSocket.t) (tail : list byte),
    isConnected fs = true ->
    Wire.allocated fs = true ->
    Forall (fun p => (Z.of_nat (length p) <= 2 ^ 31 - 1)%Z) frames ->
    Wire.inbound fs = flat_map Wire.frame frames ++ tail ->
    Wire.endsFrames fs tail ->
    length frames < steps ->
    length (Wire.chunks fs) + length (Wire.inbound fs) + 4 < fuel ->
    exists fs',
      Stream.runFrom bitVectors steps fuel tt fs
      = (Wire.payloads frames, Stream.Completed, fs').
Proof.
  induction frames as [|p frames IH];
    intros steps fuel fs tail Ho Ha Hmax Hi Hend Hsteps Hfuel;
    (destruct steps as [|steps]; [simpl in Hsteps; lia|]).
  - cbn [flat_map app] in Hi. cbn [Stream.runFrom].
    rewrite bitVectors_pull.
    destruct Hend as [[He Hlen]|(b0 & b1 & b2 & b3 & junk & Ht & Hneg)].
    + destruct (read_truncated_length fuel fs Ho Ha He) as (buf & cuts & E).
      * rewrite Hi. exact Hlen.
      * lia.
      * rewrite E. eexists. reflexivity.
    + rewrite Ht in Hi.
      destruct (readBuffer_frame fuel fs b0 b1 b2 b3 junk Ho Ha Hi)
        as (cuts & _ & E).
      * lia.
      * replace (Z.to_nat (bytesInt b0 b1 b2 b3)) with 0 by lia. lia.
      * apply read_of_readBuffer in E. rewrite E.
        unfold Wire.frameResult.
        replace (bytesInt b0 b1 b2 b3 <? 0)%Z with true
          by (symmetry; apply Z.ltb_lt; lia).
        eexists. reflexivity.
  - inversion Hmax as [|? ? Hp Hmax']; subst.
    assert (Hs : toInt (Z.of_nat (length p)) = Z.of_nat (length p))
      by (apply toInt_id; lia).
    assert (Hi' : Wire.inbound fs
                  = (intBytes (toInt (Z.of_nat (length p))) ++ p)
                      ++ (flat_map Wire.frame frames ++ tail)).
    { rewrite Hi. cbn [flat_map]. unfold Wire.frame at 1.
      rewrite Hs, <- !app_assoc. reflexivity. }
    assert (Hlen : length (Wire.inbound fs)
                   = 4 + length p + length (flat_map Wire.frame frames ++ tail)).
    { rewrite Hi', !length_app. simpl. lia. }
    clear Hi. rename Hi' into Hi.
    destruct (frame_read_back fuel p (flat_map Wire.frame frames ++ tail)
                fs Hp Ho Ha Hi)
      as (fs1 & R & I1 & Ho1 & Ha1 & Hc1 & He1 & _); [lia|].
    destruct (IH steps fuel fs1 tail Ho1 Ha1 Hmax' I1) as (fs' & Run).
    + destruct Hend as [[He Hl]|Hm]; [left|right; exact Hm].
      split; [rewrite He1; exact He|exact Hl].
    + simpl in Hsteps. lia.
    + rewrite I1. lia.
    + exists fs'. cbn [Stream.runFrom]. rewrite bitVectors_pull, R.
      unfold Wire.payloads. cbn [filter].
      destruct (length p =? 0) eqn:Ez; cbn [negb].
      * exact Run.
      * rewrite Run. reflexivity.
Qed.

(** C7.  For every sequence of incoming frames, followed by the end of the
    stream or by a negative length, the frame stream [bitVectors] delivers
    exactly the payloads of positive length, in order; the keepalive frames
    (length 0) are dropped; and the stream terminates there, without
    raising. *)
Theorem bitVectors_delivers_payloads (frames : list (list byte))
  (tail : list byte) (steps fuel : nat) (fs : FramedSocket.t) :
  isConnected fs = true ->
  Wire.allocated fs = true ->
  Forall (fun p => (Z.of_nat (length p) <= 2 ^ 31 - 1)%Z) frames ->
  Wire.inbound fs = flat_map Wire.frame frames ++ tail ->
  Wire.endsFrames fs tail ->
  length frames < steps ->
  length (Wire.chunks fs) + length (Wire.inbound fs) + 4 < fuel ->
  fst (Stream.run bitVectors steps fuel fs)
  = (Wire.payloads frames, Stream.Completed)
  /\ ~ In [] (fst (fst (Stream.run bitVectors steps fuel fs))).
Proof.
  intros Ho Ha Hmax Hi Hend Hsteps Hfuel.
  destruct (bitVectors_runFrom frames steps fuel fs tail
              Ho Ha Hmax Hi Hend Hsteps Hfuel) as (fs' & Run).
  unfold Stream.run. change (Stream.init bitVectors) with tt.
  rewrite Run. cbn [fst]. split; [reflexivity|].
  unfold Wire.payloads. rewrite filter_In. intros [_ F]. discriminate F.
Qed.

Lemma bitVectors_delivers_payloads_witness :
  let fs :=
    Examples.socket
      (flat_map Wire.frame [[x41; x42]; []; [x43]] ++ [xff; xff; xff; xfe; x44])
      [3; 0; 2] in
  fst (Stream.run bitVectors 4 30 fs)
  = ([[x41; x42]; [x43]], Stream.Completed)
  /\ ~ In [] (fst (fst (Stream.run bitVectors 4 30 fs))).
Proof.
  apply (bitVectors_delivers_payloads [[x41; x42]; []; [x43]]
           [xff; xff; xff; xfe; x44] 4 30).
  - reflexivity.
  - reflexivity.
  - repeat constructor; simpl; lia.
  - reflexivity.
  - right. exists xff, xff, xff, xfe, [x44]. split; [reflexivity|].
    vm_compute. reflexivity.
  - simpl. lia.
  - simpl. lia.
Defined.

End FrameStream.

Section Handshake.

Import SocketTransport.

Variable decodeBuffer : ByteBuffer.t -> Throwable + IdentifyChannel.

(** [selectChannels], from what the two identifications return. *)
Lemma selectChannels_of_roles (fuel : nat) (channel1 channel2 : nat)
  (address : InetSocketAddress) (env env1 env2 : Env.t)
  (role1 role2 : IdentifyChannel) :
  identify decodeBuffer fuel channel1 env = (Success role1, env1) ->
  identify decodeBuffer fuel channel2 env1 = (Success role2, env2) ->
  (role1 = MainChannel /\ role2 = NotebookUpdatesChannel ->
   selectChannels decodeBuffer fuel channel1 channel2 address env
   = (Success (mkChannels channel1 channel2 address), env2))
  /\ (role1 = NotebookUpdatesChannel /\ role2 = MainChannel ->
      selectChannels decodeBuffer fuel channel1 channel2 address env
      = (Success (mkChannels channel2 channel1 address), env2)).
Proof.
  intros E1 E2.
  unfold selectChannels, ZIO.flatMap, ZIO.zipPar. rewrite E1, E2.
  split; intros [-> ->]; reflexivity.
Qed.

(** The handshake does not touch the process. *)
Lemma onSocket_process {A} (ref : nat) (m : ZIO FramedSocket.t A)
  (env : Env.t) :
  Env.process (snd (Env.onSocket ref m env)) = Env.process env.
Proof.
  unfold Env.onSocket.
  destruct (nth_error (Env.sockets env) ref) as [fs|]; [|reflexivity].
  destruct (m fs). reflexivity.
Qed.

Lemma keepaliveRounds_process (refs : list nat) :
  forall env, Env.process (Env.keepaliveRounds refs env) = Env.process env.
Proof.
  unfold Env.keepaliveRounds.
  induction refs as [|ref refs IH]; intros env; [reflexivity|].
  cbn [fold_left]. rewrite IH. apply onSocket_process.
Qed.

Lemma yield_process (env : Env.t) :
  Env.process (snd (Env.yield env)) = Env.process env.
Proof.
  unfold Env.yield. destruct (Env.scheduler env) as [|refs later];
    [reflexivity|].
  cbn [snd]. rewrite keepaliveRounds_process. reflexivity.
Qed.

Lemma repeat_doUntil_process {A} (ref : nat) (m : ZIO FramedSocket.t A)
  (p : A -> bool) (fuel : nat) :
  forall env,
    Env.process (snd (repeat_doUntil fuel (Env.onSocket ref m) p env))
    = Env.process env.
Proof.
  induction fuel as [|fuel IH]; intros env; [reflexivity|].
  cbn [repeat_doUntil]. unfold ZIO.flatMap at 1.
  pose proof (onSocket_process ref m env) as H.
  destruct (Env.onSocket ref m env) as [[a|e|] env1]; cbn [snd] in *;
    try exact H.
  destruct (p a); [exact H|].
  unfold ZIO.flatMap. pose proof (yield_process env1) as Y.
  destruct (Env.yield env1) as [[u|e|] env2]; cbn [snd] in *;
    first [rewrite IH; congruence | congruence].
Qed.

Lemma identify_process (fuel : nat) (channel : nat) (env : Env.t) :
  Env.process (snd (identify decodeBuffer fuel channel env))
  = Env.process env.
Proof.
  unfold identify, ZIO.flatMap.
  pose proof (repeat_doUntil_process channel (FramedSocket.read fuel)
                isPayload fuel env) as H.
  destruct (repeat_doUntil _ _ _ env) as [[r|e|] env1]; cbn [snd] in *;
    try exact H.
  destruct r as [[buf|]|]; try exact H.
  unfold fromEither. destruct (decodeBuffer buf); exact H.
Qed.

(** C5, amended.  When the two identifications return (each with a role
    or with an error, such as the one of a frame that cannot be decoded)
    and what they return is not a permutation of the two roles, the
    construction of the server fails.  The failure path releases nothing:
    the environment is left as the two identifications left it, with the
    process as it was and no socket closed. *)
Theorem handshake_failure_releases_nothing (fuel : nat)
  (server : InetSocketAddress) (channel1 channel2 : nat)
  (env env1 env2 : Env.t) (r1 r2 : Exit IdentifyChannel) :
  identify decodeBuffer fuel channel1 (snd (Env.newPromise env)) = (r1, env1) ->
  identify decodeBuffer fuel channel2 env1 = (r2, env2) ->
  r1 <> NoReturn ->
  r2 <> NoReturn ->
  ~ permutation r1 r2 ->
  exists e,
    SocketTransportServer_apply decodeBuffer fuel server channel1 channel2 env
    = (Failure e, env2)
    /\ Env.process env2 = Env.process env
    /\ (forall role1 role2,
          r1 = Success role1 -> r2 = Success role2 ->
          e = IllegalStateException
                ("Illegal channel set: (" ++ IdentifyChannel_toString role1
                 ++ "," ++ IdentifyChannel_toString role2 ++ ")"))
    /\ (forall e1, r1 = Failure e1 -> e = e1)
    /\ (forall role1 e2, r1 = Success role1 -> r2 = Failure e2 -> e = e2).
Proof.
  intros E1 E2 N1 N2 NP.
  assert (P : Env.process env2 = Env.process env).
  { pose proof (identify_process fuel channel2 env1) as P2.
    pose proof (identify_process fuel channel1 (snd (Env.newPromise env)))
      as P1.
    rewrite E2 in P2. rewrite E1 in P1. cbn [snd] in *.
    rewrite P2, P1. reflexivity. }
  unfold SocketTransportServer_apply, selectChannels.
  unfold ZIO.flatMap at 1.
  destruct (Env.newPromise env) as [rp env0] eqn:Ep.
  unfold Env.newPromise in Ep. injection Ep as <- <-.
  cbn [snd] in E1.
  unfold ZIO.flatMap, ZIO.zipPar. rewrite E1, E2.
  destruct r1 as [[]|e1|]; destruct r2 as [[]|e2|];
    try congruence;
    try (eexists; split; [reflexivity|]; split; [exact P|];
         repeat split; intros; congruence);
    exfalso; apply NP; unfold permutation; auto.
Qed.

End Handshake.

Lemma handshake_failure_releases_nothing_witness :
  let env := Examples.accepted (Wire.frame [x00]) (Wire.frame [x00]) in
  let env1 :=
    snd (SocketTransport.identify Examples.decodeRole 10 0
           (snd (Env.newPromise env))) in
  let env2 := snd (SocketTransport.identify Examples.decodeRole 10 1 env1) in
  exists e,
    SocketTransport.SocketTransportServer_apply Examples.decodeRole 10
      Examples.localhost 0 1 env
    = (Failure e, env2)
    /\ Env.process env2 = Env.process env
    /\ (forall role1 role2,
          Success MainChannel = Success role1 ->
          Success MainChannel = Success role2 ->
          e = IllegalStateException
                ("Illegal channel set: (" ++ IdentifyChannel_toString role1
                 ++ "," ++ IdentifyChannel_toString role2 ++ ")"))
    /\ (forall e1, Success MainChannel = Failure e1 -> e = e1)
    /\ (forall role1 e2,
          Success MainChannel = Success role1 ->
          Success MainChannel = Failure e2 -> e = e2).
Proof.
  cbv zeta.
  apply (handshake_failure_releases_nothing Examples.decodeRole 10
           Examples.localhost 0 1
           (Examples.accepted (Wire.frame [x00]) (Wire.frame [x00]))
           (snd (SocketTransport.identify Examples.decodeRole 10 0
                   (snd (Env.newPromise
                           (Examples.accepted (Wire.frame [x00])
                              (Wire.frame [x00]))))))
           (snd (SocketTransport.identify Examples.decodeRole 10 1
                   (snd (SocketTransport.identify Examples.decodeRole 10 0
                           (snd (Env.newPromise
                                   (Examples.accepted (Wire.frame [x00])
                                      (Wire.frame [x00]))))))))
           (Success MainChannel) (Success MainChannel)).
  - reflexivity.
  - reflexivity.
  - discriminate.
  - discriminate.
  - unfold SocketTransport.permutation. intros [[_ H]|[H _]]; discriminate H.
Defined.

(** C5 as stated fails when both sockets send the same role: the
    construction fails with the handshake error, and at that point both
    sockets are still open and the process runs, not killed. *)
Lemma duplicate_roles_leave_sockets_and_process :
  let run :=
    SocketTransport.deployAndServe Examples.decodeRole 10 Examples.localhost
      (Examples.serving (Wire.frame [x00]) (Wire.frame [x00])) in
  fst run
  = Failure (IllegalStateException
               "Illegal channel set: (MainChannel,MainChannel)")
  /\ map FramedSocket.isConnected (Env.sockets (snd run)) = [true; true]
  /\ map FramedSocket.closed (Env.sockets (snd run))
     = [Promise.Pending; Promise.Pending]
  /\ Env.process (snd run) = Some Examples.kernel
  /\ Process.isAlive Examples.kernel = true
  /\ Process.destroyed Examples.kernel = false.
Proof.
  cbv zeta. repeat split; reflexivity.
Qed.

Section Startup.

Import SocketTransport.

Variable decodeBuffer : ByteBuffer.t -> Throwable + IdentifyChannel.

(** An accept that does not complete in time fails the connection and
    leaves the environment as it was. *)
Lemma startConnection_timeout (env : Env.t) :
  Wire.notAcceptedWithin (Duration.minutes 3) (Env.backlog env) ->
  startConnection (Duration.minutes 3) env = (Failure Wire.startupTimeout, env).
Proof.
  unfold Wire.notAcceptedWithin, startConnection, ZIO.flatMap, Timed.timeout,
    Timed.flatMap, accept.
  destruct (Env.backlog env) as [|[[elapsed channel]|] later];
    try reflexivity.
  intros H. cbn [Env.newSocket].
  replace (elapsed <? Duration.toMillis (Duration.minutes 3))%Z with false
    by (symmetry; apply Z.ltb_ge; exact H).
  reflexivity.
Qed.

(** An accept that completes in time wraps the connection in a fresh
    [FramedSocket]; the process is not touched. *)
Lemma startConnection_accepts (env : Env.t) (elapsed : Z)
  (channel : SocketChannel.t) later :
  Env.backlog env = Some (elapsed, channel) :: later ->
  (elapsed < Duration.toMillis (Duration.minutes 3))%Z ->
  startConnection (Duration.minutes 3) env
  = (Success (length (Env.sockets env)),
     Env.set_sockets (Env.sockets env ++ [FramedSocket.apply channel true])
       (Env.set_backlog later env)).
Proof.
  intros Hb Hl.
  unfold startConnection, ZIO.flatMap, Timed.timeout, Timed.flatMap, accept.
  rewrite Hb. cbn [Env.newSocket].
  replace (elapsed <? Duration.toMillis (Duration.minutes 3))%Z with true
    by (symmetry; apply Z.ltb_lt; exact Hl).
  reflexivity.
Qed.

Lemma yield_backlog (env : Env.t) :
  Env.backlog (snd (Env.yield env)) = Env.backlog env.
Proof.
  unfold Env.yield. destruct (Env.scheduler env) as [|refs later];
    [reflexivity|].
  cbn [snd]. unfold Env.keepaliveRounds.
  change (Env.backlog env) with (Env.backlog (Env.set_scheduler later env)).
  generalize (Env.set_scheduler later env). clear env.
  induction refs as [|ref refs IH]; intros env; [reflexivity|].
  cbn [fold_left]. rewrite IH. unfold Env.onSocket.
  destruct (nth_error (Env.sockets env) ref) as [fs|]; [|reflexivity].
  destruct (FramedSocket.keepaliveRound fs). reflexivity.
Qed.

Lemma yield_succeeds (env : Env.t) : fst (Env.yield env) = Success tt.
Proof.
  unfold Env.yield. destruct (Env.scheduler env); reflexivity.
Qed.

(** C6, amended.  If no connection is accepted within 3 minutes of the
    server starting to wait for it (for the first connection, or for the
    second after the first came in time), the construction of the transport
    fails with a TimeoutException, whose message ends with the timeout as
    its Scala duration prints, in nanoseconds, and the deployed process is
    left as it was started: it is not killed. *)
Theorem accept_timeout_fails_startup (fuel : nat)
  (serverAddress : InetSocketAddress) (env : Env.t) (p : Process.t) :
  Env.launcher env = inr p ->
  Wire.notAcceptedWithin (Duration.minutes 3) (Env.backlog env)
  \/ (exists elapsed channel later,
        Env.backlog env = Some (elapsed, channel) :: later
        /\ (elapsed < Duration.toMillis (Duration.minutes 3))%Z
        /\ Wire.notAcceptedWithin (Duration.minutes 3) later) ->
  fst (deployAndServe decodeBuffer fuel serverAddress env)
  = Failure
      (TimeoutException
         "Remote kernel process failed to start after 180000000000 nanoseconds")
  /\ Env.process (snd (deployAndServe decodeBuffer fuel serverAddress env))
     = Some p.
Proof.
  intros Hl Hb.
  change (TimeoutException
            "Remote kernel process failed to start after 180000000000 nanoseconds")
    with Wire.startupTimeout.
  cut (exists env',
         deployAndServe decodeBuffer fuel serverAddress env
         = (Failure Wire.startupTimeout, env')
         /\ Env.process env' = Some p).
  { intros (env' & E & P). rewrite E. split; [reflexivity|exact P]. }
  unfold deployAndServe. unfold ZIO.flatMap at 1. unfold deployKernel at 1.
  rewrite Hl.
  set (env0 := Env.set_process (Some p) env).
  destruct Hb as [Late|(elapsed & channel & later & Hb & Hin & Late)].
  - unfold ZIO.flatMap at 1.
    rewrite (startConnection_timeout env0 Late).
    exists env0. split; reflexivity.
  - unfold ZIO.flatMap at 1.
    rewrite (startConnection_accepts env0 elapsed channel later Hb Hin).
    set (env1 := Env.set_sockets _ _).
    unfold ZIO.flatMap at 1.
    pose proof (yield_succeeds env1) as Y.
    pose proof (yield_backlog env1) as B.
    pose proof (yield_process env1) as P.
    destruct (Env.yield env1) as [r env2]. cbn [fst snd] in *. subst r.
    unfold ZIO.flatMap at 1.
    rewrite (startConnection_timeout env2).
    + exists env2. split; [reflexivity|]. rewrite P. reflexivity.
    + rewrite B. exact Late.
Qed.

End Startup.

Lemma accept_timeout_fails_startup_witness :
  fst (SocketTransport.deployAndServe Examples.decodeRole 10
         Examples.localhost Examples.lonely)
  = Failure
      (TimeoutException
         "Remote kernel process failed to start after 180000000000 nanoseconds")
  /\ Env.process
       (snd (SocketTransport.deployAndServe Examples.decodeRole 10
               Examples.localhost Examples.lonely))
     = Some Examples.kernel.
Proof.
  apply (accept_timeout_fails_startup Examples.decodeRole 10
           Examples.localhost Examples.lonely Examples.kernel).
  - reflexivity.
  - left. exact I.
Defined.

(** C6 as stated fails.  When nobody connects, so that no first frame ever
    comes, the construction fails with the timeout error and the process is
    still alive, with no [destroy()] called.  And when the client connects
    and then sends nothing, no timeout fires: the construction does not
    return. *)
Lemma startup_timeout_spares_the_process :
  let run :=
    SocketTransport.deployAndServe Examples.decodeRole 10 Examples.localhost
      Examples.lonely in
  fst run = Failure Wire.startupTimeout
  /\ Env.process (snd run) = Some Examples.kernel
  /\ Process.isAlive Examples.kernel = true
  /\ Process.destroyed Examples.kernel = false
  /\ forall fuel,
       fst (SocketTransport.deployAndServe Examples.decodeRole fuel
              Examples.localhost Examples.silentClient)
       = NoReturn.
Proof.
  cbv zeta. repeat split; try reflexivity.
  intros [|fuel]; reflexivity.
Qed.

Section Heap.

Lemma update_length {A} (ref : nat) (a : A) (heap : list A) :
  length (Env.update ref a heap) = length heap.
Proof.
  revert ref. induction heap as [|b heap IH]; intros [|ref]; simpl; auto.
Qed.

Lemma nth_error_update_same {A} (ref : nat) (a : A) (heap : list A) :
  ref < length heap -> nth_error (Env.update ref a heap) ref = Some a.
Proof.
  revert ref. induction heap as [|b heap IH]; intros [|ref] H; simpl in *;
    try lia; auto. apply IH. lia.
Qed.

Lemma nth_error_update_other {A} (ref ref' : nat) (a : A) (heap : list A) :
  ref <> ref' -> nth_error (Env.update ref a heap) ref' = nth_error heap ref'.
Proof.
  revert ref ref'.
  induction heap as [|b heap IH]; intros [|ref] [|ref'] H; simpl;
    try reflexivity; try congruence.
  apply IH. congruence.
Qed.

Lemma onSocket_holds {A} (ref ref' : nat) (m : ZIO FramedSocket.t A)
  (P : FramedSocket.t -> Prop) (env : Env.t) :
  (forall fs, P fs -> P (snd (m fs))) ->
  Wire.holds ref' P env -> Wire.holds ref' P (snd (Env.onSocket ref m env)).
Proof.
  intros St (fs' & Hn & HP). unfold Env.onSocket.
  destruct (nth_error (Env.sockets env) ref) as [fs|] eqn:En;
    [|exists fs'; auto].
  destruct (m fs) as [r fs1] eqn:Em. cbn [snd Env.sockets Env.set_sockets].
  destruct (Nat.eq_dec ref ref') as [->|Ne].
  - exists fs1. split.
    + apply nth_error_update_same. apply nth_error_Some. congruence.
    + rewrite En in Hn. injection Hn as <-.
      specialize (St fs HP). rewrite Em in St. exact St.
  - exists fs'. split; [|exact HP].
    cbn [Env.sockets Env.set_sockets].
    rewrite nth_error_update_other by exact Ne. exact Hn.
Qed.

Lemma keepaliveRounds_holds (refs : list nat) (ref : nat)
  (P : FramedSocket.t -> Prop) :
  Wire.stable P ->
  forall env, Wire.holds ref P env -> Wire.holds ref P (Env.keepaliveRounds refs env).
Proof.
  intros St. unfold Env.keepaliveRounds.
  induction refs as [|r refs IH]; intros env H; [exact H|].
  cbn [fold_left]. apply IH. apply onSocket_holds; assumption.
Qed.

Lemma yield_holds (ref : nat) (P : FramedSocket.t -> Prop) (env : Env.t) :
  Wire.stable P -> Wire.holds ref P env -> Wire.holds ref P (snd (Env.yield env)).
Proof.
  intros St H. unfold Env.yield.
  destruct (Env.scheduler env) as [|refs later]; [exact H|].
  cbn [snd]. apply keepaliveRounds_holds; [exact St|].
  destruct H as (fs & Hn & HP). exists fs. split; assumption.
Qed.

(** What the keepalive rounds leave alone. *)
Lemma keepaliveRounds_frame (refs : list nat) :
  forall env,
    length (Env.sockets (Env.keepaliveRounds refs env))
    = length (Env.sockets env)
    /\ Env.network (Env.keepaliveRounds refs env) = Env.network env
    /\ Env.promises (Env.keepaliveRounds refs env) = Env.promises env.
Proof.
  unfold Env.keepaliveRounds.
  induction refs as [|r refs IH]; intros env; [auto|].
  cbn [fold_left]. destruct (IH (snd (Env.onSocket r
                                        FramedSocket.keepaliveRound env)))
    as (L & N & P).
  rewrite L, N, P. unfold Env.onSocket.
  destruct (nth_error (Env.sockets env) r) as [fs|]; [|auto].
  destruct (FramedSocket.keepaliveRound fs) as [x fs'].
  cbn [snd Env.sockets Env.set_sockets Env.network Env.promises].
  rewrite update_length. auto.
Qed.

Lemma yield_frame (env : Env.t) :
  Env.yield env = (Success tt, snd (Env.yield env))
  /\ length (Env.sockets (snd (Env.yield env))) = length (Env.sockets env)
  /\ Env.network (snd (Env.yield env)) = Env.network env
  /\ Env.promises (snd (Env.yield env)) = Env.promises env.
Proof.
  unfold Env.yield. destruct (Env.scheduler env) as [|refs later]; [auto|].
  cbn [snd]. split; [reflexivity|].
  apply (keepaliveRounds_frame refs (Env.set_scheduler later env)).
Qed.

End Heap.

Section Keepalive.

Import FramedSocket.

Lemma keepalives_snoc (k : nat) :
  Wire.keepalives (S k) = Wire.keepalives k ++ intBytes 0.
Proof.
  unfold Wire.keepalives. induction k as [|k IH]; [reflexivity|].
  change (repeat (intBytes 0) (S (S k)))
    with (intBytes 0 :: repeat (intBytes 0) (S k)).
  cbn [concat]. rewrite IH at 1. cbn [repeat concat].
  rewrite app_assoc. reflexivity.
Qed.

Lemma keepalives_plus (j k : nat) :
  Wire.keepalives (j + k) = Wire.keepalives j ++ Wire.keepalives k.
Proof.
  unfold Wire.keepalives. rewrite repeat_app, concat_app. reflexivity.
Qed.

(** A round of the keepalive fiber on a socket that can be written. *)
Lemma keepaliveRound_ok (fs : FramedSocket.t) :
  Wire.writable fs = true ->
  Wire.allocated fs = true ->
  exists fs',
    keepaliveRound fs = (Success tt, fs')
    /\ Wire.outbound fs'
       = Wire.outbound fs ++ (if keepaliveFiber fs then intBytes 0 else [])
    /\ Wire.writable fs' = true
    /\ Wire.allocated fs' = true.
Proof.
  intros Hw Ha.
  destruct (writable_parts fs Hw) as (Ho & Hf & permits & Hl).
  unfold keepaliveRound, ZIO.flatMap, ZIO.get.
  destruct (keepaliveFiber fs) eqn:Hk.
  - set (fs0 := set_writeLock permits fs).
    destruct (writeSize_ok 0 fs0) as (fs1 & E1 & O1 & Ho1 & Hf1 & Ha1 & L1 & _);
      try assumption.
    unfold ZIO.tapError, sendKeepalive, ZIO.bracket, writeLock_tryAcquire,
      ZIO.zoom, Semaphore.tryAcquire.
    rewrite Hl. fold fs0. rewrite E1.
    eexists. split; [reflexivity|].
    unfold Wire.outbound, Wire.writable, Wire.allocated in *.
    cbn -[intBytes Nat.eqb Nat.ltb] in *.
    rewrite O1, Ho1, Hf1, Ha1, L1. repeat split; reflexivity.
  - exists fs. rewrite app_nil_r. repeat split; assumption.
Qed.

Lemma sendingAfter_stable (sent : list byte) :
  Wire.stable (Wire.sendingAfter sent).
Proof.
  intros fs (Hw & Ha & k & Ho).
  destruct (keepaliveRound_ok fs Hw Ha) as (fs' & E & O & Hw' & Ha').
  rewrite E. cbn [snd]. split; [exact Hw'|]. split; [exact Ha'|].
  rewrite O, Ho. destruct (keepaliveFiber fs).
  - exists (S k). rewrite keepalives_snoc, app_assoc. reflexivity.
  - exists k. rewrite app_nil_r. reflexivity.
Qed.

(** A [write] on a socket of the heap that can be written. *)
Lemma onSocket_write (fuel : nat) (msg sent : list byte) (ref : nat)
  (env : Env.t) :
  2 <= fuel ->
  (Z.of_nat (length msg) <= 2 ^ 31 - 1)%Z ->
  Wire.holds ref (Wire.sendingAfter sent) env ->
  exists k env',
    Env.onSocket ref (write fuel msg) env = (Success tt, env')
    /\ Wire.holds ref
         (Wire.sendingAfter (sent ++ Wire.keepalives k ++ Wire.frame msg)) env'
    /\ length (Env.sockets env') = length (Env.sockets env)
    /\ Env.network env' = Env.network env
    /\ Env.promises env' = Env.promises env
    /\ (forall ref' P, ref' <> ref -> Wire.holds ref' P env ->
                       Wire.holds ref' P env').
Proof.
  intros Hfuel Hmax (fs & Hn & Hw & Ha & k & Ho).
  destruct (write_ok fuel msg fs Hw Ha Hfuel) as (fs' & E & O & Hw' & Ha' & _).
  exists k. unfold Env.onSocket. rewrite Hn, E.
  eexists. split; [reflexivity|].
  cbn [Env.sockets Env.set_sockets Env.network Env.promises].
  split; [|split; [|split; [|split]]].
  - exists fs'. split.
    + apply nth_error_update_same. apply nth_error_Some. congruence.
    + split; [exact Hw'|]. split; [exact Ha'|]. exists 0.
      rewrite O, Ho. unfold Wire.frame.
      rewrite toInt_id by lia.
      unfold Wire.keepalives at 2. cbn [repeat concat].
      rewrite app_nil_r, <- !app_assoc. reflexivity.
  - apply update_length.
  - reflexivity.
  - reflexivity.
  - intros ref' P Ne (fs2 & Hn2 & HP). exists fs2. split; [|exact HP].
    cbn [Env.sockets Env.set_sockets].
    rewrite nth_error_update_other by congruence. exact Hn2.
Qed.

End Keepalive.

Section ConnectClient.

Import SocketTransport.

Variable encode : IdentifyChannel -> Throwable + list byte.

(** Opening a connection and wrapping it in a [FramedSocket]. *)
Lemma open_framed (env : Env.t) (channel : SocketChannel.t) later :
  Env.network env = inr channel :: later ->
  (channel <- SocketChannel_open ;;
   Env.newSocket (FramedSocket.apply channel true)) env
  = (Success (length (Env.sockets env)),
     Env.set_sockets (Env.sockets env ++ [FramedSocket.apply channel true])
       (Env.set_network later env)).
Proof.
  intros Hn. unfold ZIO.flatMap, SocketChannel_open. rewrite Hn. reflexivity.
Qed.

Lemma fresh_sendingAfter (channel : SocketChannel.t) :
  Wire.fresh channel ->
  Wire.sendingAfter [] (FramedSocket.apply channel true).
Proof.
  intros (Ho & Hout & Hf). unfold Wire.sendingAfter, Wire.writable,
    Wire.allocated, Wire.outbound. cbn. rewrite Ho, Hf, Hout.
  repeat split. exists 0. reflexivity.
Qed.

Lemma holds_newSocket_old (ref : nat) (P : FramedSocket.t -> Prop)
  (fs : FramedSocket.t) (env env' : Env.t) :
  Wire.holds ref P env ->
  Wire.holds ref P (Env.set_sockets (Env.sockets env ++ [fs]) env').
Proof.
  intros (s & Hn & HP). exists s. split; [|exact HP].
  cbn [Env.sockets Env.set_sockets]. rewrite nth_error_app1; [exact Hn|].
  apply nth_error_Some. congruence.
Qed.

Lemma holds_newSocket_new (P : FramedSocket.t -> Prop)
  (fs : FramedSocket.t) (env env' : Env.t) :
  P fs ->
  Wire.holds (length (Env.sockets env)) P
    (Env.set_sockets (Env.sockets env ++ [fs]) env').
Proof.
  intros HP. exists fs. split; [|exact HP].
  cbn [Env.sockets Env.set_sockets].
  rewrite nth_error_app2, Nat.sub_diag by lia. reflexivity.
Qed.

(** C9, amended.  On each of the two connections that [connectClient]
    establishes, the frame of the [ChannelRole] tag is the first frame with
    a payload that is written: what precedes it on the wire, and what
    follows it when [connectClient] returns, is keepalive frames only,
    however the keepalive fibers are scheduled. *)
Theorem connectClient_tag_after_keepalives_only (fuel : nat)
  (serverAddress : InetSocketAddress) (env : Env.t)
  (channelA channelB : SocketChannel.t)
  (later : list (Throwable + SocketChannel.t))
  (tagMain tagUpdates : list byte) :
  Env.network env = inr channelA :: inr channelB :: later ->
  Wire.fresh channelA ->
  Wire.fresh channelB ->
  encode MainChannel = inr tagMain ->
  encode NotebookUpdatesChannel = inr tagUpdates ->
  (Z.of_nat (length tagMain) <= 2 ^ 31 - 1)%Z ->
  (Z.of_nat (length tagUpdates) <= 2 ^ 31 - 1)%Z ->
  2 <= fuel ->
  exists client env' before after before' after',
    connectClient encode fuel serverAddress env = (Success client, env')
    /\ Wire.holds (mainChannel (client_channels client))
         (fun fs =>
            Wire.outbound fs
            = Wire.keepalives before ++ Wire.frame tagMain
                ++ Wire.keepalives after) env'
    /\ Wire.holds (notebookUpdatesChannel (client_channels client))
         (fun fs =>
            Wire.outbound fs
            = Wire.keepalives before' ++ Wire.frame tagUpdates
                ++ Wire.keepalives after') env'.
Proof.
  intros Hnet FA FB EM EU MM MU Hfuel.
  unfold connectClient.
  (* the main connection *)
  unfold ZIO.flatMap at 1.
  rewrite (open_framed env channelA (inr channelB :: later) Hnet).
  set (env1 := Env.set_sockets _ _).
  assert (H1 : Wire.holds (length (Env.sockets env))
                 (Wire.sendingAfter []) env1).
  { apply holds_newSocket_new. apply fresh_sendingAfter. exact FA. }
  assert (N1 : Env.network env1 = inr channelB :: later) by reflexivity.
  assert (L1 : length (Env.sockets env1) = S (length (Env.sockets env))).
  { subst env1. cbn [Env.sockets Env.set_sockets].
    rewrite length_app. simpl. lia. }
  remember (length (Env.sockets env)) as main eqn:Hmain.
  (* first preemption point *)
  unfold ZIO.flatMap at 1.
  destruct (yield_frame env1) as (Y & YL & YN & _). rewrite Y. clear Y.
  apply (yield_holds main _ env1 (sendingAfter_stable [])) in H1.
  set (env2 := snd (Env.yield env1)) in *.
  rewrite N1 in YN. rewrite L1 in YL.
  (* the connection of the updates *)
  unfold ZIO.flatMap at 1.
  rewrite (open_framed env2 channelB later YN). rewrite YL.
  set (env3 := Env.set_sockets _ _).
  assert (H3 : Wire.holds main (Wire.sendingAfter []) env3).
  { apply holds_newSocket_old. exact H1. }
  assert (U3 : Wire.holds (S main) (Wire.sendingAfter []) env3).
  { rewrite <- YL. apply holds_newSocket_new. apply fresh_sendingAfter.
    exact FB. }
  (* second preemption point *)
  unfold ZIO.flatMap at 1.
  destruct (yield_frame env3) as (Y & _). rewrite Y. clear Y.
  apply (yield_holds main _ env3 (sendingAfter_stable [])) in H3.
  apply (yield_holds (S main) _ env3 (sendingAfter_stable [])) in U3.
  set (env4 := snd (Env.yield env3)) in *.
  (* the tag of the main channel *)
  unfold ZIO.flatMap at 1. unfold ZIO.flatMap at 1.
  rewrite EM. cbn [fromEither ZIO.succeed].
  destruct (onSocket_write fuel tagMain [] main env4 Hfuel MM H3)
    as (k1 & env5 & W5 & H5 & _ & _ & _ & O5).
  rewrite W5. cbn [app] in H5.
  apply (O5 (S main)) in U3; [|lia].
  (* third preemption point *)
  unfold ZIO.flatMap at 1.
  destruct (yield_frame env5) as (Y & _). rewrite Y. clear Y.
  apply (yield_holds main _ env5 (sendingAfter_stable _)) in H5.
  apply (yield_holds (S main) _ env5 (sendingAfter_stable [])) in U3.
  set (env6 := snd (Env.yield env5)) in *.
  (* the tag of the channel of the updates *)
  unfold ZIO.flatMap at 1. unfold ZIO.flatMap at 1.
  rewrite EU. cbn [fromEither ZIO.succeed].
  destruct (onSocket_write fuel tagUpdates [] (S main) env6 Hfuel MU U3)
    as (k2 & env7 & W7 & U7 & _ & _ & _ & O7).
  rewrite W7. cbn [app] in U7.
  apply (O7 main) in H5; [|lia].
  (* fourth preemption point *)
  unfold ZIO.flatMap at 1.
  destruct (yield_frame env7) as (Y & _). rewrite Y. clear Y.
  apply (yield_holds main _ env7 (sendingAfter_stable _)) in H5.
  apply (yield_holds (S main) _ env7 (sendingAfter_stable _)) in U7.
  set (env8 := snd (Env.yield env7)) in *.
  (* the client *)
  cbv zeta. unfold SocketTransportClient_apply, ZIO.flatMap, Env.newPromise,
    ZIO.succeed.
  destruct H5 as (sm & Hsm & _ & _ & a1 & Om).
  destruct U7 as (su & Hsu & _ & _ & a2 & Ou).
  eexists. eexists. exists k1, a1, k2, a2.
  split; [reflexivity|].
  cbn [client_channels mainChannel notebookUpdatesChannel].
  split.
  - exists sm. split; [exact Hsm|]. rewrite Om, <- app_assoc. reflexivity.
  - exists su. split; [exact Hsu|]. rewrite Ou, <- app_assoc. reflexivity.
Qed.

End ConnectClient.

Lemma connectClient_tag_after_keepalives_only_witness :
  exists client env' before after before' after',
    SocketTransport.connectClient Examples.encodeRole 2 Examples.localhost
      (Examples.connecting [[0]; [1; 0]; []; [0; 1; 1]])
    = (Success client, env')
    /\ Wire.holds
         (SocketTransport.mainChannel
            (SocketTransport.client_channels client))
         (fun fs =>
            Wire.outbound fs
            = Wire.keepalives before ++ Wire.frame [x00]
                ++ Wire.keepalives after) env'
    /\ Wire.holds
         (SocketTransport.notebookUpdatesChannel
            (SocketTransport.client_channels client))
         (fun fs =>
            Wire.outbound fs
            = Wire.keepalives before' ++ Wire.frame [x01]
                ++ Wire.keepalives after') env'.
Proof.
  apply (connectClient_tag_after_keepalives_only Examples.encodeRole 2
           Examples.localhost
           (Examples.connecting [[0]; [1; 0]; []; [0; 1; 1]])
           (SocketChannel.mk true [] [] SocketChannel.Silent [] [])
           (SocketChannel.mk true [] [] SocketChannel.Silent [] [])
           [] [x00] [x01]).
  - reflexivity.
  - repeat split.
  - repeat split.
  - reflexivity.
  - reflexivity.
  - simpl. lia.
  - simpl. lia.
  - lia.
Defined.

(** C9 as stated fails: with the keepalive fiber of the main socket
    scheduled once before the tag is written, a keepalive frame precedes
    the tag on the wire, and the first frame that the peer reads is that
    keepalive. *)
Lemma keepalive_precedes_tag :
  let run :=
    SocketTransport.connectClient Examples.encodeRole 2 Examples.localhost
      (Examples.connecting [[0]]) in
  (exists client, fst run = Success client)
  /\ map Wire.outbound (Env.sockets (snd run))
     = [intBytes 0 ++ Wire.frame [x00]; Wire.frame [x01]]
  /\ (forall rest,
        nth 0 (map Wire.outbound (Env.sockets (snd run))) []
        <> Wire.frame [x00] ++ rest)
  /\ fst (FramedSocket.read 10
            (Examples.socket
               (nth 0 (map Wire.outbound (Env.sockets (snd run))) []) []))
     = Success (Some None).
Proof.
  cbv zeta. split; [eexists; reflexivity|]. split; [reflexivity|].
  split; [|reflexivity].
  intros rest E. vm_compute in E. discriminate E.
Qed.

Section Streams.

(** More steps do not change a run that is over. *)
Lemma runFrom_more_steps {W A} (s : Stream.t W A) (fuel : nat) :
  forall (steps : nat) (st : Stream.state s) (w w' : W) (out : list A)
         (ending : Stream.Ending),
    Stream.runFrom s steps fuel st w = (out, ending, w') ->
    ending <> Stream.Running ->
    forall more, Stream.runFrom s (steps + more) fuel st w = (out, ending, w').
Proof.
  induction steps as [|steps IH]; intros st w w' out ending E Hr more.
  - simpl in E. injection E as <- <- <-. congruence.
  - cbn [Stream.runFrom Nat.add] in *.
    destruct (Stream.pull s fuel st w) as [[a st'|st'| |e|] w1];
      try exact E.
    + destruct (Stream.runFrom s steps fuel st' w1) as [[out1 e1] w2] eqn:R.
      injection E as <- <- <-.
      rewrite (IH st' w1 w2 out1 e1 R Hr more). reflexivity.
    + apply IH; assumption.
Qed.

Lemma runFrom_steps_le {W A} (s : Stream.t W A) (fuel steps steps' : nat)
  (st : Stream.state s) (w w' : W) (out : list A) (ending : Stream.Ending) :
  Stream.runFrom s steps fuel st w = (out, ending, w') ->
  ending <> Stream.Running ->
  steps <= steps' ->
  Stream.runFrom s steps' fuel st w = (out, ending, w').
Proof.
  intros E Hr Hle. replace steps' with (steps + (steps' - steps)) by lia.
  apply runFrom_more_steps; assumption.
Qed.

End Streams.

Section Requests.

Import SocketTransport.

Variable RemoteRequest : Type.
Variable decodeRequests : list byte -> list RemoteRequest * option Throwable.
Variable isShutdownRequest : RemoteRequest -> bool.
Variable client : SocketTransportClient.

Local Abbreviation main := (mainChannel (client_channels client)).
Local Abbreviation reqs := (requests decodeRequests isShutdownRequest client).
Local Abbreviation requestsState :=
  (SocketTransport.requestsState decodeRequests isShutdownRequest client).

Lemma requests_pull_pending (fuel : nat) (r : RemoteRequest)
  (pending : list RemoteRequest) (err : option Throwable) (env : Env.t) :
  Stream.pull reqs fuel (requestsState (r :: pending) err false) env
  = (Stream.Emit r (requestsState pending err (isShutdownRequest r)), env).
Proof. reflexivity. Qed.

Lemma requests_pull_finished (fuel : nat) (pending : list RemoteRequest)
  (err : option Throwable) (env : Env.t) :
  Stream.pull reqs fuel (requestsState pending err true) env
  = (Stream.Done, env).
Proof. reflexivity. Qed.

(** With nothing pending, a pull of [requests] is a [read()] on the main
    channel. *)
Lemma requests_pull_read (fuel : nat) (env : Env.t) (fs : FramedSocket.t) :
  nth_error (Env.sockets env) main = Some fs ->
  Stream.pull reqs fuel (requestsState [] None false) env
  = match FramedSocket.read fuel fs with
    | (Success (Some (Some buf)), fs') =>
        (Stream.Skip
           (tt, decodeRequests (FramedSocket.BitVector_view buf), false),
         Env.set_sockets (Env.update main fs' (Env.sockets env)) env)
    | (Success (Some None), fs') =>
        (Stream.Skip (requestsState [] None false),
         Env.set_sockets (Env.update main fs' (Env.sockets env)) env)
    | (Success None, fs') =>
        (Stream.Done,
         Env.set_sockets (Env.update main fs' (Env.sockets env)) env)
    | (Failure e, fs') =>
        (Stream.Done,
         Env.set_sockets
           (Env.update main
              (FramedSocket.set_closed
                 (Promise.fail e (FramedSocket.closed fs')) fs')
              (Env.sockets env)) env)
    | (NoReturn, fs') =>
        (Stream.Stall,
         Env.set_sockets (Env.update main fs' (Env.sockets env)) env)
    end.
Proof.
  intros Hn. unfold requests, requestStream, SocketTransport.requestsState.
  cbn [Stream.pull Stream.terminateAfter Stream.through_decode Env.streamOf
       Stream.init fst snd].
  rewrite Hn. rewrite bitVectors_pull.
  destruct (FramedSocket.read fuel fs) as [[[[buf|]|]|e|] fs']; reflexivity.
Qed.

(** The values pending are delivered first, in order. *)
Lemma requests_deliver_pending (fuel : nat) (pending : list RemoteRequest) :
  forall (steps : nat) (more : list RemoteRequest) (err : option Throwable)
         (env : Env.t),
    Wire.noShutdown isShutdownRequest pending ->
    Stream.runFrom reqs (length pending + steps) fuel
      (requestsState (pending ++ more) err false) env
    = let '(out, ending, env') :=
        Stream.runFrom reqs steps fuel (requestsState more err false) env in
      (pending ++ out, ending, env').
Proof.
  induction pending as [|r pending IH]; intros steps more err env Hp.
  - cbn [length Nat.add app].
    destruct (Stream.runFrom reqs steps fuel _ env) as [[out e] env'].
    reflexivity.
  - unfold Wire.noShutdown in Hp. cbn [forallb] in Hp.
    apply andb_true_iff in Hp. destruct Hp as [Hr Hp].
    cbn [length Nat.add app Stream.runFrom].
    rewrite requests_pull_pending.
    apply negb_true_iff in Hr. rewrite Hr.
    rewrite (IH steps more err env Hp).
    destruct (Stream.runFrom reqs steps fuel _ env) as [[out e] env'].
    reflexivity.
Qed.

Lemma requests_deliver_all_pending (fuel : nat)
  (pending : list RemoteRequest) (steps : nat) (err : option Throwable)
  (env : Env.t) :
  Wire.noShutdown isShutdownRequest pending ->
  Stream.runFrom reqs (length pending + steps) fuel
    (requestsState pending err false) env
  = let '(out, ending, env') :=
      Stream.runFrom reqs steps fuel (requestsState [] err false) env in
    (pending ++ out, ending, env').
Proof.
  intros Hp.
  rewrite <- (requests_deliver_pending fuel pending steps [] err env Hp).
  rewrite app_nil_r. reflexivity.
Qed.

(** The frame of the [ShutdownRequest], once decoded: the requests in front
    of it and the [ShutdownRequest] are delivered, and the stream ends
    there, with the main channel not read again. *)
Lemma requests_deliver_shutdown (fuel : nat)
  (pre post : list RemoteRequest) (sd : RemoteRequest)
  (err : option Throwable) (env : Env.t) :
  Wire.noShutdown isShutdownRequest pre ->
  isShutdownRequest sd = true ->
  Stream.runFrom reqs (length pre + 2) fuel
    (requestsState (pre ++ sd :: post) err false) env
  = (pre ++ [sd], Stream.Completed, env).
Proof.
  intros Hp Hs.
  rewrite (requests_deliver_pending fuel pre 2 (sd :: post) err env Hp).
  cbn [Stream.runFrom]. rewrite requests_pull_pending, Hs.
  rewrite requests_pull_finished. reflexivity.
Qed.


Lemma onlyChanged_refl (ref : nat) (env : Env.t) : Wire.onlyChanged ref env env.
Proof. unfold Wire.onlyChanged. repeat split; auto. Qed.

Lemma onlyChanged_update (ref : nat) (env env' : Env.t) (fs : FramedSocket.t) :
  Wire.onlyChanged ref env env' ->
  Wire.onlyChanged ref env
    (Env.set_sockets (Env.update ref fs (Env.sockets env')) env').
Proof.
  intros (P & S & L & R). split; [exact P|]. split; [|split; [|exact R]].
  - intros ref' Ne. cbn [Env.sockets Env.set_sockets].
    rewrite nth_error_update_other by congruence. apply S. exact Ne.
  - cbn [Env.sockets Env.set_sockets]. rewrite update_length. exact L.
Qed.

Lemma requests_run_to_shutdown (fuel : nat)
  (shutdownFrame rest : list byte) (pre post : list RemoteRequest)
  (sd : RemoteRequest) (err : option Throwable) :
  1 <= length shutdownFrame ->
  (Z.of_nat (length shutdownFrame) <= 2 ^ 31 - 1)%Z ->
  decodeRequests shutdownFrame = (pre ++ sd :: post, err) ->
  Wire.noShutdown isShutdownRequest pre ->
  isShutdownRequest sd = true ->
  forall (before : list (list byte)) (env0 env : Env.t) (fs : FramedSocket.t)
         (pending : list RemoteRequest),
    Wire.onlyChanged main env0 env ->
    nth_error (Env.sockets env) main = Some fs ->
    FramedSocket.isConnected fs = true ->
    Wire.allocated fs = true ->
    Forall (fun p => (Z.of_nat (length p) <= 2 ^ 31 - 1)%Z) before ->
    Forall (Wire.plainRequests decodeRequests isShutdownRequest)
      (Wire.payloads before) ->
    Wire.inbound fs
    = flat_map Wire.frame before ++ Wire.frame shutdownFrame ++ rest ->
    Wire.noShutdown isShutdownRequest pending ->
    length (Wire.chunks fs) + length (Wire.inbound fs) + 4 < fuel ->
    exists steps env',
      Stream.runFrom reqs steps fuel (requestsState pending None false) env
      = (pending
           ++ flat_map (fun p => fst (decodeRequests p)) (Wire.payloads before)
           ++ pre ++ [sd],
         Stream.Completed, env')
      /\ Wire.holds main (fun fs' => Wire.inbound fs' = rest) env'
      /\ Wire.onlyChanged main env0 env'.
Proof.
  intros Hlen Hmax Hdec Hpre Hsd.
  induction before as [|p before IH];
    intros env0 env fs pending Hch Hn Ho Ha Hsz Hplain Hi Hpend Hfuel.
  - (* the frame of the ShutdownRequest is next *)
    cbn [flat_map app] in Hi. unfold Wire.frame in Hi.
    rewrite <- (toInt_id (Z.of_nat (length shutdownFrame))) in Hi by lia.
    assert (Hl : length (Wire.inbound fs) = 4 + length shutdownFrame
                                            + length rest).
    { rewrite Hi, !length_app. simpl. lia. }
    destruct (frame_read_back fuel shutdownFrame rest fs Hmax Ho Ha Hi)
      as (fs1 & R & I1 & _); [lia|].
    replace (length shutdownFrame =? 0) with false in R
      by (symmetry; apply Nat.eqb_neq; lia).
    exists (length pending + (1 + (length pre + 2))). eexists.
    rewrite (requests_deliver_all_pending fuel pending _ None env Hpend).
    cbn [Nat.add Stream.runFrom].
    rewrite (requests_pull_read fuel env fs Hn), R.
    change (FramedSocket.BitVector_view (ByteBuffer.wrap shutdownFrame))
      with shutdownFrame.
    rewrite Hdec.
    pose proof (requests_deliver_shutdown fuel pre post sd err
                  (Env.set_sockets (Env.update main fs1 (Env.sockets env)) env)
                  Hpre Hsd) as D.
    unfold SocketTransport.requestsState in D.
    rewrite D.
    cbn [Wire.payloads filter flat_map app].
    split; [reflexivity|]. split.
    + exists fs1. split; [|exact I1].
      apply nth_error_update_same. apply nth_error_Some. congruence.
    + apply onlyChanged_update. exact Hch.
  - (* a frame in front of it *)
    inversion Hsz as [|? ? Hp Hsz']; subst.
    assert (Hs : toInt (Z.of_nat (length p)) = Z.of_nat (length p))
      by (apply toInt_id; lia).
    assert (Hi' : Wire.inbound fs
                  = (intBytes (toInt (Z.of_nat (length p))) ++ p)
                      ++ (flat_map Wire.frame before
                            ++ Wire.frame shutdownFrame ++ rest)).
    { rewrite Hi. cbn [flat_map]. unfold Wire.frame at 1.
      rewrite Hs, <- !app_assoc. reflexivity. }
    assert (Hl : length (Wire.inbound fs)
                 = 4 + length p
                   + length (flat_map Wire.frame before
                               ++ Wire.frame shutdownFrame ++ rest)).
    { rewrite Hi', !length_app. simpl. lia. }
    destruct (frame_read_back fuel p _ fs Hp Ho Ha Hi')
      as (fs1 & R & I1 & Ho1 & Ha1 & Hc1 & _); [lia|].
    set (env1 := Env.set_sockets (Env.update main fs1 (Env.sockets env)) env).
    assert (Hn1 : nth_error (Env.sockets env1) main = Some fs1).
    { apply nth_error_update_same. apply nth_error_Some. congruence. }
    assert (Hch1 : Wire.onlyChanged main env0 env1)
      by (apply onlyChanged_update; exact Hch).
    assert (Hf1 : length (Wire.chunks fs1) + length (Wire.inbound fs1) + 4
                  < fuel) by (rewrite I1; lia).
    unfold Wire.payloads in Hplain |- *. cbn [filter] in Hplain |- *.
    destruct (length p =? 0) eqn:Ez; cbn [negb] in Hplain |- *.
    + (* a keepalive *)
      destruct (IH env0 env1 fs1 [] Hch1 Hn1 Ho1 Ha1 Hsz' Hplain I1 eq_refl Hf1)
        as (steps & env' & Run & Hh & Hc).
      exists (length pending + S steps), env'.
      rewrite (requests_deliver_all_pending fuel pending _ None env Hpend).
      cbn [Stream.runFrom].
      rewrite (requests_pull_read fuel env fs Hn), R. fold env1.
      rewrite Run.
      cbn [app]. split; [reflexivity|]. split; assumption.
    + (* a frame of requests *)
      inversion Hplain as [|? ? [Pe Pn] Hplain']; subst.
      destruct (IH env0 env1 fs1 (fst (decodeRequests p)) Hch1 Hn1 Ho1 Ha1
                  Hsz' Hplain' I1 Pn Hf1)
        as (steps & env' & Run & Hh & Hc).
      exists (length pending + S steps), env'.
      rewrite (requests_deliver_all_pending fuel pending _ None env Hpend).
      cbn [Stream.runFrom].
      rewrite (requests_pull_read fuel env fs Hn), R. fold env1.
      change (FramedSocket.BitVector_view (ByteBuffer.wrap p)) with p.
      cbn [flat_map].
      destruct (decodeRequests p) as [ds de] eqn:Ed.
      cbn [fst snd] in *. subst de.
      unfold SocketTransport.requestsState in Run. rewrite Run.
      rewrite <- !app_assoc.
      split; [reflexivity|]. split; assumption.
Qed.

End Requests.

Section ClientStreams.

Import SocketTransport.

Variables RemoteRequest NotebookUpdate : Type.
Variable decodeRequests : list byte -> list RemoteRequest * option Throwable.
Variable decodeUpdates : list byte -> list NotebookUpdate * option Throwable.
Variable isShutdownRequest : RemoteRequest -> bool.
Variable client : SocketTransportClient.

Local Abbreviation main := (mainChannel (client_channels client)).
Local Abbreviation upd := (notebookUpdatesChannel (client_channels client)).
Local Abbreviation reqs := (requests decodeRequests isShutdownRequest client).
Local Abbreviation upds := (updates decodeUpdates client).

(** Once the closed latch of the client is completed, the next pull ends
    [updates]. *)
Lemma updates_end_on_latch (steps fuel : nat) (st : Stream.state upds)
  (env : Env.t) :
  Promise.isDone (Env.promise (client_closed client) env) = true ->
  Stream.runFrom upds (S steps) fuel st env = ([], Stream.Completed, env).
Proof.
  intros Hd. cbn [Stream.runFrom]. unfold updates.
  cbn [Stream.pull Stream.interruptAndIgnoreWhen]. rewrite Hd. reflexivity.
Qed.

(** A pull of [updates] does the same in two environments that differ in
    the socket of the main channel only. *)
Lemma updates_pull_related (fuel : nat) (st : Stream.state upds)
  (env env' : Env.t) :
  main <> upd ->
  Wire.onlyChanged main env env' ->
  fst (Stream.pull upds fuel st env') = fst (Stream.pull upds fuel st env)
  /\ Wire.onlyChanged main (snd (Stream.pull upds fuel st env))
       (snd (Stream.pull upds fuel st env')).
Proof.
  intros Ne (P & S & L & Rest).
  unfold updates, updateStream.
  cbn [Stream.pull Stream.interruptAndIgnoreWhen Stream.through_decode
       Env.streamOf Stream.init].
  unfold Env.promise. rewrite P.
  assert (Same : Wire.onlyChanged main env env')
    by (split; [exact P|split; [exact S|split; [exact L|exact Rest]]]).
  destruct (Promise.isDone (nth (client_closed client) (Env.promises env)
                              Promise.Pending)).
  { split; [reflexivity|exact Same]. }
  destruct st as [st0 [[|u pending] [e|]]]; cbn [fst snd];
    try (split; [reflexivity|exact Same]).
  rewrite (S upd) by congruence.
  destruct (nth_error (Env.sockets env) upd) as [fs|] eqn:En;
    [|split; [reflexivity|exact Same]].
  assert (Bu : upd < length (Env.sockets env))
    by (apply nth_error_Some; congruence).
  destruct (Stream.pull FramedSocket.bitVectors fuel st0 fs)
    as [[b st1|st1| |e|] fs'];
    (split; [reflexivity|]); cbn [snd];
    (split; [exact P|]);
    (split;
     [intros ref Hr; cbn [Env.sockets Env.set_sockets];
      (destruct (Nat.eq_dec ref upd) as [->|Nu];
       [rewrite !nth_error_update_same by (rewrite ?L; exact Bu); reflexivity
       |rewrite !nth_error_update_other by congruence; apply S; exact Hr])
     |split;
      [cbn [Env.sockets Env.set_sockets]; rewrite !update_length; exact L
      |exact Rest]]).
Qed.

Lemma updates_run_related (fuel : nat) :
  forall (steps : nat) (st : Stream.state upds) (env env' : Env.t),
    main <> upd ->
    Wire.onlyChanged main env env' ->
    fst (Stream.runFrom upds steps fuel st env')
    = fst (Stream.runFrom upds steps fuel st env).
Proof.
  induction steps as [|steps IH]; intros st env env' Ne R; [reflexivity|].
  cbn [Stream.runFrom].
  destruct (updates_pull_related fuel st env env' Ne R) as [E R'].
  destruct (Stream.pull upds fuel st env') as [r' e1'].
  destruct (Stream.pull upds fuel st env) as [r e1].
  cbn [fst snd] in E, R'. subst r'.
  destruct r as [a st'|st'| |e|]; try reflexivity.
  - specialize (IH st' e1 e1' Ne R').
    destruct (Stream.runFrom upds steps fuel st' e1') as [[o1 x1] w1].
    destruct (Stream.runFrom upds steps fuel st' e1) as [[o2 x2] w2].
    cbn [fst] in *. congruence.
  - apply IH; assumption.
Qed.

End ClientStreams.

Section Identify.

Import SocketTransport.

(** A keepalive leaves the input side of a socket alone. *)
Lemma writeSize_input (size : Z) (fs : FramedSocket.t) :
  SocketChannel.isOpen (FramedSocket.socketChannel fs) = true ->
  forallb Wire.noFault
    (SocketChannel.writeFaults (FramedSocket.socketChannel fs)) = true ->
  Wire.inbound (snd (FramedSocket.writeSize size fs)) = Wire.inbound fs
  /\ Wire.chunks (snd (FramedSocket.writeSize size fs)) = Wire.chunks fs
  /\ SocketChannel.atEnd
       (FramedSocket.socketChannel (snd (FramedSocket.writeSize size fs)))
     = SocketChannel.atEnd (FramedSocket.socketChannel fs).
Proof.
  intros Ho Hf. destruct fs as [ch cl inl outl lock ka].
  cbn [FramedSocket.socketChannel] in *.
  destruct (channel_write_ok ch
              (ByteBuffer.putInt0 (ByteBuffer.rewind outl) size) Ho Hf)
    as [E _].
  unfold FramedSocket.writeSize, ZIO.flatMap, ZIO.modify, ZIO.get,
    FramedSocket.onChannel, ZIO.zoom.
  cbn [FramedSocket.socketChannel FramedSocket.set_outgoingLengthBuffer
       FramedSocket.outgoingLengthBuffer].
  rewrite E. repeat split.
Qed.

Lemma keepaliveRound_input (fs : FramedSocket.t) :
  Wire.writable fs = true ->
  Wire.inbound (snd (FramedSocket.keepaliveRound fs)) = Wire.inbound fs
  /\ Wire.chunks (snd (FramedSocket.keepaliveRound fs)) = Wire.chunks fs
  /\ SocketChannel.atEnd
       (FramedSocket.socketChannel (snd (FramedSocket.keepaliveRound fs)))
     = SocketChannel.atEnd (FramedSocket.socketChannel fs).
Proof.
  intros Hw.
  destruct (writable_parts fs Hw) as (Ho & Hf & permits & Hl).
  unfold FramedSocket.keepaliveRound, ZIO.flatMap, ZIO.get.
  destruct (FramedSocket.keepaliveFiber fs); [|repeat split].
  set (fs0 := FramedSocket.set_writeLock permits fs).
  pose proof (writeSize_input 0 fs0 Ho Hf) as I.
  unfold ZIO.tapError, FramedSocket.sendKeepalive, ZIO.bracket,
    FramedSocket.writeLock_tryAcquire, ZIO.zoom, Semaphore.tryAcquire.
  rewrite Hl. fold fs0.
  destruct (FramedSocket.writeSize 0 fs0) as [[u|e|] fs1];
    cbn [snd] in I |- *; exact I.
Qed.

Lemma awaiting_stable (bytes : list byte) (bound : nat) :
  Wire.stable (Wire.awaiting bytes bound).
Proof.
  intros fs (Hw & Ha & Hi & Hc).
  destruct (keepaliveRound_ok fs Hw Ha) as (fs' & E & _ & Hw' & Ha').
  destruct (keepaliveRound_input fs Hw) as (I & C & _).
  rewrite E in *. cbn [snd] in *.
  split; [exact Hw'|]. split; [exact Ha'|]. split; congruence.
Qed.

Lemma atEndOfStream_stable : Wire.stable Wire.atEndOfStream.
Proof.
  intros fs (Hw & Ha & Hi & He).
  destruct (keepaliveRound_ok fs Hw Ha) as (fs' & E & _ & Hw' & Ha').
  destruct (keepaliveRound_input fs Hw) as (I & _ & A).
  rewrite E in *. cbn [snd] in *.
  split; [exact Hw'|]. split; [exact Ha'|]. split; congruence.
Qed.

Lemma onSocket_holds_other {A} (ref ref' : nat) (m : ZIO FramedSocket.t A)
  (P : FramedSocket.t -> Prop) (env : Env.t) :
  ref' <> ref ->
  Wire.holds ref' P env -> Wire.holds ref' P (snd (Env.onSocket ref m env)).
Proof.
  intros Ne (fs' & Hn & HP). unfold Env.onSocket.
  destruct (nth_error (Env.sockets env) ref) as [fs|];
    [|exists fs'; auto].
  destruct (m fs) as [r fs1]. exists fs'. split; [|exact HP].
  cbn [snd Env.sockets Env.set_sockets].
  rewrite nth_error_update_other by congruence. exact Hn.
Qed.

Lemma keepalives_plus_one (k : nat) (bytes : list byte) :
  Wire.keepalives (S k) ++ bytes
  = (intBytes (toInt (Z.of_nat (@length byte []))) ++ [])
      ++ Wire.keepalives k ++ bytes.
Proof.
  unfold Wire.keepalives. cbn [repeat concat].
  rewrite app_nil_r, <- app_assoc. reflexivity.
Qed.

(** The reads of [identify] skip the keepalive frames and return the first
    frame with a payload, however the keepalive fibers are scheduled. *)
Lemma repeat_read_skips_keepalives (f : nat) (channel : nat)
  (tag rest : list byte) (bound : nat) :
  1 <= length tag ->
  (Z.of_nat (length tag) <= 2 ^ 31 - 1)%Z ->
  bound + 4 + length tag < f ->
  forall (k n : nat) (env : Env.t),
    Wire.holds channel
      (Wire.awaiting (Wire.keepalives k ++ Wire.frame tag ++ rest) bound) env ->
    k < n ->
    exists env',
      repeat_doUntil n (Env.onSocket channel (FramedSocket.read f)) isPayload
        env
      = (Success (Some (Some (ByteBuffer.wrap tag))), env')
      /\ Wire.holds channel (Wire.awaiting rest bound) env'
      /\ (forall channel' P,
            channel' <> channel -> Wire.stable P ->
            Wire.holds channel' P env -> Wire.holds channel' P env').
Proof.
  intros Hlen Hmax Hf.
  induction k as [|k IH]; intros n env (fs & Hn & Hw & Ha & Hi & Hc) Hk;
    (destruct n as [|n]; [lia|]); cbn [repeat_doUntil];
    destruct (writable_parts fs Hw) as (Ho & _).
  - (* the frame of the tag *)
    unfold Wire.keepalives in Hi. cbn [repeat concat app] in Hi.
    unfold Wire.frame in Hi.
    rewrite <- (toInt_id (Z.of_nat (length tag))) in Hi by lia.
    destruct (frame_read_back f tag rest fs Hmax Ho Ha Hi)
      as (fs1 & R & I1 & _ & Ha1 & Hc1 & _ & _ & Hw1); [lia|].
    replace (length tag =? 0) with false in R
      by (symmetry; apply Nat.eqb_neq; lia).
    unfold ZIO.flatMap, Env.onSocket. rewrite Hn, R. cbn [isPayload].
    eexists. split; [reflexivity|]. split.
    + exists fs1. split.
      * apply nth_error_update_same. apply nth_error_Some. congruence.
      * split; [congruence|]. split; [exact Ha1|]. split; [exact I1|lia].
    + intros channel' P Ne _ (fs' & Hn' & HP). exists fs'.
      split; [|exact HP]. cbn [Env.sockets Env.set_sockets].
      rewrite nth_error_update_other by congruence. exact Hn'.
  - (* a keepalive in front of it *)
    rewrite keepalives_plus_one in Hi.
    destruct (frame_read_back f [] _ fs ltac:(simpl; lia) Ho Ha Hi)
      as (fs1 & R & I1 & _ & Ha1 & Hc1 & _ & _ & Hw1); [simpl; lia|].
    cbn [length Nat.eqb] in R.
    unfold ZIO.flatMap at 1. unfold Env.onSocket at 1. rewrite Hn, R.
    cbn [isPayload]. unfold ZIO.flatMap at 1.
    set (env1 := Env.set_sockets (Env.update channel fs1 (Env.sockets env)) env).
    assert (H1 : Wire.holds channel
                   (Wire.awaiting
                      (Wire.keepalives k ++ Wire.frame tag ++ rest) bound)
                   env1).
    { exists fs1. split.
      - apply nth_error_update_same. apply nth_error_Some. congruence.
      - split; [congruence|]. split; [exact Ha1|]. split; [exact I1|lia]. }
    destruct (yield_frame env1) as (Y & _). rewrite Y.
    apply (yield_holds channel _ env1 (awaiting_stable _ bound)) in H1.
    destruct (IH n (snd (Env.yield env1)) H1) as (env' & E & Hh & Ho'); [lia|].
    exists env'. split; [exact E|]. split; [exact Hh|].
    intros channel' P Ne St H. apply Ho'; try assumption.
    apply yield_holds; [exact St|].
    destruct H as (fs' & Hn' & HP). exists fs'. split; [|exact HP].
    subst env1. cbn [Env.sockets Env.set_sockets].
    rewrite nth_error_update_other by congruence. exact Hn'.
Qed.

Variable decodeBuffer : ByteBuffer.t -> Throwable + IdentifyChannel.

(** [identify] on a socket whose input is keepalive frames and then the
    frame of a tag. *)
Lemma identify_reads_tag (fuel : nat) (channel : nat) (k bound : nat)
  (tag rest : list byte) (role : IdentifyChannel) (env : Env.t) :
  1 <= length tag ->
  (Z.of_nat (length tag) <= 2 ^ 31 - 1)%Z ->
  decodeBuffer (ByteBuffer.wrap tag) = inr role ->
  Wire.holds channel
    (Wire.awaiting (Wire.keepalives k ++ Wire.frame tag ++ rest) bound) env ->
  k < fuel ->
  bound + 4 + length tag < fuel ->
  exists env',
    identify decodeBuffer fuel channel env = (Success role, env')
    /\ Wire.holds channel (Wire.awaiting rest bound) env'
    /\ (forall channel' P,
          channel' <> channel -> Wire.stable P ->
          Wire.holds channel' P env -> Wire.holds channel' P env').
Proof.
  intros Hlen Hmax Hdec Hh Hk Hf.
  destruct (repeat_read_skips_keepalives fuel channel tag rest bound
              Hlen Hmax Hf k fuel env Hh Hk) as (env' & E & H1 & H2).
  exists env'. split; [|split; assumption].
  unfold identify, ZIO.flatMap. rewrite E. rewrite Hdec. reflexivity.
Qed.

(** C4.  If the first frame with a payload on [channel1] decodes to
    [MainChannel] and the one on [channel2] to [NotebookUpdatesChannel],
    [selectChannels] makes [channel1] the main channel and [channel2] the
    channel of the notebook updates; if the tags come the other way round
    the two are swapped: each role is bound to the socket that sent its
    tag, whatever keepalive frames precede the tags and however the
    keepalive fibers are scheduled. *)
Theorem selectChannels_binds_roles (fuel : nat) (channel1 channel2 : nat)
  (address : InetSocketAddress) (env : Env.t) (k1 k2 bound1 bound2 : nat)
  (tag1 tag2 rest1 rest2 : list byte) (role1 role2 : IdentifyChannel) :
  channel1 <> channel2 ->
  Wire.holds channel1
    (Wire.awaiting (Wire.keepalives k1 ++ Wire.frame tag1 ++ rest1) bound1)
    env ->
  Wire.holds channel2
    (Wire.awaiting (Wire.keepalives k2 ++ Wire.frame tag2 ++ rest2) bound2)
    env ->
  1 <= length tag1 ->
  1 <= length tag2 ->
  (Z.of_nat (length tag1) <= 2 ^ 31 - 1)%Z ->
  (Z.of_nat (length tag2) <= 2 ^ 31 - 1)%Z ->
  decodeBuffer (ByteBuffer.wrap tag1) = inr role1 ->
  decodeBuffer (ByteBuffer.wrap tag2) = inr role2 ->
  k1 < fuel ->
  k2 < fuel ->
  bound1 + 4 + length tag1 < fuel ->
  bound2 + 4 + length tag2 < fuel ->
  (role1 = MainChannel /\ role2 = NotebookUpdatesChannel ->
   fst (selectChannels decodeBuffer fuel channel1 channel2 address env)
   = Success (mkChannels channel1 channel2 address))
  /\ (role1 = NotebookUpdatesChannel /\ role2 = MainChannel ->
      fst (selectChannels decodeBuffer fuel channel1 channel2 address env)
      = Success (mkChannels channel2 channel1 address)).
Proof.
  intros Ne H1 H2 L1 L2 M1 M2 D1 D2 K1 K2 F1 F2.
  destruct (identify_reads_tag fuel channel1 k1 bound1 tag1 rest1 role1 env
              L1 M1 D1 H1 K1 F1) as (env1 & E1 & _ & O1).
  apply (O1 channel2) in H2;
    [|congruence|apply awaiting_stable].
  destruct (identify_reads_tag fuel channel2 k2 bound2 tag2 rest2 role2 env1
              L2 M2 D2 H2 K2 F2) as (env2 & E2 & _ & _).
  destruct (selectChannels_of_roles decodeBuffer fuel channel1 channel2
              address env env1 env2 role1 role2 E1 E2) as [A B].
  split; intros R; [rewrite (A R)|rewrite (B R)]; reflexivity.
Qed.

(** At the end of the stream [read()] returns [None], if it returns. *)
Lemma read_at_end_of_stream (f : nat) (fs : FramedSocket.t) :
  Wire.atEndOfStream fs ->
  fst (FramedSocket.read f fs) = NoReturn
  \/ exists fs',
       FramedSocket.read f fs = (Success None, fs')
       /\ Wire.atEndOfStream fs'.
Proof.
  intros (Hw & Ha & Hi & He).
  destruct f as [|f]; [left; reflexivity|right].
  destruct (writable_parts fs Hw) as (Ho & Hf & _).
  destruct (allocated_length_buffers fs Ha) as [Hin Hout].
  destruct fs as [[op inb cs ae out faults] cl [iarr ipos] outl lock ka].
  unfold Wire.inbound in Hi. cbn in Ho, Hi, He, Hin. subst op inb ae.
  destruct iarr as [|a0 [|a1 [|a2 [|a3 [|a4 iarr]]]]]; try discriminate Hin.
  eexists. split; [reflexivity|].
  unfold Wire.atEndOfStream. repeat split; assumption.
Qed.

(** The reads of [identify] on a socket at the end of its stream: every
    read returns [None], which is not a payload, and the next read is made;
    the loop does not end. *)
Lemma repeat_read_at_end_of_stream (f : nat) (channel : nat) :
  forall (n : nat) (env : Env.t),
    Wire.holds channel Wire.atEndOfStream env ->
    fst (repeat_doUntil n (Env.onSocket channel (FramedSocket.read f))
           isPayload env)
    = NoReturn.
Proof.
  induction n as [|n IH]; intros env (fs & Hn & He); [reflexivity|].
  cbn [repeat_doUntil]. unfold ZIO.flatMap at 1. unfold Env.onSocket at 1.
  rewrite Hn.
  destruct (read_at_end_of_stream f fs He) as [N|(fs' & R & He')].
  - destruct (FramedSocket.read f fs) as [[r|e|] fs1]; cbn [fst] in N;
      try discriminate N. reflexivity.
  - rewrite R. cbn [isPayload]. unfold ZIO.flatMap at 1.
    set (env1 := Env.set_sockets (Env.update channel fs' (Env.sockets env)) env).
    destruct (yield_frame env1) as (Y & _). rewrite Y.
    apply IH. apply yield_holds; [exact atEndOfStream_stable|].
    exists fs'. split; [|exact He'].
    apply nth_error_update_same. apply nth_error_Some. congruence.
Qed.

(** When the stream of a socket ends before a tag came, [identify] does
    not fail with [No buffer was received]: it does not return. *)
Lemma identify_at_end_of_stream (channel : nat) (env : Env.t) :
  Wire.holds channel Wire.atEndOfStream env ->
  forall fuel, fst (identify decodeBuffer fuel channel env) = NoReturn.
Proof.
  intros H fuel. unfold identify, ZIO.flatMap.
  pose proof (repeat_read_at_end_of_stream fuel channel fuel env H) as N.
  destruct (repeat_doUntil fuel _ isPayload env) as [[r|e|] env1];
    cbn [fst] in N; try discriminate N. reflexivity.
Qed.

End Identify.

Lemma selectChannels_binds_roles_witness :
  (NotebookUpdatesChannel = MainChannel
   /\ MainChannel = NotebookUpdatesChannel ->
   fst (SocketTransport.selectChannels Examples.decodeRole 10 0 1
          Examples.localhost
          (Examples.accepted (Wire.keepalives 1 ++ Wire.frame [x01] ++ [])
             (Wire.keepalives 0 ++ Wire.frame [x00] ++ [])))
   = Success (SocketTransport.mkChannels 0 1 Examples.localhost))
  /\ (NotebookUpdatesChannel = NotebookUpdatesChannel
      /\ MainChannel = MainChannel ->
      fst (SocketTransport.selectChannels Examples.decodeRole 10 0 1
             Examples.localhost
             (Examples.accepted (Wire.keepalives 1 ++ Wire.frame [x01] ++ [])
                (Wire.keepalives 0 ++ Wire.frame [x00] ++ [])))
      = Success (SocketTransport.mkChannels 1 0 Examples.localhost)).
Proof.
  apply (selectChannels_binds_roles Examples.decodeRole 10 0 1
           Examples.localhost
           (Examples.accepted (Wire.keepalives 1 ++ Wire.frame [x01] ++ [])
              (Wire.keepalives 0 ++ Wire.frame [x00] ++ []))
           1 0 0 0 [x01] [x00] [] []
           NotebookUpdatesChannel MainChannel).
  - discriminate.
  - eexists. split; [reflexivity|]. repeat split. simpl. lia.
  - eexists. split; [reflexivity|]. repeat split. simpl. lia.
  - simpl. lia.
  - simpl. lia.
  - simpl. lia.
  - simpl. lia.
  - reflexivity.
  - reflexivity.
  - lia.
  - lia.
  - simpl. lia.
  - simpl. lia.
Defined.

Section SocketInvariants.

Import FramedSocket.

(** The effects of the channel, and the loops made of them, leave the
    latch, the lock and the keepalive fiber alone. *)
Lemma onChannel_control {A} (m : ZIO SocketChannel.t A) (fs : FramedSocket.t) :
  Control.part (snd (onChannel m fs)) = Control.part fs.
Proof.
  unfold onChannel, ZIO.zoom. destruct (m (socketChannel fs)). reflexivity.
Qed.

Lemma readLength_control (fuel : nat) :
  forall fs, Control.part (snd (readLength fuel fs)) = Control.part fs.
Proof.
  induction fuel as [|fuel IH]; intros fs; [reflexivity|].
  rewrite readLength_S.
  destruct (ByteBuffer.hasRemaining (incomingLengthBuffer fs));
    [|reflexivity].
  pose proof (onChannel_control
                (SocketChannel.read (incomingLengthBuffer fs)) fs) as C.
  destruct (onChannel (SocketChannel.read (incomingLengthBuffer fs)) fs)
    as [[x|e|] fs1]; cbn [snd] in *; try exact C.
  destruct (fst x =? -1)%Z.
  - cbn [snd]. rewrite <- C. reflexivity.
  - rewrite IH. rewrite <- C. reflexivity.
Qed.

Lemma readMessage_control (fuel : nat) :
  forall msgBuffer fs,
    Control.part (snd (readMessage fuel msgBuffer fs)) = Control.part fs.
Proof.
  induction fuel as [|fuel IH]; intros msgBuffer fs; [reflexivity|].
  cbn [readMessage].
  destruct (ByteBuffer.hasRemaining msgBuffer); [|reflexivity].
  unfold ZIO.flatMap.
  pose proof (onChannel_control (SocketChannel.read msgBuffer) fs) as C.
  destruct (onChannel (SocketChannel.read msgBuffer) fs)
    as [[x|e|] fs1]; cbn [snd] in *; try exact C.
  rewrite IH. exact C.
Qed.

Lemma readBuffer_control (fuel : nat) (fs : FramedSocket.t) :
  Control.part (snd (readBuffer fuel fs)) = Control.part fs.
Proof.
  unfold readBuffer. unfold ZIO.flatMap at 1. unfold ZIO.modify at 1.
  set (fs0 := set_incomingLengthBuffer _ fs).
  change (Control.part fs) with (Control.part fs0).
  unfold ZIO.flatMap at 1.
  pose proof (readLength_control fuel fs0) as C.
  destruct (readLength fuel fs0) as [[full|e|] fs1]; cbn [snd] in *;
    try exact C.
  destruct full; cbn [negb]; [|exact C].
  unfold ZIO.flatMap at 1. unfold ZIO.get at 1.
  destruct (ByteBuffer.getInt0 (incomingLengthBuffer fs1) <? 0)%Z;
    [exact C|].
  destruct (ByteBuffer.getInt0 (incomingLengthBuffer fs1) =? 0)%Z;
    [exact C|].
  unfold ZIO.flatMap.
  pose proof (readMessage_control fuel
                (ByteBuffer.allocate
                   (Z.to_nat (ByteBuffer.getInt0 (incomingLengthBuffer fs1))))
                fs1) as M.
  destruct (readMessage fuel _ fs1) as [[b|e|] fs2];
    unfold ZIO.succeed; cbn [snd] in *; congruence.
Qed.

Lemma writeSize_control (size : Z) (fs : FramedSocket.t) :
  Control.part (snd (writeSize size fs)) = Control.part fs.
Proof.
  unfold writeSize, ZIO.flatMap, ZIO.modify, ZIO.get, onChannel, ZIO.zoom.
  cbn [socketChannel set_outgoingLengthBuffer outgoingLengthBuffer].
  destruct (SocketChannel.write _ (socketChannel fs)) as [[x|e|] ch'];
    reflexivity.
Qed.

Lemma writeRemaining_control (fuel : nat) :
  forall byteBuffer fs,
    Control.part (snd (writeRemaining fuel byteBuffer fs)) = Control.part fs.
Proof.
  induction fuel as [|fuel IH]; intros byteBuffer fs; [reflexivity|].
  cbn [writeRemaining].
  destruct (ByteBuffer.hasRemaining byteBuffer); [|reflexivity].
  unfold ZIO.flatMap.
  pose proof (onChannel_control (SocketChannel.write byteBuffer) fs) as C.
  destruct (onChannel (SocketChannel.write byteBuffer) fs)
    as [[x|e|] fs1]; cbn [snd] in *; try exact C.
  rewrite IH. exact C.
Qed.

(** The body of [write], between taking and giving back the lock. *)
Lemma write_body_control (fuel : nat) (msg : list byte) (fs : FramedSocket.t) :
  Control.part
    (snd ((writeSize (toInt (Z.of_nat (length msg)))
           *> writeRemaining fuel (ByteBuffer.wrap msg)) fs))
  = Control.part fs.
Proof.
  unfold ZIO.flatMap.
  pose proof (writeSize_control (toInt (Z.of_nat (length msg))) fs) as W.
  destruct (writeSize (toInt (Z.of_nat (length msg))) fs) as [[u|e|] fs1];
    cbn [snd] in *; try exact W.
  rewrite writeRemaining_control. exact W.
Qed.

(** What [close()] does, lock or no lock. *)
Lemma close_cases (fs : FramedSocket.t) :
  (writeLock fs = 0 /\ close fs = (NoReturn, fs))
  \/ (0 < writeLock fs
      /\ close fs
         = (Success tt,
            set_closed (Promise.succeed (closed fs))
              (set_socketChannel (SocketChannel.close (socketChannel fs)) fs))).
Proof.
  destruct (writeLock fs) as [|permits] eqn:Hl.
  - left. split; [reflexivity|].
    unfold close, ZIO.bracket, writeLock_acquire, ZIO.zoom, Semaphore.acquire.
    rewrite Hl. destruct fs. simpl in *. subst. reflexivity.
  - right. split; [lia|]. apply (close_unlocked fs permits Hl).
Qed.

(** [write], once it has the lock, in terms of its body. *)
Lemma write_unfold (fuel : nat) (msg : list byte) (fs : FramedSocket.t)
  (permits : nat) :
  writeLock fs = S permits ->
  write fuel msg fs
  = match (writeSize (toInt (Z.of_nat (length msg)))
           *> writeRemaining fuel (ByteBuffer.wrap msg))
            (set_writeLock permits fs) with
    | (Success u, fs1) => (Success u, writeLock_release fs1)
    | (NoReturn, fs1) => (NoReturn, fs1)
    | (Failure e, fs1) =>
        let fs2 :=
          if isClosedChannelException e then writeLock_release fs1
          else set_closed (Promise.fail e (closed fs1))
                 (writeLock_release fs1) in
        (Failure e,
         set_closed (Promise.succeed (closed fs2))
           (set_socketChannel (SocketChannel.close (socketChannel fs2)) fs2))
    end.
Proof.
  intros Hl.
  unfold write, ZIO.tapError, ZIO.bracket, writeLock_acquire, ZIO.zoom,
    Semaphore.acquire.
  rewrite Hl.
  destruct ((writeSize (toInt (Z.of_nat (length msg)))
             *> writeRemaining fuel (ByteBuffer.wrap msg))
              (set_writeLock permits fs)) as [[u|e|] fs1]; try reflexivity.
  destruct (isClosedChannelException e).
  - rewrite (close_unlocked (writeLock_release fs1) (writeLock fs1) eq_refl).
    reflexivity.
  - unfold ZIO.flatMap, closed_fail, ZIO.modify.
    rewrite (close_unlocked
               (set_closed (Promise.fail e (closed (writeLock_release fs1)))
                  (writeLock_release fs1))
               (writeLock fs1) eq_refl).
    reflexivity.
Qed.

Lemma write_locked (fuel : nat) (msg : list byte) (fs : FramedSocket.t) :
  writeLock fs = 0 -> write fuel msg fs = (NoReturn, fs).
Proof.
  intros Hl.
  unfold write, ZIO.tapError, ZIO.bracket, writeLock_acquire, ZIO.zoom,
    Semaphore.acquire.
  rewrite Hl. destruct fs. simpl in *. subst. reflexivity.
Qed.

(** [writeSize] is one write of the channel: it does not return only
    when that write stalls. *)
Lemma writeSize_stalls (size : Z) (fs : FramedSocket.t) :
  fst (writeSize size fs) = NoReturn ->
  isConnected fs = true
  /\ exists sent faults,
       SocketChannel.writeFaults (socketChannel fs)
       = SocketChannel.Stalls sent :: faults.
Proof.
  unfold writeSize, ZIO.flatMap, ZIO.modify, ZIO.get, onChannel, ZIO.zoom,
    isConnected.
  cbn [socketChannel set_outgoingLengthBuffer outgoingLengthBuffer].
  unfold SocketChannel.write.
  destruct (SocketChannel.isOpen (socketChannel fs)); cbn [negb];
    [|discriminate].
  destruct (SocketChannel.writeFaults (socketChannel fs))
    as [|[|e|sent] faults]; try discriminate.
  intros _. split; [reflexivity|]. exists sent, faults. reflexivity.
Qed.

(** [sendKeepalive], lock or no lock. *)
Lemma sendKeepalive_cases (fs : FramedSocket.t) :
  (writeLock fs = 0 /\ sendKeepalive fs = (Success tt, fs))
  \/ (exists permits,
        writeLock fs = S permits
        /\ sendKeepalive fs
           = match writeSize 0 (set_writeLock permits fs) with
             | (NoReturn, fs1) => (NoReturn, fs1)
             | (r, fs1) => (r, writeLock_release fs1)
             end).
Proof.
  unfold sendKeepalive, ZIO.bracket, writeLock_tryAcquire, ZIO.zoom,
    Semaphore.tryAcquire.
  destruct (writeLock fs) as [|permits] eqn:Hl.
  - left. split; [reflexivity|]. destruct fs. simpl in *. subst. reflexivity.
  - right. exists permits. split; [reflexivity|].
    destruct (writeSize 0 (set_writeLock permits fs)) as [[u|e|] fs1];
      reflexivity.
Qed.

(** X1.  [sendKeepalive] never waits for the write lock.  While the lock
    is held by a writer it returns at once and does nothing at all, where
    a [write] waits for the lock.  The one way for it not to return is its
    own write of the channel stalling on a full send buffer; it has the
    lock then, and keeps it. *)
Theorem sendKeepalive_never_waits_for_the_lock (fuel : nat)
  (msg : list byte) (fs : FramedSocket.t) :
  (writeLock fs = 0 ->
   sendKeepalive fs = (Success tt, fs)
   /\ write fuel msg fs = (NoReturn, fs))
  /\ (fst (sendKeepalive fs) = NoReturn ->
      isConnected fs = true
      /\ (exists sent faults,
            SocketChannel.writeFaults (socketChannel fs)
            = SocketChannel.Stalls sent :: faults)
      /\ writeLock fs = S (writeLock (snd (sendKeepalive fs)))).
Proof.
  split.
  - intros Hl. split; [|apply write_locked; exact Hl].
    destruct (sendKeepalive_cases fs) as [[_ E]|(permits & Hp & _)];
      [exact E|congruence].
  - destruct (sendKeepalive_cases fs) as [[_ E]|(permits & Hp & E)];
      rewrite E; [discriminate|].
    pose proof (writeSize_stalls 0 (set_writeLock permits fs)) as St.
    pose proof (writeSize_control 0 (set_writeLock permits fs)) as C.
    destruct (writeSize 0 (set_writeLock permits fs)) as [[u|e|] fs1];
      cbn [fst snd] in *; try discriminate.
    intros _. destruct (St eq_refl) as [Ho Hs].
    split; [exact Ho|]. split; [exact Hs|].
    injection C as _ C _. cbn [writeLock set_writeLock] in C.
    rewrite C. exact Hp.
Qed.

Lemma sendKeepalive_never_waits_for_the_lock_witness :
  (sendKeepalive MoreExamples.writing = (Success tt, MoreExamples.writing)
   /\ write 2 [x41] MoreExamples.writing = (NoReturn, MoreExamples.writing))
  /\ (isConnected MoreExamples.stalled = true
      /\ (exists sent faults,
            SocketChannel.writeFaults (socketChannel MoreExamples.stalled)
            = SocketChannel.Stalls sent :: faults)
      /\ writeLock MoreExamples.stalled
         = S (writeLock (snd (sendKeepalive MoreExamples.stalled)))).
Proof.
  split.
  - apply (proj1 (sendKeepalive_never_waits_for_the_lock 2 [x41]
                    MoreExamples.writing)).
    reflexivity.
  - apply (proj2 (sendKeepalive_never_waits_for_the_lock 2 [x41]
                    MoreExamples.stalled)).
    reflexivity.
Defined.

(** What [read] does with the outcome of [readBuffer]. *)
Lemma read_unfold (fuel : nat) (fs : FramedSocket.t) :
  read fuel fs
  = match readBuffer fuel fs with
    | (Failure e, fs1) =>
        if isAsynchronousCloseException e then
          match close fs1 with
          | (Success _, fs2) => (Success None, fs2)
          | (Failure e', fs2) =>
              (Failure e', set_closed (Promise.fail e' (closed fs2)) fs2)
          | (NoReturn, fs2) => (NoReturn, fs2)
          end
        else (Failure e, set_closed (Promise.fail e (closed fs1)) fs1)
    | r => r
    end.
Proof.
  unfold read, ZIO.tapError, ZIO.catchSome.
  destruct (readBuffer fuel fs) as [[r|e|] fs1]; try reflexivity.
  destruct (isAsynchronousCloseException e); [|reflexivity].
  unfold ZIO.flatMap, Logging, ZIO.unit, ZIO.succeed.
  destruct (close fs1) as [[u|e'|] fs2]; reflexivity.
Qed.



End SocketInvariants.

Section SocketLatch.

Import FramedSocket.

Lemma promise_done_succeed (p : Promise.t) :
  Promise.isDone p = true -> Promise.succeed p = p.
Proof. destruct p; [discriminate|reflexivity|reflexivity]. Qed.

Lemma promise_done_fail (e : Throwable) (p : Promise.t) :
  Promise.isDone p = true -> Promise.fail e p = p.
Proof. destruct p; [discriminate|reflexivity|reflexivity]. Qed.

Lemma control_closed (fs fs' : FramedSocket.t) :
  Control.part fs' = Control.part fs -> closed fs' = closed fs.
Proof. unfold Control.part. congruence. Qed.

Lemma close_latch (fs : FramedSocket.t) :
  Promise.isDone (closed fs) = true -> closed (snd (close fs)) = closed fs.
Proof.
  intros D.
  destruct (close_cases fs) as [[_ E]|[_ E]]; rewrite E; cbn [snd];
    [reflexivity|].
  cbn. apply promise_done_succeed. exact D.
Qed.

Lemma sendKeepalive_latch (fs : FramedSocket.t) :
  closed (snd (sendKeepalive fs)) = closed fs.
Proof.
  destruct (sendKeepalive_cases fs) as [[_ E]|(permits & Hp & E)];
    rewrite E; cbn [snd]; [reflexivity|].
  pose proof (writeSize_closed 0 (set_writeLock permits fs)) as C.
  destruct (writeSize 0 (set_writeLock permits fs)) as [[u|e|] fs1];
    unfold writeLock_release; cbn [snd closed set_writeLock] in *; exact C.
Qed.

(** X3.  The latch [closed] is completed once: after it is done, no
    operation of the socket, and no round of the keepalive fiber, changes
    it, also not by a later failure. *)
Theorem completed_latch_is_kept (fuel : nat) (msg : list byte)
  (fs : FramedSocket.t) :
  Promise.isDone (closed fs) = true ->
  closed (snd (read fuel fs)) = closed fs
  /\ closed (snd (write fuel msg fs)) = closed fs
  /\ closed (snd (close fs)) = closed fs
  /\ closed (snd (sendKeepalive fs)) = closed fs
  /\ closed (snd (keepaliveRound fs)) = closed fs.
Proof.
  intros D. split; [|split; [|split; [|split]]].
  - rewrite read_unfold.
    pose proof (control_closed _ _ (readBuffer_control fuel fs)) as C.
    destruct (readBuffer fuel fs) as [[r|e|] fs1]; cbn [snd] in *;
      try exact C.
    assert (D1 : Promise.isDone (closed fs1) = true) by (rewrite C; exact D).
    destruct (isAsynchronousCloseException e).
    + pose proof (close_latch fs1 D1) as L.
      destruct (close fs1) as [[u|e'|] fs2]; cbn [snd] in *;
        try (rewrite L; exact C).
      cbn. rewrite L, (promise_done_fail e' _ D1). exact C.
    + cbn. rewrite (promise_done_fail e _ D1). exact C.
  - destruct (writeLock fs) as [|permits] eqn:Hl.
    + rewrite (write_locked fuel msg fs Hl). reflexivity.
    + rewrite (write_unfold fuel msg fs permits Hl).
      pose proof (control_closed _ _
                    (write_body_control fuel msg (set_writeLock permits fs)))
        as C.
      destruct ((writeSize (toInt (Z.of_nat (length msg)))
                 *> writeRemaining fuel (ByteBuffer.wrap msg))
                  (set_writeLock permits fs)) as [[u|e|] fs1];
        cbn [snd closed set_writeLock] in *; try exact C.
      assert (D1 : Promise.isDone (closed fs1) = true) by (rewrite C; exact D).
      destruct (isClosedChannelException e); cbn.
      * rewrite (promise_done_succeed _ D1). exact C.
      * rewrite (promise_done_fail e _ D1), (promise_done_succeed _ D1).
        exact C.
  - apply close_latch. exact D.
  - apply sendKeepalive_latch.
  - unfold keepaliveRound, ZIO.flatMap, ZIO.get.
    destruct (keepaliveFiber fs); [|reflexivity].
    unfold ZIO.tapError.
    pose proof (sendKeepalive_latch fs) as C.
    destruct (sendKeepalive fs) as [[u|e|] fs1]; cbn [snd] in *;
      try exact C.
    unfold closed_fail, ZIO.modify, onChannel, ZIO.zoom. cbn.
    rewrite C. apply promise_done_fail. exact D.
Qed.

Lemma completed_latch_is_kept_witness :
  closed (snd (write 2 [x41] MoreExamples.closedSocket)) = Promise.Succeeded
  /\ closed (snd (read 10 MoreExamples.closedSocket)) = Promise.Succeeded.
Proof.
  destruct (completed_latch_is_kept 10 [] MoreExamples.closedSocket eq_refl)
    as (R & _).
  destruct (completed_latch_is_kept 2 [x41] MoreExamples.closedSocket eq_refl)
    as (_ & W & _).
  split; [exact W|exact R].
Defined.

(** X4.  [close()] with the write lock free closes the channel and
    completes the latch, touching neither input nor output, and closing
    again changes nothing: [close] is idempotent. *)
Theorem close_is_idempotent (fs : FramedSocket.t) :
  0 < writeLock fs ->
  fst (close fs) = Success tt
  /\ isConnected (snd (close fs)) = false
  /\ Promise.isDone (closed (snd (close fs))) = true
  /\ Wire.inbound (snd (close fs)) = Wire.inbound fs
  /\ Wire.outbound (snd (close fs)) = Wire.outbound fs
  /\ close (snd (close fs)) = (Success tt, snd (close fs)).
Proof.
  intros Hl.
  destruct (close_cases fs) as [[Z _]|[_ E]]; [lia|].
  rewrite E. cbn [fst snd].
  split; [reflexivity|]. split; [reflexivity|].
  split; [cbn; destruct (closed fs); reflexivity|].
  split; [reflexivity|]. split; [reflexivity|].
  destruct (writeLock fs) as [|permits] eqn:Hp; [lia|].
  rewrite (close_unlocked _ permits) by exact Hp.
  destruct fs as [ch p ib ob l k]. cbn. destruct p; reflexivity.
Qed.

Lemma close_is_idempotent_witness :
  close MoreExamples.closedSocket = (Success tt, MoreExamples.closedSocket).
Proof.
  apply (close_is_idempotent (Examples.socket [x00; x00; x00; x01; x41] [])).
  cbn. lia.
Defined.



End SocketLatch.

Section BrokenConnections.

Import FramedSocket.

(** [readBuffer] when the first read of the channel throws. *)
Lemma readBuffer_throws (fuel : nat) (e : Throwable) (fs : FramedSocket.t) :
  isConnected fs = true ->
  Wire.allocated fs = true ->
  Wire.inbound fs = [] ->
  SocketChannel.atEnd (socketChannel fs) = SocketChannel.ReadThrows e ->
  readBuffer (S fuel) fs
  = (Failure e,
     set_incomingLengthBuffer (ByteBuffer.rewind (incomingLengthBuffer fs))
       fs).
Proof.
  intros Hc Ha Hin He.
  destruct (allocated_length_buffers fs Ha) as [Hi _].
  unfold readBuffer, ZIO.flatMap at 1, ZIO.modify.
  unfold ZIO.flatMap at 1. rewrite readLength_S.
  unfold ZIO.flatMap, ZIO.get, onChannel, ZIO.zoom.
  cbn [incomingLengthBuffer set_incomingLengthBuffer socketChannel].
  unfold ByteBuffer.hasRemaining, ByteBuffer.remaining, ByteBuffer.rewind.
  cbn [ByteBuffer.array ByteBuffer.position]. rewrite Hi.
  cbn [Nat.sub Nat.ltb Nat.leb].
  unfold SocketChannel.read.
  unfold isConnected, Wire.inbound in *.
  destruct fs as [ch p ib ob l k]. cbn in Hc, Hin, He |- *.
  rewrite Hc, Hin, He. cbn. destruct ch; reflexivity.
Qed.



(** X7.  A keepalive crosses the connection as an empty frame: what
    [sendKeepalive] puts on the wire is four zero bytes, and the [read] of
    the peer to which they come returns [Some(None)], no message, and
    leaves the input that follows them. *)
Theorem keepalive_round_trip (fuel : nat) (sender receiver : FramedSocket.t)
  (rest : list byte) :
  Wire.writable sender = true ->
  Wire.allocated sender = true ->
  isConnected receiver = true ->
  Wire.allocated receiver = true ->
  Wire.inbound receiver
  = Wire.sent sender (snd (sendKeepalive sender)) ++ rest ->
  length (Wire.chunks receiver) + 4 < fuel ->
  fst (sendKeepalive sender) = Success tt
  /\ Wire.sent sender (snd (sendKeepalive sender)) = [x00; x00; x00; x00]
  /\ fst (read fuel receiver) = Success (Some None)
  /\ Wire.inbound (snd (read fuel receiver)) = rest.
Proof.
  intros Hw Ha Hc Hra Hin Hfuel.
  destruct (writable_parts sender Hw) as (Ho & Hf & permits & Hp).
  destruct (sendKeepalive_cases sender) as [[Z _]|(permits' & Hp' & E)];
    [congruence|].
  assert (permits' = permits) by congruence. subst permits'.
  destruct (writeSize_ok 0 (set_writeLock permits sender) Ho Hf Ha)
    as (s1 & W & Out & _).
  rewrite W in E. cbv beta iota in E.
  assert (Sent : Wire.sent sender (snd (sendKeepalive sender))
                 = [x00; x00; x00; x00]).
  { rewrite E. cbn [snd]. unfold Wire.sent.
    change (Wire.outbound (writeLock_release s1)) with (Wire.outbound s1).
    rewrite Out.
    change (Wire.outbound (set_writeLock permits sender))
      with (Wire.outbound sender).
    rewrite skipn_app, skipn_all, Nat.sub_diag. reflexivity. }
  rewrite Sent in Hin.
  destruct (frame_read_back fuel [] rest receiver) as (r' & R & I & _).
  - cbn. lia.
  - exact Hc.
  - exact Hra.
  - rewrite Hin. reflexivity.
  - cbn [length]. lia.
  - rewrite E in Sent. rewrite E, R. cbn [fst snd] in *.
    split; [reflexivity|]. split; [exact Sent|].
    split; [reflexivity|exact I].
Qed.

Lemma keepalive_round_trip_witness :
  let sender := Examples.socket [] [] in
  let receiver := Examples.socket [x00; x00; x00; x00; x41] [2] in
  fst (sendKeepalive sender) = Success tt
  /\ Wire.sent sender (snd (sendKeepalive sender)) = [x00; x00; x00; x00]
  /\ fst (read 6 receiver) = Success (Some None)
  /\ Wire.inbound (snd (read 6 receiver)) = [x41].
Proof.
  apply (keepalive_round_trip 6 (Examples.socket [] [])
           (Examples.socket [x00; x00; x00; x00; x41] [2]) [x41]).
  - reflexivity.
  - reflexivity.
  - reflexivity.
  - reflexivity.
  - reflexivity.
  - cbn. lia.
Defined.

(** X8.  The frame stream never raises: whatever the channel does, and
    however many elements are pulled, a run of [bitVectors] is never ended
    by an error.  A failure of [read] ends the stream as if the input had
    ended. *)
Theorem bitVectors_never_raises (steps fuel : nat) (fs : FramedSocket.t)
  (e : Throwable) :
  snd (fst (Stream.run bitVectors steps fuel fs)) <> Stream.Errored e.
Proof.
  unfold Stream.run. change (Stream.init bitVectors) with tt.
  revert fs. induction steps as [|steps IH]; intros fs; [discriminate|].
  cbn [Stream.runFrom]. rewrite bitVectors_pull.
  destruct (read fuel fs) as [[[[buf|]|]|e'|] fs']; try discriminate.
  - specialize (IH fs').
    destruct (Stream.runFrom bitVectors steps fuel tt fs') as [[out en] w].
    exact IH.
  - destruct steps as [|steps']; [discriminate|]. apply IH.
Qed.

(** The frames at the head of the input are delivered, and the run goes on
    from the input behind them. *)
Lemma bitVectors_frames (frames : list (list byte)) :
  forall (steps fuel : nat) (fs : FramedSocket.t) (tail : list byte),
    isConnected fs = true ->
    Wire.allocated fs = true ->
    Forall (fun p => (Z.of_nat (length p) <= 2 ^ 31 - 1)%Z) frames ->
    Wire.inbound fs = flat_map Wire.frame frames ++ tail ->
    length (Wire.chunks fs) + length (Wire.inbound fs) + 4 < fuel ->
    exists fs',
      Stream.runFrom bitVectors (length frames + steps) fuel tt fs
      = (Wire.payloads frames
           ++ fst (fst (Stream.runFrom bitVectors steps fuel tt fs')),
         snd (fst (Stream.runFrom bitVectors steps fuel tt fs')),
         snd (Stream.runFrom bitVectors steps fuel tt fs'))
      /\ Wire.inbound fs' = tail
      /\ isConnected fs' = true
      /\ Wire.allocated fs' = true
      /\ length (Wire.chunks fs') <= length (Wire.chunks fs)
      /\ SocketChannel.atEnd (socketChannel fs')
         = SocketChannel.atEnd (socketChannel fs)
      /\ closed fs' = closed fs
      /\ Wire.writable fs' = Wire.writable fs.
Proof.
  induction frames as [|p frames IH];
    intros steps fuel fs tail Ho Ha Hmax Hi Hfuel.
  - exists fs. cbn [length Nat.add Wire.payloads filter app].
    split.
    + destruct (Stream.runFrom bitVectors steps fuel tt fs) as [[out en] w].
      reflexivity.
    + cbn [flat_map app] in Hi. repeat split; auto.
  - inversion Hmax as [|? ? Hp Hmax']; subst.
    assert (Hs : toInt (Z.of_nat (length p)) = Z.of_nat (length p))
      by (apply toInt_id; lia).
    assert (Hi' : Wire.inbound fs
                  = (intBytes (toInt (Z.of_nat (length p))) ++ p)
                      ++ (flat_map Wire.frame frames ++ tail)).
    { rewrite Hi. cbn [flat_map]. unfold Wire.frame at 1.
      rewrite Hs, <- !app_assoc. reflexivity. }
    assert (Hlen : length (Wire.inbound fs)
                   = 4 + length p + length (flat_map Wire.frame frames ++ tail)).
    { rewrite Hi', !length_app. simpl. lia. }
    clear Hi. rename Hi' into Hi.
    destruct (frame_read_back fuel p (flat_map Wire.frame frames ++ tail)
                fs Hp Ho Ha Hi)
      as (fs1 & R & I1 & Ho1 & Ha1 & Hc1 & He1 & Hcl1 & Hw1); [lia|].
    destruct (IH steps fuel fs1 tail Ho1 Ha1 Hmax' I1)
      as (fs' & Run & I' & Ho' & Ha' & Hc' & He' & Hcl' & Hw').
    + rewrite I1. lia.
    + exists fs'. split.
      * cbn [length Nat.add Stream.runFrom]. rewrite bitVectors_pull, R.
        unfold Wire.payloads. cbn [filter].
        destruct (length p =? 0) eqn:Ez; cbn [negb].
        -- exact Run.
        -- rewrite Run. reflexivity.
      * split; [exact I'|]. split; [exact Ho'|]. split; [exact Ha'|].
        split; [lia|]. split; [congruence|]. split; congruence.
Qed.

(** X9.  When the connection breaks behind some frames, with an exception
    that is not an AsynchronousCloseException, the stream delivers the
    payloads of those frames and then ends normally; the exception shows
    only in the latch, which is completed as failed. *)
Theorem bitVectors_ends_when_the_connection_breaks
  (frames : list (list byte)) (steps fuel : nat) (e : Throwable)
  (fs : FramedSocket.t) :
  isConnected fs = true ->
  Wire.allocated fs = true ->
  Forall (fun p => (Z.of_nat (length p) <= 2 ^ 31 - 1)%Z) frames ->
  Wire.inbound fs = flat_map Wire.frame frames ->
  SocketChannel.atEnd (socketChannel fs) = SocketChannel.ReadThrows e ->
  isAsynchronousCloseException e = false ->
  length frames < steps ->
  length (Wire.chunks fs) + length (Wire.inbound fs) + 4 < fuel ->
  fst (Stream.run bitVectors steps fuel fs)
  = (Wire.payloads frames, Stream.Completed)
  /\ closed (snd (Stream.run bitVectors steps fuel fs))
     = Promise.fail e (closed fs).
Proof.
  intros Ho Ha Hmax Hi He Hasync Hsteps Hfuel.
  unfold Stream.run. change (Stream.init bitVectors) with tt.
  replace steps with (length frames + S (steps - S (length frames))) by lia.
  destruct (bitVectors_frames frames (S (steps - S (length frames))) fuel fs
              [] Ho Ha Hmax) as (fs' & Run & I' & Ho' & Ha' & _ & He' & Hcl' & _).
  - rewrite app_nil_r. exact Hi.
  - exact Hfuel.
  - rewrite Run. clear Run.
    cbn [Stream.runFrom]. rewrite bitVectors_pull.
    destruct fuel as [|fuel]; [lia|].
    rewrite read_unfold, (readBuffer_throws fuel e fs' Ho' Ha' I').
    + rewrite Hasync. cbn [fst snd]. rewrite app_nil_r.
      split; [reflexivity|].
      cbn. rewrite Hcl'.
      destruct (closed fs); reflexivity.
    + rewrite He'. exact He.
Qed.

Lemma bitVectors_ends_when_the_connection_breaks_witness :
  let fs :=
    MoreExamples.broken (flat_map Wire.frame [[x41; x42]; []; [x43]])
      IOException in
  fst (Stream.run bitVectors 4 30 fs)
  = ([[x41; x42]; [x43]], Stream.Completed)
  /\ closed (snd (Stream.run bitVectors 4 30 fs))
     = Promise.Failed IOException.
Proof.
  apply (bitVectors_ends_when_the_connection_breaks
           [[x41; x42]; []; [x43]] 4 30 IOException).
  - reflexivity.
  - reflexivity.
  - repeat constructor; simpl; lia.
  - reflexivity.
  - reflexivity.
  - reflexivity.
  - simpl. lia.
  - simpl. lia.
Defined.

End BrokenConnections.

Section KeepaliveFiber.

Import FramedSocket.



(** X11.  [awaitClosed] tells how the socket ended.  On a socket that
    nobody closed and where nothing failed it does not return; after
    [close()] it returns; after a [read] that failed it fails with the
    exception of that [read]. *)
Theorem awaitClosed_tells_the_end (fuel : nat) (e : Throwable)
  (fs : FramedSocket.t) :
  closed fs = Promise.Pending ->
  0 < writeLock fs ->
  fst (awaitClosed fs) = NoReturn
  /\ fst (awaitClosed (snd (close fs))) = Success tt
  /\ (fst (read fuel fs) = Failure e ->
      fst (awaitClosed (snd (read fuel fs))) = Failure e).
Proof.
  intros Hp Hl.
  unfold awaitClosed, ZIO.flatMap, ZIO.get.
  split; [rewrite Hp; reflexivity|]. split.
  - destruct (close_cases fs) as [[Z _]|[_ E]]; [lia|].
    rewrite E. cbn. rewrite Hp. reflexivity.
  - rewrite read_unfold.
    pose proof (control_closed _ _ (readBuffer_control fuel fs)) as C.
    destruct (readBuffer fuel fs) as [[r|e'|] fs1]; cbn [fst snd] in *;
      try discriminate.
    rewrite Hp in C.
    destruct (isAsynchronousCloseException e').
    + destruct (close_cases fs1) as [[_ E]|[_ E]]; rewrite E; discriminate.
    + cbn. rewrite C. cbn. intros F. injection F as F. subst e'. reflexivity.
Qed.

Lemma awaitClosed_tells_the_end_witness :
  let fs := MoreExamples.broken [] IOException in
  fst (awaitClosed fs) = NoReturn
  /\ fst (awaitClosed (snd (close fs))) = Success tt
  /\ fst (awaitClosed (snd (read 1 fs))) = Failure IOException.
Proof.
  destruct (awaitClosed_tells_the_end 1 IOException
              (MoreExamples.broken [] IOException) eq_refl (Nat.lt_0_succ 0))
    as (P & C & R).
  split; [exact P|]. split; [exact C|]. apply R. reflexivity.
Defined.

End KeepaliveFiber.

Section Subprocesses.

(** X12.  [awaitOrKill] gives the process the grace period to exit by
    itself and calls [destroy()] only when it has not: a process that is
    not running is left as it is, and the process is destroyed exactly
    when it runs and would go on running at the end of the period. *)
Theorem awaitOrKill_destroys_only_after_grace (gracePeriodSeconds : nat)
  (p : Process.t) :
  (Process.isAlive p = false ->
   awaitOrKill gracePeriodSeconds p = (Success tt, p))
  /\ Process.destroyed (snd (awaitOrKill gracePeriodSeconds p))
     = Process.destroyed p
       || (Process.isAlive p
           && match Process.lifetime p with
              | Some n => negb (n <=? gracePeriodSeconds)
              | None => true
              end).
Proof.
  unfold awaitOrKill, ZIO.flatMap. cbn [awaitExit kill Subprocess].
  unfold Process.waitFor, ZIO.modify, Process.destroy.
  destruct p as [alive ev d life sh]. cbn [Process.isAlive Process.lifetime
    Process.destroyed Process.exitValue Process.shutdown].
  split.
  - intros ->. reflexivity.
  - destruct alive; cbn [andb].
    + destruct life as [n|].
      * destruct (n <=? gracePeriodSeconds);
          [cbn; rewrite orb_false_r; reflexivity|].
        cbn [negb]. rewrite orb_true_r.
        destruct sh as [k|]; cbn;
          [destruct (Nat.min (n - gracePeriodSeconds) k <=? gracePeriodSeconds)
          |destruct (n - gracePeriodSeconds <=? gracePeriodSeconds)];
          reflexivity.
      * rewrite orb_true_r.
        destruct sh as [k|]; cbn;
          [destruct (k <=? gracePeriodSeconds)|]; reflexivity.
    + cbn. rewrite orb_false_r. reflexivity.
Qed.

Lemma awaitOrKill_destroys_only_after_grace_witness :
  awaitOrKill 30 (Process.mk false 3 false None None)
  = (Success tt, Process.mk false 3 false None None).
Proof.
  apply (proj1 (awaitOrKill_destroys_only_after_grace 30
                  (Process.mk false 3 false None None))).
  reflexivity.
Defined.

End Subprocesses.

Section Senders.

Import SocketTransport.

(** A [write] on a socket of the heap that can be written. *)
Lemma onSocket_write_framed (fuel : nat) (msg : list byte) (ref : nat)
  (env : Env.t) :
  2 <= fuel ->
  (Z.of_nat (length msg) <= 2 ^ 31 - 1)%Z ->
  Endpoint.ready ref env ->
  exists env',
    Env.onSocket ref (FramedSocket.write fuel msg) env = (Success tt, env')
    /\ Endpoint.framedOn ref msg env env'.
Proof.
  intros Hfuel Hmax (fs & Hfs & Hw & Ha).
  destruct (write_ok fuel msg fs Hw Ha Hfuel)
    as (fs' & W & Out & Hw' & Ha' & _).
  assert (Hlt : ref < length (Env.sockets env))
    by (apply nth_error_Some; congruence).
  exists (Env.set_sockets (Env.update ref fs' (Env.sockets env)) env).
  split.
  - unfold Env.onSocket. rewrite Hfs, W. reflexivity.
  - unfold Endpoint.framedOn, Endpoint.sentOn, Endpoint.ready, Wire.holds.
    cbn [Env.sockets Env.set_sockets Env.process Env.promises].
    rewrite (nth_error_update_same ref fs' _ Hlt), Hfs.
    split.
    + rewrite Out. unfold Wire.frame. rewrite toInt_id by lia. reflexivity.
    + split; [exists fs'; auto|]. split; [|reflexivity].
      apply (onlyChanged_update ref env env fs'). apply onlyChanged_refl.
Qed.

Variables RemoteRequest NotebookUpdate RemoteResponse : Type.
Variable RemoteRequest_encode : RemoteRequest -> string + list byte.
Variable NotebookUpdate_encode : NotebookUpdate -> string + list byte.
Variable RemoteResponse_encode : RemoteResponse -> string + list byte.

(** X13.  [sendRequest] puts the encoded request, as one frame, on the
    main channel of the server and touches nothing else; a request that
    cannot be encoded fails with a RuntimeException that carries the
    message of the encoder, and nothing is sent. *)
Theorem sendRequest_frames_on_main_channel (fuel : nat)
  (server : SocketTransportServer) (req : RemoteRequest) (env : Env.t) :
  (forall msg,
     RemoteRequest_encode req = inr msg ->
     (Z.of_nat (length msg) <= 2 ^ 31 - 1)%Z ->
     2 <= fuel ->
     Endpoint.ready (mainChannel (server_channels server)) env ->
     fst (Endpoint.sendRequest RemoteRequest_encode fuel server req env)
     = Success tt
     /\ Endpoint.framedOn (mainChannel (server_channels server)) msg env
          (snd (Endpoint.sendRequest RemoteRequest_encode fuel server req
                  env)))
  /\ (forall message,
        RemoteRequest_encode req = inl message ->
        Endpoint.sendRequest RemoteRequest_encode fuel server req env
        = (Failure (RuntimeException message), env)).
Proof.
  unfold Endpoint.sendRequest, ZIO.flatMap. split.
  - intros msg E Hmax Hfuel Hr. rewrite E. cbn [Endpoint.fromEncoded ZIO.succeed].
    destruct (onSocket_write_framed fuel msg _ env Hfuel Hmax Hr)
      as (env' & W & F).
    rewrite W. split; [reflexivity|exact F].
  - intros message E. rewrite E. reflexivity.
Qed.

(** X14.  [sendNotebookUpdate] puts the encoded update, as one frame, on
    the channel of the notebook updates and touches nothing else; an
    update that cannot be encoded fails with a RuntimeException, and
    nothing is sent. *)
Theorem sendNotebookUpdate_frames_on_updates_channel (fuel : nat)
  (server : SocketTransportServer) (update : NotebookUpdate) (env : Env.t) :
  (forall msg,
     NotebookUpdate_encode update = inr msg ->
     (Z.of_nat (length msg) <= 2 ^ 31 - 1)%Z ->
     2 <= fuel ->
     Endpoint.ready (notebookUpdatesChannel (server_channels server)) env ->
     fst (Endpoint.sendNotebookUpdate NotebookUpdate_encode fuel server
            update env)
     = Success tt
     /\ Endpoint.framedOn (notebookUpdatesChannel (server_channels server))
          msg env
          (snd (Endpoint.sendNotebookUpdate NotebookUpdate_encode fuel server
                  update env)))
  /\ (forall message,
        NotebookUpdate_encode update = inl message ->
        Endpoint.sendNotebookUpdate NotebookUpdate_encode fuel server update
          env
        = (Failure (RuntimeException message), env)).
Proof.
  unfold Endpoint.sendNotebookUpdate, ZIO.flatMap. split.
  - intros msg E Hmax Hfuel Hr. rewrite E. cbn [Endpoint.fromEncoded ZIO.succeed].
    destruct (onSocket_write_framed fuel msg _ env Hfuel Hmax Hr)
      as (env' & W & F).
    rewrite W. split; [reflexivity|exact F].
  - intros message E. rewrite E. reflexivity.
Qed.

(** X15.  [sendResponse] puts the encoded response, as one frame, on the
    main channel of the client and touches nothing else; a response that
    cannot be encoded fails with a RuntimeException, and nothing is
    sent. *)
Theorem sendResponse_frames_on_main_channel (fuel : nat)
  (client : SocketTransportClient) (rep : RemoteResponse) (env : Env.t) :
  (forall bytes,
     RemoteResponse_encode rep = inr bytes ->
     (Z.of_nat (length bytes) <= 2 ^ 31 - 1)%Z ->
     2 <= fuel ->
     Endpoint.ready (mainChannel (client_channels client)) env ->
     fst (Endpoint.sendResponse RemoteResponse_encode fuel client rep env)
     = Success tt
     /\ Endpoint.framedOn (mainChannel (client_channels client)) bytes env
          (snd (Endpoint.sendResponse RemoteResponse_encode fuel client rep
                  env)))
  /\ (forall message,
        RemoteResponse_encode rep = inl message ->
        Endpoint.sendResponse RemoteResponse_encode fuel client rep env
        = (Failure (RuntimeException message), env)).
Proof.
  unfold Endpoint.sendResponse, ZIO.flatMap. split.
  - intros bytes E Hmax Hfuel Hr. rewrite E. cbn [Endpoint.fromEncoded ZIO.succeed].
    destruct (onSocket_write_framed fuel bytes _ env Hfuel Hmax Hr)
      as (env' & W & F).
    rewrite W. split; [reflexivity|exact F].
  - intros message E. rewrite E. reflexivity.
Qed.

End Senders.

Lemma served_ready (p : Process.t) (ref : nat) :
  ref < 2 -> Endpoint.ready ref (MoreExamples.served p).
Proof.
  intros H. destruct ref as [|[|ref]]; [| |lia];
    (eexists; split; [reflexivity|split; reflexivity]).
Qed.

Lemma connected_ready (bytes bytes' : list byte) (ref : nat) :
  ref < 2 -> Endpoint.ready ref (Examples.connected bytes bytes').
Proof.
  intros H. destruct ref as [|[|ref]]; [| |lia];
    (eexists; split; [reflexivity|split; reflexivity]).
Qed.

Lemma sendRequest_frames_on_main_channel_witness :
  let env := MoreExamples.served Examples.kernel in
  (fst (Endpoint.sendRequest MoreExamples.encodeByte 2 MoreExamples.theServer
          x41 env)
   = Success tt
   /\ Endpoint.framedOn 0 [x41] env
        (snd (Endpoint.sendRequest MoreExamples.encodeByte 2
                MoreExamples.theServer x41 env)))
  /\ Endpoint.sendRequest MoreExamples.encodeByte 2 MoreExamples.theServer
       xfe env
     = (Failure (RuntimeException "cannot encode"), env).
Proof.
  split.
  - apply (proj1 (sendRequest_frames_on_main_channel byte
                    MoreExamples.encodeByte 2 MoreExamples.theServer x41
                    (MoreExamples.served Examples.kernel)) [x41]).
    + reflexivity.
    + cbn. lia.
    + lia.
    + apply served_ready. cbn. lia.
  - apply (proj2 (sendRequest_frames_on_main_channel byte
                    MoreExamples.encodeByte 2 MoreExamples.theServer xfe
                    (MoreExamples.served Examples.kernel))).
    reflexivity.
Defined.

Lemma sendNotebookUpdate_frames_on_updates_channel_witness :
  let env := MoreExamples.served Examples.kernel in
  (fst (Endpoint.sendNotebookUpdate MoreExamples.encodeByte 2
          MoreExamples.theServer x41 env)
   = Success tt
   /\ Endpoint.framedOn 1 [x41] env
        (snd (Endpoint.sendNotebookUpdate MoreExamples.encodeByte 2
                MoreExamples.theServer x41 env)))
  /\ Endpoint.sendNotebookUpdate MoreExamples.encodeByte 2
       MoreExamples.theServer xfe env
     = (Failure (RuntimeException "cannot encode"), env).
Proof.
  split.
  - apply (proj1 (sendNotebookUpdate_frames_on_updates_channel byte
                    MoreExamples.encodeByte 2 MoreExamples.theServer x41
                    (MoreExamples.served Examples.kernel)) [x41]).
    + reflexivity.
    + cbn. lia.
    + lia.
    + apply served_ready. cbn. lia.
  - apply (proj2 (sendNotebookUpdate_frames_on_updates_channel byte
                    MoreExamples.encodeByte 2 MoreExamples.theServer xfe
                    (MoreExamples.served Examples.kernel))).
    reflexivity.
Defined.

Lemma sendResponse_frames_on_main_channel_witness :
  let env := Examples.connected [] [] in
  (fst (Endpoint.sendResponse MoreExamples.encodeByte 2 Examples.theClient
          x41 env)
   = Success tt
   /\ Endpoint.framedOn 0 [x41] env
        (snd (Endpoint.sendResponse MoreExamples.encodeByte 2
                Examples.theClient x41 env)))
  /\ Endpoint.sendResponse MoreExamples.encodeByte 2 Examples.theClient
       xfe env
     = (Failure (RuntimeException "cannot encode"), env).
Proof.
  split.
  - apply (proj1 (sendResponse_frames_on_main_channel byte
                    MoreExamples.encodeByte 2 Examples.theClient x41
                    (Examples.connected [] [])) [x41]).
    + reflexivity.
    + cbn. lia.
    + lia.
    + apply connected_ready. cbn. lia.
  - apply (proj2 (sendResponse_frames_on_main_channel byte
                    MoreExamples.encodeByte 2 Examples.theClient xfe
                    (Examples.connected [] []))).
    reflexivity.
Defined.

Section Closing.

Import SocketTransport.

(** [close()] of a socket of the heap whose write lock is free. *)
Lemma onSocket_close (ref : nat) (env : Env.t) (fs : FramedSocket.t) :
  nth_error (Env.sockets env) ref = Some fs ->
  0 < FramedSocket.writeLock fs ->
  Env.onSocket ref FramedSocket.close env
  = (Success tt,
     Env.set_sockets
       (Env.update ref (snd (FramedSocket.close fs)) (Env.sockets env)) env).
Proof.
  intros Hfs Hl. unfold Env.onSocket. rewrite Hfs.
  destruct (close_cases fs) as [[Z _]|[_ E]]; [lia|].
  rewrite E. reflexivity.
Qed.

Lemma channels_close_run (channels : Channels) (env : Env.t)
  (main updates : FramedSocket.t) :
  mainChannel channels <> notebookUpdatesChannel channels ->
  nth_error (Env.sockets env) (mainChannel channels) = Some main ->
  nth_error (Env.sockets env) (notebookUpdatesChannel channels)
  = Some updates ->
  0 < FramedSocket.writeLock main ->
  0 < FramedSocket.writeLock updates ->
  close channels env
  = (Success tt,
     Env.set_sockets
       (Env.update (notebookUpdatesChannel channels)
          (snd (FramedSocket.close updates))
          (Env.update (mainChannel channels) (snd (FramedSocket.close main))
             (Env.sockets env)))
       env).
Proof.
  intros Hne Hm Hu Lm Lu.
  unfold close, ZIO.map, ZIO.zipPar, ZIO.flatMap.
  rewrite (onSocket_close _ env main Hm Lm).
  rewrite (onSocket_close _ _ updates).
  - reflexivity.
  - cbn [Env.sockets Env.set_sockets].
    rewrite nth_error_update_other by exact Hne. exact Hu.
  - exact Lu.
Qed.

Lemma closed_socket_facts (fs : FramedSocket.t) :
  0 < FramedSocket.writeLock fs ->
  FramedSocket.isConnected (snd (FramedSocket.close fs)) = false
  /\ Promise.isDone (FramedSocket.closed (snd (FramedSocket.close fs)))
     = true.
Proof.
  intros Hl. destruct (close_cases fs) as [[Z _]|[_ E]]; [lia|].
  rewrite E. cbn. split; [reflexivity|].
  destruct (FramedSocket.closed fs); reflexivity.
Qed.

(** What [Channels.close()] leaves behind. *)
Lemma channels_close_facts (channels : Channels) (env : Env.t)
  (main updates : FramedSocket.t) :
  mainChannel channels <> notebookUpdatesChannel channels ->
  nth_error (Env.sockets env) (mainChannel channels) = Some main ->
  nth_error (Env.sockets env) (notebookUpdatesChannel channels)
  = Some updates ->
  0 < FramedSocket.writeLock main ->
  0 < FramedSocket.writeLock updates ->
  fst (close channels env) = Success tt
  /\ isConnected channels (snd (close channels env)) = false
  /\ Wire.holds (mainChannel channels)
       (fun fs => FramedSocket.isConnected fs = false
                  /\ Promise.isDone (FramedSocket.closed fs) = true)
       (snd (close channels env))
  /\ Wire.holds (notebookUpdatesChannel channels)
       (fun fs => FramedSocket.isConnected fs = false
                  /\ Promise.isDone (FramedSocket.closed fs) = true)
       (snd (close channels env))
  /\ (forall ref,
        ref <> mainChannel channels ->
        ref <> notebookUpdatesChannel channels ->
        nth_error (Env.sockets (snd (close channels env))) ref
        = nth_error (Env.sockets env) ref)
  /\ Env.promises (snd (close channels env)) = Env.promises env
  /\ Env.process (snd (close channels env)) = Env.process env.
Proof.
  intros Hne Hm Hu Lm Lu.
  rewrite (channels_close_run channels env main updates Hne Hm Hu Lm Lu).
  cbn [fst snd Env.sockets Env.set_sockets Env.promises Env.process].
  assert (Bm : mainChannel channels < length (Env.sockets env))
    by (apply nth_error_Some; congruence).
  assert (Bu : notebookUpdatesChannel channels < length (Env.sockets env))
    by (apply nth_error_Some; congruence).
  assert (Gm : nth_error
                 (Env.update (notebookUpdatesChannel channels)
                    (snd (FramedSocket.close updates))
                    (Env.update (mainChannel channels)
                       (snd (FramedSocket.close main)) (Env.sockets env)))
                 (mainChannel channels)
               = Some (snd (FramedSocket.close main))).
  { rewrite nth_error_update_other by congruence.
    apply nth_error_update_same. exact Bm. }
  assert (Gu : nth_error
                 (Env.update (notebookUpdatesChannel channels)
                    (snd (FramedSocket.close updates))
                    (Env.update (mainChannel channels)
                       (snd (FramedSocket.close main)) (Env.sockets env)))
                 (notebookUpdatesChannel channels)
               = Some (snd (FramedSocket.close updates))).
  { apply nth_error_update_same. rewrite update_length. exact Bu. }
  destruct (closed_socket_facts main Lm) as [Cm Dm].
  destruct (closed_socket_facts updates Lu) as [Cu Du].
  split; [reflexivity|]. split.
  { unfold isConnected. cbn [Env.sockets Env.set_sockets].
    rewrite Gm, Gu, Cm. reflexivity. }
  split; [exists (snd (FramedSocket.close main)); auto|].
  split; [exists (snd (FramedSocket.close updates)); auto|].
  split; [|split; reflexivity].
  intros ref N1 N2.
  rewrite nth_error_update_other by congruence.
  apply nth_error_update_other. congruence.
Qed.

(** X16.  [Channels.close()] closes the two sockets of the pair: both
    channels are closed and both latches completed, the pair is no longer
    connected, and no other socket, no promise and not the process is
    touched. *)
Theorem channels_close_closes_both (channels : Channels) (env : Env.t)
  (main updates : FramedSocket.t) :
  mainChannel channels <> notebookUpdatesChannel channels ->
  nth_error (Env.sockets env) (mainChannel channels) = Some main ->
  nth_error (Env.sockets env) (notebookUpdatesChannel channels)
  = Some updates ->
  0 < FramedSocket.writeLock main ->
  0 < FramedSocket.writeLock updates ->
  fst (close channels env) = Success tt
  /\ isConnected channels (snd (close channels env)) = false
  /\ Wire.holds (mainChannel channels)
       (fun fs => FramedSocket.isConnected fs = false
                  /\ Promise.isDone (FramedSocket.closed fs) = true)
       (snd (close channels env))
  /\ Wire.holds (notebookUpdatesChannel channels)
       (fun fs => FramedSocket.isConnected fs = false
                  /\ Promise.isDone (FramedSocket.closed fs) = true)
       (snd (close channels env))
  /\ (forall ref,
        ref <> mainChannel channels ->
        ref <> notebookUpdatesChannel channels ->
        nth_error (Env.sockets (snd (close channels env))) ref
        = nth_error (Env.sockets env) ref)
  /\ Env.promises (snd (close channels env)) = Env.promises env
  /\ Env.process (snd (close channels env)) = Env.process env.
Proof.
  intros Hne Hm Hu Lm Lu.
  exact (channels_close_facts channels env main updates Hne Hm Hu Lm Lu).
Qed.

Lemma channels_close_closes_both_witness :
  let channels := mkChannels 0 1 Examples.localhost in
  let env := Examples.connected [x41] [] in
  fst (close channels env) = Success tt
  /\ isConnected channels (snd (close channels env)) = false
  /\ Wire.holds 0
       (fun fs => FramedSocket.isConnected fs = false
                  /\ Promise.isDone (FramedSocket.closed fs) = true)
       (snd (close channels env))
  /\ Wire.holds 1
       (fun fs => FramedSocket.isConnected fs = false
                  /\ Promise.isDone (FramedSocket.closed fs) = true)
       (snd (close channels env))
  /\ (forall ref,
        ref <> 0 -> ref <> 1 ->
        nth_error (Env.sockets (snd (close channels env))) ref
        = nth_error (Env.sockets env) ref)
  /\ Env.promises (snd (close channels env)) = Env.promises env
  /\ Env.process (snd (close channels env)) = Env.process env.
Proof.
  apply (channels_close_closes_both (mkChannels 0 1 Examples.localhost)
           (Examples.connected [x41] []) (Examples.socket [x41] [])
           (Examples.socket [] [])).
  - cbn. lia.
  - reflexivity.
  - reflexivity.
  - cbn. lia.
  - cbn. lia.
Defined.

Lemma promise_completed (ref : nat) (env : Env.t) :
  ref < length (Env.promises env) ->
  Env.promise ref
    (snd (Env.completePromise ref Promise.succeed env))
  = Promise.succeed (Env.promise ref env).
Proof.
  intros Hlt. unfold Env.completePromise, ZIO.modify, Env.promise.
  cbn [snd Env.promises Env.set_promises].
  apply nth_error_nth.
  apply nth_error_update_same. exact Hlt.
Qed.

(** [awaitOrKill] on a process that is not running, and on one that runs
    on whatever it is asked. *)
Lemma awaitOrKill_stopped (gracePeriodSeconds : nat) (p : Process.t) :
  Process.isAlive p = false ->
  awaitOrKill gracePeriodSeconds p = (Success tt, p).
Proof.
  intros Ha. unfold awaitOrKill, ZIO.flatMap. cbn [awaitExit Subprocess].
  unfold Process.waitFor. rewrite Ha. reflexivity.
Qed.

Lemma awaitOrKill_stubborn (gracePeriodSeconds : nat) (p : Process.t) :
  Process.isAlive p = true ->
  Process.lifetime p = None ->
  Process.shutdown p = None ->
  awaitOrKill gracePeriodSeconds p
  = (Failure (Exception "Unable to kill deployed process"),
     Process.destroy p).
Proof.
  intros Ha Hl Hs. unfold awaitOrKill, ZIO.flatMap.
  cbn [awaitExit kill Subprocess].
  unfold Process.waitFor, ZIO.modify. rewrite Ha, Hl.
  unfold Process.destroy at 1 2 3.
  cbn [Process.isAlive Process.lifetime]. rewrite Ha, Hs, Hl. reflexivity.
Qed.

(** X17.  [SocketTransportServer.close()] completes the latch of the
    server, closes the two channels, both of them, and then gives the
    kernel process 30 seconds before destroying it: its outcome is the one
    of [awaitOrKill(30)], success for a process that is not running and
    the failure "Unable to kill deployed process" for one that runs on
    whatever it is asked.  The channels are closed and the latch completed
    in either case; after it the server is not connected and its
    [awaitClosed] returns; no other socket is touched. *)
Theorem server_close_shuts_down (server : SocketTransportServer)
  (env : Env.t) (main updates : FramedSocket.t) (p : Process.t) :
  mainChannel (server_channels server)
  <> notebookUpdatesChannel (server_channels server) ->
  nth_error (Env.sockets env) (mainChannel (server_channels server))
  = Some main ->
  nth_error (Env.sockets env)
    (notebookUpdatesChannel (server_channels server))
  = Some updates ->
  0 < FramedSocket.writeLock main ->
  0 < FramedSocket.writeLock updates ->
  server_closed server < length (Env.promises env) ->
  Env.process env = Some p ->
  fst (Endpoint.server_close server env) = fst (awaitOrKill 30 p)
  /\ Env.process (snd (Endpoint.server_close server env))
     = Some (snd (awaitOrKill 30 p))
  /\ Endpoint.server_isConnected server
       (snd (Endpoint.server_close server env))
     = (Success false, snd (Endpoint.server_close server env))
  /\ Env.promise (server_closed server)
       (snd (Endpoint.server_close server env))
     = Promise.succeed (Env.promise (server_closed server) env)
  /\ fst (Endpoint.server_awaitClosed server
            (snd (Endpoint.server_close server env)))
     <> NoReturn
  /\ Wire.holds (mainChannel (server_channels server))
       (fun fs => FramedSocket.isConnected fs = false
                  /\ Promise.isDone (FramedSocket.closed fs) = true)
       (snd (Endpoint.server_close server env))
  /\ Wire.holds (notebookUpdatesChannel (server_channels server))
       (fun fs => FramedSocket.isConnected fs = false
                  /\ Promise.isDone (FramedSocket.closed fs) = true)
       (snd (Endpoint.server_close server env))
  /\ (forall ref,
        ref <> mainChannel (server_channels server) ->
        ref <> notebookUpdatesChannel (server_channels server) ->
        nth_error (Env.sockets (snd (Endpoint.server_close server env))) ref
        = nth_error (Env.sockets env) ref)
  /\ Promise.isDone
       (Env.promise (server_closed server)
          (snd (Endpoint.server_close server env)))
     = true
  /\ (Process.isAlive p = false ->
      fst (Endpoint.server_close server env) = Success tt)
  /\ (Process.isAlive p = true ->
      Process.lifetime p = None ->
      Process.shutdown p = None ->
      fst (Endpoint.server_close server env)
      = Failure (Exception "Unable to kill deployed process")).
Proof.
  intros Hne Hm Hu Lm Lu Hc Hp.
  pose proof (promise_completed (server_closed server) env Hc) as PC.
  set (env1 := snd (Env.completePromise (server_closed server)
                      Promise.succeed env)) in *.
  assert (S1 : Env.sockets env1 = Env.sockets env) by reflexivity.
  assert (P1 : Env.process env1 = Env.process env) by reflexivity.
  destruct (channels_close_facts (server_channels server) env1
              main updates Hne)
    as (R2 & C2 & Hm2 & Hu2 & O2 & Pr2 & Pc2); try assumption.
  set (env2 := snd (close (server_channels server) env1)) in *.
  assert (E : Endpoint.server_close server env
              = (fst (awaitOrKill 30 p),
                 Env.set_process (Some (snd (awaitOrKill 30 p))) env2)).
  { unfold Endpoint.server_close.
    unfold ZIO.flatMap at 1. unfold ZIO.flatMap at 1.
    change (Env.completePromise (server_closed server) Promise.succeed env)
      with (Success tt, env1).
    cbv beta iota.
    destruct (close (server_channels server) env1) as [r e2] eqn:Ec.
    cbn [fst snd] in R2. subst r. subst env2. cbn [snd] in *.
    unfold Endpoint.onProcess. rewrite Pc2, P1, Hp.
    destruct (awaitOrKill 30 p). reflexivity. }
  rewrite E. cbn [fst snd Env.process Env.set_process].
  assert (PR : Env.promise (server_closed server)
                 (Env.set_process (Some (snd (awaitOrKill 30 p))) env2)
               = Promise.succeed (Env.promise (server_closed server) env)).
  { unfold Env.promise in *. cbn [Env.promises Env.set_process].
    rewrite Pr2. exact PC. }
  split; [reflexivity|]. split; [reflexivity|]. split.
  { unfold Endpoint.server_isConnected. f_equal. f_equal. exact C2. }
  split; [exact PR|]. split.
  { unfold Endpoint.server_awaitClosed. rewrite PR.
    destruct (Env.promise (server_closed server) env); discriminate. }
  split; [exact Hm2|]. split; [exact Hu2|]. split; [exact O2|]. split.
  { rewrite PR. destruct (Env.promise (server_closed server) env);
      reflexivity. }
  split.
  - intros Ha. rewrite (awaitOrKill_stopped 30 p Ha). reflexivity.
  - intros Ha Hl Hs. rewrite (awaitOrKill_stubborn 30 p Ha Hl Hs).
    reflexivity.
Qed.

Lemma server_close_shuts_down_witness :
  let exits := snd (Endpoint.server_close MoreExamples.theServer
                      (MoreExamples.served (MoreExamples.exiting 40))) in
  let stays := snd (Endpoint.server_close MoreExamples.theServer
                      (MoreExamples.served MoreExamples.stubborn)) in
  (fst (Endpoint.server_close MoreExamples.theServer
          (MoreExamples.served (MoreExamples.exiting 40)))
   = Success tt
   /\ Env.process exits = Some (Process.mk false 0 true (Some 0) (Some 0))
   /\ Wire.holds 0
        (fun fs => FramedSocket.isConnected fs = false
                   /\ Promise.isDone (FramedSocket.closed fs) = true) exits
   /\ Wire.holds 1
        (fun fs => FramedSocket.isConnected fs = false
                   /\ Promise.isDone (FramedSocket.closed fs) = true) exits
   /\ Env.promise 0 exits = Promise.Succeeded)
  /\ (fst (Endpoint.server_close MoreExamples.theServer
             (MoreExamples.served MoreExamples.stubborn))
      = Failure (Exception "Unable to kill deployed process")
      /\ Wire.holds 0
           (fun fs => FramedSocket.isConnected fs = false
                      /\ Promise.isDone (FramedSocket.closed fs) = true)
           stays
      /\ Wire.holds 1
           (fun fs => FramedSocket.isConnected fs = false
                      /\ Promise.isDone (FramedSocket.closed fs) = true)
           stays
      /\ Env.promise 0 stays = Promise.Succeeded).
Proof.
  cbv zeta. split.
  - destruct (server_close_shuts_down MoreExamples.theServer
                (MoreExamples.served (MoreExamples.exiting 40))
                (Examples.socket [] []) (Examples.socket [] [])
                (MoreExamples.exiting 40))
      as (R & P & _ & L & _ & M & U & _).
    + cbn. lia.
    + reflexivity.
    + reflexivity.
    + cbn. lia.
    + cbn. lia.
    + cbn. lia.
    + reflexivity.
    + split; [exact R|]. split; [exact P|]. split; [exact M|].
      split; [exact U|exact L].
  - destruct (server_close_shuts_down MoreExamples.theServer
                (MoreExamples.served MoreExamples.stubborn)
                (Examples.socket [] []) (Examples.socket [] [])
                MoreExamples.stubborn)
      as (_ & _ & _ & L & _ & M & U & _ & _ & _ & Fails).
    + cbn. lia.
    + reflexivity.
    + reflexivity.
    + cbn. lia.
    + cbn. lia.
    + cbn. lia.
    + reflexivity.
    + split; [apply Fails; reflexivity|]. split; [exact M|].
      split; [exact U|exact L].
Defined.

(** X18.  [SocketTransportClient.close()] completes the latch of the
    client and closes its two channels, both of them: each socket ends
    with its channel closed and its own latch completed.  It returns, the
    client is no longer connected, and no other socket and not the process
    is touched. *)
Theorem client_close_shuts_down (client : SocketTransportClient)
  (env : Env.t) (main updates : FramedSocket.t) :
  mainChannel (client_channels client)
  <> notebookUpdatesChannel (client_channels client) ->
  nth_error (Env.sockets env) (mainChannel (client_channels client))
  = Some main ->
  nth_error (Env.sockets env)
    (notebookUpdatesChannel (client_channels client))
  = Some updates ->
  0 < FramedSocket.writeLock main ->
  0 < FramedSocket.writeLock updates ->
  client_closed client < length (Env.promises env) ->
  fst (client_close client env) = Success tt
  /\ isConnected (client_channels client) (snd (client_close client env))
     = false
  /\ Env.promise (client_closed client) (snd (client_close client env))
     = Promise.succeed (Env.promise (client_closed client) env)
  /\ Env.process (snd (client_close client env)) = Env.process env
  /\ Wire.holds (mainChannel (client_channels client))
       (fun fs => FramedSocket.isConnected fs = false
                  /\ Promise.isDone (FramedSocket.closed fs) = true)
       (snd (client_close client env))
  /\ Wire.holds (notebookUpdatesChannel (client_channels client))
       (fun fs => FramedSocket.isConnected fs = false
                  /\ Promise.isDone (FramedSocket.closed fs) = true)
       (snd (client_close client env))
  /\ (forall ref,
        ref <> mainChannel (client_channels client) ->
        ref <> notebookUpdatesChannel (client_channels client) ->
        nth_error (Env.sockets (snd (client_close client env))) ref
        = nth_error (Env.sockets env) ref)
  /\ Promise.isDone
       (Env.promise (client_closed client) (snd (client_close client env)))
     = true.
Proof.
  intros Hne Hm Hu Lm Lu Hc.
  pose proof (promise_completed (client_closed client) env Hc) as PC.
  set (env1 := snd (Env.completePromise (client_closed client)
                      Promise.succeed env)) in *.
  destruct (channels_close_facts (client_channels client) env1
              main updates Hne)
    as (R2 & C2 & Hm2 & Hu2 & O2 & Pr2 & Pc2); try assumption.
  unfold client_close, ZIO.flatMap.
  change (Env.completePromise (client_closed client) Promise.succeed env)
    with (Success tt, env1).
  cbv beta iota.
  destruct (close (client_channels client) env1) as [r e2] eqn:Ec.
  cbn [fst snd] in *.
  assert (PR : Env.promise (client_closed client) e2
               = Promise.succeed (Env.promise (client_closed client) env)).
  { unfold Env.promise in *. rewrite Pr2. exact PC. }
  split; [exact R2|]. split; [exact C2|]. split; [exact PR|].
  split; [exact Pc2|]. split; [exact Hm2|]. split; [exact Hu2|].
  split; [exact O2|].
  rewrite PR. destruct (Env.promise (client_closed client) env); reflexivity.
Qed.

Lemma client_close_shuts_down_witness :
  let env := Examples.connected [x41] [] in
  fst (client_close Examples.theClient env) = Success tt
  /\ isConnected (client_channels Examples.theClient)
       (snd (client_close Examples.theClient env))
     = false
  /\ Env.promise 0 (snd (client_close Examples.theClient env))
     = Promise.Succeeded
  /\ Env.process (snd (client_close Examples.theClient env)) = None
  /\ Wire.holds 0
       (fun fs => FramedSocket.isConnected fs = false
                  /\ Promise.isDone (FramedSocket.closed fs) = true)
       (snd (client_close Examples.theClient env))
  /\ Wire.holds 1
       (fun fs => FramedSocket.isConnected fs = false
                  /\ Promise.isDone (FramedSocket.closed fs) = true)
       (snd (client_close Examples.theClient env))
  /\ (forall ref,
        ref <> 0 -> ref <> 1 ->
        nth_error (Env.sockets (snd (client_close Examples.theClient env)))
          ref
        = nth_error (Env.sockets env) ref)
  /\ Promise.isDone
       (Env.promise 0 (snd (client_close Examples.theClient env)))
     = true.
Proof.
  apply (client_close_shuts_down Examples.theClient
           (Examples.connected [x41] []) (Examples.socket [x41] [])
           (Examples.socket [] [])).
  - cbn. lia.
  - reflexivity.
  - reflexivity.
  - cbn. lia.
  - cbn. lia.
  - cbn. lia.
Defined.

End Closing.

Section ProcessEnvironment.

Import DeploySubprocess.

Lemma Map_get_put (k k' v : string) (m : Map) :
  Map_get k (Map_put k' v m)
  = if String.eqb k' k then Some v else Map_get k m.
Proof.
  unfold Map_get, Map_put. cbn [find fst snd].
  destruct (String.eqb k' k) eqn:E; [reflexivity|].
  induction m as [|[a b] m IH]; [reflexivity|].
  cbn [filter find fst snd].
  destruct (String.eqb a k') eqn:Ea; cbn [negb].
  - apply String.eqb_eq in Ea. subst a. rewrite E. exact IH.
  - cbn [find fst snd]. destruct (String.eqb a k); [reflexivity|exact IH].
Qed.

Lemma Map_get_cons (k a b : string) (m : Map) :
  Map_get k ((a, b) :: m)
  = if String.eqb a k then Some b else Map_get k m.
Proof.
  unfold Map_get. cbn [find fst snd].
  destruct (String.eqb a k); reflexivity.
Qed.

(** Putting the bindings of a map one after the other: a key bound in the
    map gets its value, the other keys keep theirs. *)
Lemma Map_get_fold_put (entries : Map) :
  NoDup (map fst entries) ->
  forall (k : string) (m : Map),
    Map_get k (fold_left (fun acc kv => Map_put (fst kv) (snd kv) acc)
                 entries m)
    = match Map_get k entries with
      | Some v => Some v
      | None => Map_get k m
      end.
Proof.
  induction entries as [|[a b] entries IH]; intros Hnd k m; [reflexivity|].
  cbn [map fst] in Hnd. inversion Hnd as [|? ? Hnotin Hnd']; subst.
  cbn [fold_left fst snd]. rewrite (IH Hnd').
  rewrite Map_get_put, (Map_get_cons k a b entries).
  destruct (String.eqb a k) eqn:E; [|reflexivity].
  apply String.eqb_eq in E. subst a.
  destruct (Map_get k entries) as [v|] eqn:G; [|reflexivity].
  exfalso. apply Hnotin. clear - G.
  unfold Map_get in G.
  destruct (find (fun kv => String.eqb (fst kv) k) entries) as [kv|] eqn:F;
    [|discriminate].
  apply find_some in F. destruct F as [Hin Heq].
  apply String.eqb_eq in Heq. subst k. apply in_map. exact Hin.
Qed.

Lemma Map_put_keys (k v : string) (m : Map) :
  NoDup (map fst m) -> NoDup (map fst (Map_put k v m)).
Proof.
  intros Hnd. unfold Map_put. cbn [map fst]. constructor.
  - intros Hin. apply in_map_iff in Hin. destruct Hin as ([a b] & Ha & Hin).
    apply filter_In in Hin. destruct Hin as [_ Hneq]. cbn [fst] in *.
    subst a. rewrite String.eqb_refl in Hneq. discriminate.
  - induction m as [|[a b] m IH]; [constructor|].
    cbn [map fst] in Hnd. inversion Hnd as [|? ? Hnotin Hnd']; subst.
    cbn [filter fst]. destruct (negb (String.eqb a k)).
    + cbn [map fst]. constructor; [|exact (IH Hnd')].
      intros Hin. apply Hnotin. apply in_map_iff in Hin.
      destruct Hin as (x & Hx & Hin). apply filter_In in Hin.
      apply in_map_iff. exists x. split; [exact Hx|apply Hin].
    + exact (IH Hnd').
Qed.

Lemma Map_concat_keys (m2 : Map) :
  forall m1, NoDup (map fst m1) -> NoDup (map fst (Map_concat m1 m2)).
Proof.
  unfold Map_concat. induction m2 as [|[a b] m2 IH]; intros m1 Hnd;
    [exact Hnd|].
  cbn [fold_left fst snd]. apply IH. apply Map_put_keys. exact Hnd.
Qed.

(** X19.  The environment of the kernel process: a variable set in the
    configuration of the notebook has that value; else one set in the
    configuration of the server has that one; every other variable is
    inherited as it is. *)
Theorem notebook_env_overrides_config_env (inherited config : Map)
  (nbEnv : option Map) (k : string) :
  NoDup (map fst config) ->
  (forall m, nbEnv = Some m -> NoDup (map fst m)) ->
  Map_get k (processEnvironment inherited config nbEnv)
  = match match nbEnv with
          | Some m => Map_get k m
          | None => None
          end with
    | Some v => Some v
    | None =>
        match Map_get k config with
        | Some v => Some v
        | None => Map_get k inherited
        end
    end.
Proof.
  intros Hc Hn. unfold processEnvironment.
  set (nb := match nbEnv with Some m => m | None => [] end).
  assert (Hnb : NoDup (map fst nb)).
  { subst nb. destruct nbEnv as [m|]; [apply Hn; reflexivity|constructor]. }
  assert (G : match nbEnv with Some m => Map_get k m | None => None end
              = Map_get k nb).
  { subst nb. destruct nbEnv; reflexivity. }
  rewrite G.
  rewrite (Map_get_fold_put _ (Map_concat_keys nb config Hc)).
  unfold Map_concat. rewrite (Map_get_fold_put nb Hnb).
  destruct (Map_get k nb); reflexivity.
Qed.

Lemma notebook_env_overrides_config_env_witness :
  let inherited := [("PATH", "/bin"); ("HOME", "/root")]%string in
  let config := [("HOME", "/srv"); ("MODE", "server")]%string in
  let nbEnv := Some [("MODE", "notebook")]%string in
  Map_get "MODE" (processEnvironment inherited config nbEnv)
  = Some "notebook"%string.
Proof.
  apply (notebook_env_overrides_config_env
           [("PATH", "/bin"); ("HOME", "/root")]%string
           [("HOME", "/srv"); ("MODE", "server")]%string
           (Some [("MODE", "notebook")]%string) "MODE"%string).
  - repeat constructor; cbn; intuition discriminate.
  - intros m E. injection E as <-. repeat constructor; cbn; intuition.
Defined.

End ProcessEnvironment.

Section Serving.

Import SocketTransport.

Variable decodeBuffer : ByteBuffer.t -> Throwable + IdentifyChannel.

(** X20.  [deployAndServe] when the kernel starts and connects back twice
    in time, and each connection identifies itself with a tag, after any
    number of keepalives: a server is returned whose main channel is the
    connection that sent the tag of the main channel, whichever of the two
    was accepted first, and the process is the one deployed. *)
Theorem deployAndServe_serves_the_kernel (fuel : nat)
  (serverAddress : InetSocketAddress) (env : Env.t) (p : Process.t)
  (elapsed1 elapsed2 : Z) (channel1 channel2 : SocketChannel.t)
  (later : list (option (Z * SocketChannel.t)))
  (k1 k2 bound1 bound2 : nat) (tag1 tag2 rest1 rest2 : list byte)
  (role1 role2 : IdentifyChannel) :
  Env.launcher env = inr p ->
  Env.backlog env
  = Some (elapsed1, channel1) :: Some (elapsed2, channel2) :: later ->
  (elapsed1 < Duration.toMillis (Duration.minutes 3))%Z ->
  (elapsed2 < Duration.toMillis (Duration.minutes 3))%Z ->
  Wire.awaiting (Wire.keepalives k1 ++ Wire.frame tag1 ++ rest1) bound1
    (FramedSocket.apply channel1 true) ->
  Wire.awaiting (Wire.keepalives k2 ++ Wire.frame tag2 ++ rest2) bound2
    (FramedSocket.apply channel2 true) ->
  1 <= length tag1 ->
  1 <= length tag2 ->
  (Z.of_nat (length tag1) <= 2 ^ 31 - 1)%Z ->
  (Z.of_nat (length tag2) <= 2 ^ 31 - 1)%Z ->
  decodeBuffer (ByteBuffer.wrap tag1) = inr role1 ->
  decodeBuffer (ByteBuffer.wrap tag2) = inr role2 ->
  k1 < fuel ->
  k2 < fuel ->
  bound1 + 4 + length tag1 < fuel ->
  bound2 + 4 + length tag2 < fuel ->
  let first := length (Env.sockets env) in
  let run := deployAndServe decodeBuffer fuel serverAddress env in
  (role1 = MainChannel /\ role2 = NotebookUpdatesChannel ->
   fst run
   = Success (mkServer serverAddress
                (mkChannels first (S first) serverAddress)
                (length (Env.promises env)))
   /\ Env.process (snd run) = Some p)
  /\ (role1 = NotebookUpdatesChannel /\ role2 = MainChannel ->
      fst run
      = Success (mkServer serverAddress
                   (mkChannels (S first) first serverAddress)
                   (length (Env.promises env)))
      /\ Env.process (snd run) = Some p).
Proof.
  intros Hl Hb T1 T2 A1 A2 L1 L2 M1 M2 D1 D2 K1 K2 F1 F2 first run.
  (* the kernel is deployed *)
  set (env0 := Env.set_process (Some p) env).
  assert (E0 : deployKernel env = (Success tt, env0))
    by (unfold deployKernel; rewrite Hl; reflexivity).
  (* the first connection *)
  assert (B0 : Env.backlog env0
               = Some (elapsed1, channel1) :: Some (elapsed2, channel2)
                   :: later) by exact Hb.
  pose proof (startConnection_accepts env0 elapsed1 channel1 _ B0 T1) as E1.
  change (length (Env.sockets env0)) with first in E1.
  set (env1 := Env.set_sockets _ _) in E1.
  assert (H1 : Wire.holds first
                 (Wire.awaiting (Wire.keepalives k1 ++ Wire.frame tag1
                                   ++ rest1) bound1) env1).
  { apply (holds_newSocket_new _ _ env0). exact A1. }
  assert (P1 : Env.process env1 = Some p) by reflexivity.
  assert (Pr1 : Env.promises env1 = Env.promises env) by reflexivity.
  assert (Len1 : length (Env.sockets env1) = S first).
  { subst env1 first. cbn [Env.sockets Env.set_sockets Env.set_process].
    rewrite length_app. simpl. lia. }
  assert (B1 : Env.backlog env1 = Some (elapsed2, channel2) :: later)
    by reflexivity.
  (* first preemption point *)
  destruct (yield_frame env1) as (Y1 & YL1 & _ & YP1).
  pose proof (yield_backlog env1) as YB1.
  pose proof (yield_process env1) as YQ1.
  apply (yield_holds first _ env1 (awaiting_stable _ _)) in H1.
  set (env2 := snd (Env.yield env1)) in *.
  rewrite B1 in YB1. rewrite Len1 in YL1. rewrite P1 in YQ1.
  rewrite Pr1 in YP1.
  (* the second connection *)
  pose proof (startConnection_accepts env2 elapsed2 channel2 _ YB1 T2) as E3.
  rewrite YL1 in E3.
  set (env3 := Env.set_sockets _ _) in E3.
  assert (H3 : Wire.holds first
                 (Wire.awaiting (Wire.keepalives k1 ++ Wire.frame tag1
                                   ++ rest1) bound1) env3).
  { apply holds_newSocket_old. exact H1. }
  assert (U3 : Wire.holds (S first)
                 (Wire.awaiting (Wire.keepalives k2 ++ Wire.frame tag2
                                   ++ rest2) bound2) env3).
  { rewrite <- YL1. apply (holds_newSocket_new _ _ env2). exact A2. }
  assert (P3 : Env.process env3 = Some p) by exact YQ1.
  assert (Pr3 : Env.promises env3 = Env.promises env) by exact YP1.
  (* second preemption point *)
  destruct (yield_frame env3) as (Y3 & _ & _ & YP3).
  pose proof (yield_process env3) as YQ3.
  apply (yield_holds first _ env3 (awaiting_stable _ _)) in H3.
  apply (yield_holds (S first) _ env3 (awaiting_stable _ _)) in U3.
  set (env4 := snd (Env.yield env3)) in *.
  rewrite P3 in YQ3. rewrite Pr3 in YP3.
  (* the handshake *)
  assert (N5 : exists env5,
             Env.newPromise env4
             = (Success (length (Env.promises env)), env5)
             /\ Env.sockets env5 = Env.sockets env4
             /\ Env.process env5 = Env.process env4).
  { unfold Env.newPromise. rewrite YP3. eexists.
    split; [reflexivity|]. split; reflexivity. }
  destruct N5 as (env5 & N5 & S5 & Q5).
  assert (H5 : Wire.holds first
                 (Wire.awaiting (Wire.keepalives k1 ++ Wire.frame tag1
                                   ++ rest1) bound1) env5)
    by (unfold Wire.holds in *; rewrite S5; exact H3).
  assert (U5 : Wire.holds (S first)
                 (Wire.awaiting (Wire.keepalives k2 ++ Wire.frame tag2
                                   ++ rest2) bound2) env5)
    by (unfold Wire.holds in *; rewrite S5; exact U3).
  assert (P5 : Env.process env5 = Some p) by (rewrite Q5; exact YQ3).
  destruct (identify_reads_tag decodeBuffer fuel first k1 bound1 tag1 rest1
              role1 env5 L1 M1 D1 H5 K1 F1) as (env6 & E6 & _ & O6).
  apply (O6 (S first)) in U5; [|lia|apply awaiting_stable].
  destruct (identify_reads_tag decodeBuffer fuel (S first) k2 bound2 tag2
              rest2 role2 env6 L2 M2 D2 U5 K2 F2) as (env7 & E7 & _ & _).
  assert (P7 : Env.process env7 = Some p).
  { pose proof (identify_process decodeBuffer fuel first env5) as Q6.
    pose proof (identify_process decodeBuffer fuel (S first) env6) as Q7.
    rewrite E6 in Q6. rewrite E7 in Q7. cbn [snd] in *. congruence. }
  destruct (selectChannels_of_roles decodeBuffer fuel first (S first)
              serverAddress env5 env6 env7 role1 role2 E6 E7) as [SA SB].
  assert (R : forall channels,
             selectChannels decodeBuffer fuel first (S first) serverAddress
               env5 = (Success channels, env7) ->
             run
             = (Success (mkServer serverAddress channels
                           (length (Env.promises env))), env7)).
  { intros channels Sel. subst run. unfold deployAndServe.
    unfold ZIO.flatMap at 1. rewrite E0.
    unfold ZIO.flatMap at 1. rewrite E1.
    unfold ZIO.flatMap at 1. rewrite Y1.
    unfold ZIO.flatMap at 1. rewrite E3.
    unfold ZIO.flatMap at 1. rewrite Y3.
    unfold SocketTransportServer_apply.
    unfold ZIO.flatMap at 1. rewrite N5.
    unfold ZIO.flatMap at 1. rewrite Sel. reflexivity. }
  split; intros Hr.
  - rewrite (R _ (SA Hr)). split; [reflexivity|exact P7].
  - rewrite (R _ (SB Hr)). split; [reflexivity|exact P7].
Qed.

End Serving.

Lemma deployAndServe_serves_the_kernel_witness :
  let run :=
    SocketTransport.deployAndServe Examples.decodeRole 10 Examples.localhost
      (Examples.serving (Wire.keepalives 1 ++ Wire.frame [x01] ++ [])
         (Wire.keepalives 0 ++ Wire.frame [x00] ++ [])) in
  fst run
  = Success (SocketTransport.mkServer Examples.localhost
               (SocketTransport.mkChannels 1 0 Examples.localhost) 0)
  /\ Env.process (snd run) = Some Examples.kernel.
Proof.
  apply (proj2 (deployAndServe_serves_the_kernel Examples.decodeRole 10
                  Examples.localhost
                  (Examples.serving
                     (Wire.keepalives 1 ++ Wire.frame [x01] ++ [])
                     (Wire.keepalives 0 ++ Wire.frame [x00] ++ []))
                  Examples.kernel 10 20 _ _ [] 1 0 0 0 [x01] [x00] [] []
                  NotebookUpdatesChannel MainChannel
                  eq_refl eq_refl eq_refl eq_refl
                  (conj eq_refl (conj eq_refl (conj eq_refl (le_n 0))))
                  (conj eq_refl (conj eq_refl (conj eq_refl (le_n 0))))
                  (le_n 1) (le_n 1)
                  ltac:(cbn; lia) ltac:(cbn; lia) eq_refl eq_refl
                  ltac:(lia) ltac:(lia) ltac:(cbn; lia) ltac:(cbn; lia))).
  split; reflexivity.
Defined.

Section EndToEndHandshake.

Import SocketTransport.

Variable encode : IdentifyChannel -> Throwable + list byte.
Variable decodeBuffer : ByteBuffer.t -> Throwable + IdentifyChannel.

(** What [connectClient] leaves on the wire of its two connections. *)
Lemma connectClient_run (fuel : nat)
  (serverAddress : InetSocketAddress) (env : Env.t)
  (channelA channelB : SocketChannel.t)
  (later : list (Throwable + SocketChannel.t))
  (tagMain tagUpdates : list byte) :
  Env.network env = inr channelA :: inr channelB :: later ->
  Wire.fresh channelA ->
  Wire.fresh channelB ->
  encode MainChannel = inr tagMain ->
  encode NotebookUpdatesChannel = inr tagUpdates ->
  (Z.of_nat (length tagMain) <= 2 ^ 31 - 1)%Z ->
  (Z.of_nat (length tagUpdates) <= 2 ^ 31 - 1)%Z ->
  2 <= fuel ->
  exists client env' before after before' after',
    connectClient encode fuel serverAddress env = (Success client, env')
    /\ client_channels client
       = mkChannels (length (Env.sockets env)) (S (length (Env.sockets env)))
           serverAddress
    /\ Endpoint.sentOn (length (Env.sockets env)) env'
       = Wire.keepalives before ++ Wire.frame tagMain
           ++ Wire.keepalives after
    /\ Endpoint.sentOn (S (length (Env.sockets env))) env'
       = Wire.keepalives before' ++ Wire.frame tagUpdates
           ++ Wire.keepalives after'.
Proof.
  intros Hnet FA FB EM EU MM MU Hfuel.
  unfold connectClient.
  (* the main connection *)
  unfold ZIO.flatMap at 1.
  rewrite (open_framed env channelA (inr channelB :: later) Hnet).
  set (env1 := Env.set_sockets _ _).
  assert (H1 : Wire.holds (length (Env.sockets env))
                 (Wire.sendingAfter []) env1).
  { apply holds_newSocket_new. apply fresh_sendingAfter. exact FA. }
  assert (N1 : Env.network env1 = inr channelB :: later) by reflexivity.
  assert (L1 : length (Env.sockets env1) = S (length (Env.sockets env))).
  { subst env1. cbn [Env.sockets Env.set_sockets].
    rewrite length_app. simpl. lia. }
  remember (length (Env.sockets env)) as main eqn:Hmain.
  (* first preemption point *)
  unfold ZIO.flatMap at 1.
  destruct (yield_frame env1) as (Y & YL & YN & _). rewrite Y. clear Y.
  apply (yield_holds main _ env1 (sendingAfter_stable [])) in H1.
  set (env2 := snd (Env.yield env1)) in *.
  rewrite N1 in YN. rewrite L1 in YL.
  (* the connection of the updates *)
  unfold ZIO.flatMap at 1.
  rewrite (open_framed env2 channelB later YN). rewrite YL.
  set (env3 := Env.set_sockets _ _).
  assert (H3 : Wire.holds main (Wire.sendingAfter []) env3).
  { apply holds_newSocket_old. exact H1. }
  assert (U3 : Wire.holds (S main) (Wire.sendingAfter []) env3).
  { rewrite <- YL. apply holds_newSocket_new. apply fresh_sendingAfter.
    exact FB. }
  (* second preemption point *)
  unfold ZIO.flatMap at 1.
  destruct (yield_frame env3) as (Y & _). rewrite Y. clear Y.
  apply (yield_holds main _ env3 (sendingAfter_stable [])) in H3.
  apply (yield_holds (S main) _ env3 (sendingAfter_stable [])) in U3.
  set (env4 := snd (Env.yield env3)) in *.
  (* the tag of the main channel *)
  unfold ZIO.flatMap at 1. unfold ZIO.flatMap at 1.
  rewrite EM. cbn [fromEither ZIO.succeed].
  destruct (onSocket_write fuel tagMain [] main env4 Hfuel MM H3)
    as (k1 & env5 & W5 & H5 & _ & _ & _ & O5).
  rewrite W5. cbn [app] in H5.
  apply (O5 (S main)) in U3; [|lia].
  (* third preemption point *)
  unfold ZIO.flatMap at 1.
  destruct (yield_frame env5) as (Y & _). rewrite Y. clear Y.
  apply (yield_holds main _ env5 (sendingAfter_stable _)) in H5.
  apply (yield_holds (S main) _ env5 (sendingAfter_stable [])) in U3.
  set (env6 := snd (Env.yield env5)) in *.
  (* the tag of the channel of the updates *)
  unfold ZIO.flatMap at 1. unfold ZIO.flatMap at 1.
  rewrite EU. cbn [fromEither ZIO.succeed].
  destruct (onSocket_write fuel tagUpdates [] (S main) env6 Hfuel MU U3)
    as (k2 & env7 & W7 & U7 & _ & _ & _ & O7).
  rewrite W7. cbn [app] in U7.
  apply (O7 main) in H5; [|lia].
  (* fourth preemption point *)
  unfold ZIO.flatMap at 1.
  destruct (yield_frame env7) as (Y & _). rewrite Y. clear Y.
  apply (yield_holds main _ env7 (sendingAfter_stable _)) in H5.
  apply (yield_holds (S main) _ env7 (sendingAfter_stable _)) in U7.
  set (env8 := snd (Env.yield env7)) in *.
  (* the client *)
  cbv zeta. unfold SocketTransportClient_apply, ZIO.flatMap, Env.newPromise,
    ZIO.succeed.
  destruct H5 as (sm & Hsm & _ & _ & a1 & Om).
  destruct U7 as (su & Hsu & _ & _ & a2 & Ou).
  eexists. eexists. exists k1, a1, k2, a2.
  split; [reflexivity|].
  cbn [client_channels mainChannel notebookUpdatesChannel].
  split; [reflexivity|].
  unfold Endpoint.sentOn. cbn [Env.sockets Env.set_promises].
  rewrite Hsm, Hsu, Om, Ou, <- !app_assoc. split; reflexivity.
Qed.

Lemma keepalives_length (k : nat) : length (Wire.keepalives k) = 4 * k.
Proof.
  induction k as [|k IH]; [reflexivity|].
  rewrite keepalives_snoc, length_app, IH. unfold intBytes. cbn [length]. lia.
Qed.

(** The server identifies a connection from what [connectClient] wrote on
    it. *)
Lemma identify_client_connection (fuel : nat) (channel : nat)
  (before after bound : nat) (tag rest : list byte) (role : IdentifyChannel)
  (sent : list byte) (env : Env.t) :
  sent = Wire.keepalives before ++ Wire.frame tag ++ Wire.keepalives after ->
  1 <= length tag ->
  (Z.of_nat (length tag) <= 2 ^ 31 - 1)%Z ->
  decodeBuffer (ByteBuffer.wrap tag) = inr role ->
  Wire.holds channel (Wire.awaiting (sent ++ rest) bound) env ->
  bound + 4 + length sent < fuel ->
  exists env',
    identify decodeBuffer fuel channel env = (Success role, env')
    /\ (forall channel' P,
          channel' <> channel -> Wire.stable P ->
          Wire.holds channel' P env -> Wire.holds channel' P env').
Proof.
  intros Hs L M D H F.
  assert (Len : length sent
                = 4 * before + (4 + length tag) + 4 * after).
  { rewrite Hs, !length_app, !keepalives_length. unfold Wire.frame.
    rewrite length_app. unfold intBytes. cbn [length]. lia. }
  assert (H' : Wire.holds channel
                 (Wire.awaiting
                    (Wire.keepalives before ++ Wire.frame tag
                       ++ (Wire.keepalives after ++ rest)) bound) env).
  { rewrite Hs in H. rewrite <- !app_assoc in H. exact H. }
  destruct (identify_reads_tag decodeBuffer fuel channel before bound tag
              (Wire.keepalives after ++ rest) role env L M D H')
    as (env' & E & _ & O); [lia|lia|].
  exists env'. split; [exact E|exact O].
Qed.

(** X21.  The handshake, end to end.  A client that connects with
    [connectClient] is told apart by the server: when what the client
    wrote on its two connections, keepalives included, is what the two
    accepted sockets of the server have to read, [selectChannels] binds as
    main channel the socket of the client's main channel, in whichever
    order the two were accepted. *)
Theorem handshake_end_to_end (fuelC fuel : nat)
  (serverAddress address : InetSocketAddress) (client_env : Env.t)
  (channelA channelB : SocketChannel.t)
  (later : list (Throwable + SocketChannel.t))
  (tagMain tagUpdates : list byte)
  (server_env : Env.t) (channel1 channel2 : nat) (bound : nat)
  (rest1 rest2 : list byte) :
  Env.network client_env = inr channelA :: inr channelB :: later ->
  Wire.fresh channelA ->
  Wire.fresh channelB ->
  encode MainChannel = inr tagMain ->
  encode NotebookUpdatesChannel = inr tagUpdates ->
  (Z.of_nat (length tagMain) <= 2 ^ 31 - 1)%Z ->
  (Z.of_nat (length tagUpdates) <= 2 ^ 31 - 1)%Z ->
  1 <= length tagMain ->
  1 <= length tagUpdates ->
  decodeBuffer (ByteBuffer.wrap tagMain) = inr MainChannel ->
  decodeBuffer (ByteBuffer.wrap tagUpdates) = inr NotebookUpdatesChannel ->
  2 <= fuelC ->
  channel1 <> channel2 ->
  let connected := connectClient encode fuelC serverAddress client_env in
  let main := length (Env.sockets client_env) in
  let sentMain := Endpoint.sentOn main (snd connected) in
  let sentUpdates := Endpoint.sentOn (S main) (snd connected) in
  bound + 4 + length sentMain < fuel ->
  bound + 4 + length sentUpdates < fuel ->
  (exists client,
     fst connected = Success client
     /\ client_channels client = mkChannels main (S main) serverAddress)
  /\ (Wire.holds channel1 (Wire.awaiting (sentMain ++ rest1) bound)
        server_env ->
      Wire.holds channel2 (Wire.awaiting (sentUpdates ++ rest2) bound)
        server_env ->
      fst (selectChannels decodeBuffer fuel channel1 channel2 address
             server_env)
      = Success (mkChannels channel1 channel2 address))
  /\ (Wire.holds channel1 (Wire.awaiting (sentUpdates ++ rest1) bound)
        server_env ->
      Wire.holds channel2 (Wire.awaiting (sentMain ++ rest2) bound)
        server_env ->
      fst (selectChannels decodeBuffer fuel channel1 channel2 address
             server_env)
      = Success (mkChannels channel2 channel1 address)).
Proof.
  intros Hnet FA FB EM EU MM MU LM LU DM DU HfuelC Hne connected main
    sentMain sentUpdates FM FU.
  destruct (connectClient_run fuelC serverAddress client_env channelA
              channelB later tagMain tagUpdates Hnet FA FB EM EU MM MU
              HfuelC)
    as (client & env' & b & a & b' & a' & Run & Ch & SM & SU).
  assert (Ec : snd connected = env') by (subst connected; rewrite Run;
                                         reflexivity).
  subst sentMain sentUpdates. rewrite Ec in *. fold main in SM, SU.
  split.
  { exists client. subst connected. rewrite Run. split; [reflexivity|exact Ch]. }
  split; intros H1 H2.
  - destruct (identify_client_connection fuel channel1 b a bound tagMain
                rest1 MainChannel _ server_env SM LM MM DM H1 FM)
      as (env1 & E1 & O1).
    apply (O1 channel2) in H2; [|congruence|apply awaiting_stable].
    destruct (identify_client_connection fuel channel2 b' a' bound
                tagUpdates rest2 NotebookUpdatesChannel _ env1 SU LU MU DU
                H2 FU)
      as (env2 & E2 & _).
    destruct (selectChannels_of_roles decodeBuffer fuel channel1 channel2
                address server_env env1 env2 _ _ E1 E2) as [A _].
    rewrite (A (conj eq_refl eq_refl)). reflexivity.
  - destruct (identify_client_connection fuel channel1 b' a' bound
                tagUpdates rest1 NotebookUpdatesChannel _ server_env SU LU
                MU DU H1 FU)
      as (env1 & E1 & O1).
    apply (O1 channel2) in H2; [|congruence|apply awaiting_stable].
    destruct (identify_client_connection fuel channel2 b a bound tagMain
                rest2 MainChannel _ env1 SM LM MM DM H2 FM)
      as (env2 & E2 & _).
    destruct (selectChannels_of_roles decodeBuffer fuel channel1 channel2
                address server_env env1 env2 _ _ E1 E2) as [_ B].
    rewrite (B (conj eq_refl eq_refl)). reflexivity.
Qed.

End EndToEndHandshake.

Lemma fresh_silent :
  Wire.fresh (SocketChannel.mk true [] [] SocketChannel.Silent [] []).
Proof. split; [reflexivity|]. split; reflexivity. Qed.

Lemma accepted_awaiting (bytes1 bytes2 : list byte) :
  Wire.holds 0 (Wire.awaiting (bytes1 ++ []) 0)
    (Examples.accepted (bytes1 ++ []) (bytes2 ++ []))
  /\ Wire.holds 1 (Wire.awaiting (bytes2 ++ []) 0)
       (Examples.accepted (bytes1 ++ []) (bytes2 ++ [])).
Proof.
  split; (eexists; split; [reflexivity|]);
    (split; [reflexivity|]); (split; [reflexivity|]);
    (split; [reflexivity|]); cbn; lia.
Qed.

Lemma handshake_end_to_end_witness :
  let connected :=
    SocketTransport.connectClient Examples.encodeRole 2 Examples.localhost
      (Examples.connecting [[0]; [1; 0]; []; [0; 1; 1]]) in
  let sentMain := Endpoint.sentOn 0 (snd connected) in
  let sentUpdates := Endpoint.sentOn 1 (snd connected) in
  fst (SocketTransport.selectChannels Examples.decodeRole 40 0 1
         Examples.localhost
         (Examples.accepted (sentUpdates ++ []) (sentMain ++ [])))
  = Success (SocketTransport.mkChannels 1 0 Examples.localhost).
Proof.
  cbv zeta.
  destruct (handshake_end_to_end Examples.encodeRole Examples.decodeRole
              2 40 Examples.localhost Examples.localhost
              (Examples.connecting [[0]; [1; 0]; []; [0; 1; 1]])
              _ _ [] [x00] [x01]
              (Examples.accepted
                 (Endpoint.sentOn 1
                    (snd (SocketTransport.connectClient Examples.encodeRole
                            2 Examples.localhost
                            (Examples.connecting
                               [[0]; [1; 0]; []; [0; 1; 1]]))) ++ [])
                 (Endpoint.sentOn 0
                    (snd (SocketTransport.connectClient Examples.encodeRole
                            2 Examples.localhost
                            (Examples.connecting
                               [[0]; [1; 0]; []; [0; 1; 1]]))) ++ []))
              0 1 0 [] []
              eq_refl fresh_silent fresh_silent eq_refl eq_refl
              ltac:(cbn; lia) ltac:(cbn; lia) (le_n 1) (le_n 1)
              eq_refl eq_refl (le_n 2) ltac:(lia)
              ltac:(vm_compute; lia) ltac:(vm_compute; lia))
    as (_ & _ & Swapped).
  apply Swapped; apply accepted_awaiting.
Defined.

Section ClientStreams.

Import SocketTransport.

Variables RemoteRequest NotebookUpdate : Type.
Variable decodeRequests : list byte -> list RemoteRequest * option Throwable.
Variable decodeUpdates : list byte -> list NotebookUpdate * option Throwable.

(** What every pull keeps, a run keeps. *)
Lemma runFrom_invariant {A} (s : Stream.t Env.t A) (I : Env.t -> Prop) :
  (forall fuel st env, I env -> I (snd (Stream.pull s fuel st env))) ->
  forall steps fuel st env,
    I env -> I (snd (Stream.runFrom s steps fuel st env)).
Proof.
  intros Hpull. induction steps as [|steps IH]; intros fuel st env Hi;
    [exact Hi|].
  cbn [Stream.runFrom].
  specialize (Hpull fuel st env Hi).
  destruct (Stream.pull s fuel st env) as [[a st'|st'| |e|] env'];
    cbn [snd] in *; try exact Hpull.
  - specialize (IH fuel st' env' Hpull).
    destruct (Stream.runFrom s steps fuel st' env') as [[out en] w].
    exact IH.
  - apply IH. exact Hpull.
Qed.

(** A pull of a decoded stream of the socket [ref] changes that socket
    only. *)
Lemma decoded_pull_onlyChanged {A B} (ref : nat)
  (s : Stream.t FramedSocket.t A)
  (decodeAll : A -> list B * option Throwable) (env0 : Env.t) :
  forall fuel st env,
    Wire.onlyChanged ref env0 env ->
    Wire.onlyChanged ref env0
      (snd (Stream.pull (Stream.through_decode (Env.streamOf ref s) decodeAll)
              fuel st env)).
Proof.
  intros fuel [st [pending err]] env Hi.
  cbn [Stream.pull Stream.through_decode Env.streamOf snd fst].
  destruct pending as [|b pending]; [|exact Hi].
  destruct err as [e|]; [exact Hi|].
  destruct (nth_error (Env.sockets env) ref) as [fs|]; [|exact Hi].
  destruct (Stream.pull s fuel st fs) as [[a st'|st'| |e|] fs'];
    cbn [snd]; apply onlyChanged_update; exact Hi.
Qed.

(** X22.  The two streams of the client read their own channel only: a
    run of the request stream, however long and however it ends, changes
    nothing but the socket of the main channel, and a run of the update
    stream nothing but the socket of the notebook updates.  Every other
    socket, the number of sockets, the promises, the process and the
    oracles of the network and of the scheduler are what they were. *)
Theorem client_streams_read_their_own_channel
  (client : SocketTransportClient) (steps fuel : nat) (env : Env.t) :
  Wire.onlyChanged (mainChannel (client_channels client)) env
    (snd (Stream.run (requestStream decodeRequests client) steps fuel env))
  /\ Wire.onlyChanged (notebookUpdatesChannel (client_channels client)) env
       (snd (Stream.run (updateStream decodeUpdates client) steps fuel env)).
Proof.
  split; unfold Stream.run.
  - apply (runFrom_invariant (requestStream decodeRequests client)
             (Wire.onlyChanged (mainChannel (client_channels client)) env)).
    + apply decoded_pull_onlyChanged.
    + apply onlyChanged_refl.
  - apply (runFrom_invariant (updateStream decodeUpdates client)
             (Wire.onlyChanged
                (notebookUpdatesChannel (client_channels client)) env)).
    + apply decoded_pull_onlyChanged.
    + apply onlyChanged_refl.
Qed.

End ClientStreams.

Lemma client_streams_read_their_own_channel_witness :
  let env := Examples.connected (Wire.frame [x41]) (Wire.frame [x42]) in
  Wire.onlyChanged 0 env
    (snd (Stream.run
            (SocketTransport.requestStream Examples.decodeBytes
               Examples.theClient) 3 10 env))
  /\ Wire.onlyChanged 1 env
       (snd (Stream.run
               (SocketTransport.updateStream Examples.decodeBytes
                  Examples.theClient) 3 10 env)).
Proof.
  apply (client_streams_read_their_own_channel byte byte
           Examples.decodeBytes Examples.decodeBytes Examples.theClient 3 10
           (Examples.connected (Wire.frame [x41]) (Wire.frame [x42]))).
Defined.

Section HalfConnected.

Import SocketTransport.

Variable encode : IdentifyChannel -> Throwable + list byte.

Lemma running_stable : Wire.stable Endpoint.running.
Proof.
  intros fs (Hw & Ha & Hk & Hc).
  destruct (writable_parts fs Hw) as (Ho & Hf & permits & Hp).
  destruct (sendKeepalive_cases fs) as [[Z _]|(permits' & Hp' & E)];
    [congruence|].
  assert (permits' = permits) by congruence. subst permits'.
  destruct (writeSize_ok 0 (FramedSocket.set_writeLock permits fs) Ho Hf Ha)
    as (s1 & W & _ & Ho1 & Hf1 & Ha1 & Hl1 & Hk1 & Hc1).
  rewrite W in E. cbv beta iota in E.
  unfold FramedSocket.keepaliveRound, ZIO.flatMap, ZIO.get. rewrite Hk.
  unfold ZIO.tapError. rewrite E. cbn [snd].
  unfold Endpoint.running, Wire.writable, Wire.allocated in *.
  cbn [FramedSocket.writeLock_release FramedSocket.socketChannel
       FramedSocket.writeLock FramedSocket.keepaliveFiber FramedSocket.closed
       FramedSocket.incomingLengthBuffer FramedSocket.outgoingLengthBuffer
       FramedSocket.set_writeLock] in *.
  unfold FramedSocket.writeLock_release, Semaphore.release.
  cbn [FramedSocket.socketChannel
       FramedSocket.writeLock FramedSocket.keepaliveFiber FramedSocket.closed
       FramedSocket.incomingLengthBuffer FramedSocket.outgoingLengthBuffer
       FramedSocket.set_writeLock] in *.
  rewrite Ho1, Hf1. cbn [andb].
  split; [reflexivity|]. split; [exact Ha1|]. split; congruence.
Qed.

Lemma fresh_running (channel : SocketChannel.t) :
  Wire.fresh channel -> Endpoint.running (FramedSocket.apply channel true).
Proof.
  intros (Ho & _ & Hf). unfold Endpoint.running, Wire.writable.
  cbn. rewrite Ho, Hf. repeat split; reflexivity.
Qed.

(** X23.  [connectClient] does not take back the first connection when
    the second cannot be opened: it fails with the exception of the second
    [open], and the socket of the first connection stays in the heap, open,
    with its latch pending and its keepalive fiber running. *)
Theorem connectClient_leaves_first_connection_open (fuel : nat)
  (serverAddress : InetSocketAddress) (env : Env.t)
  (channelA : SocketChannel.t) (e : Throwable)
  (later : list (Throwable + SocketChannel.t)) :
  Env.network env = inr channelA :: inl e :: later ->
  Wire.fresh channelA ->
  fst (connectClient encode fuel serverAddress env) = Failure e
  /\ Wire.holds (length (Env.sockets env)) Endpoint.running
       (snd (connectClient encode fuel serverAddress env))
  /\ length (Env.sockets (snd (connectClient encode fuel serverAddress env)))
     = S (length (Env.sockets env)).
Proof.
  intros Hnet FA.
  cut (exists env',
         connectClient encode fuel serverAddress env = (Failure e, env')
         /\ Wire.holds (length (Env.sockets env)) Endpoint.running env'
         /\ length (Env.sockets env') = S (length (Env.sockets env))).
  { intros (env' & R & H & L). rewrite R. cbn [fst snd]. auto. }
  unfold connectClient.
  unfold ZIO.flatMap at 1.
  rewrite (open_framed env channelA (inl e :: later) Hnet).
  set (env1 := Env.set_sockets _ _).
  assert (H1 : Wire.holds (length (Env.sockets env)) Endpoint.running env1).
  { apply holds_newSocket_new. apply fresh_running. exact FA. }
  assert (N1 : Env.network env1 = inl e :: later) by reflexivity.
  assert (L1 : length (Env.sockets env1) = S (length (Env.sockets env))).
  { subst env1. cbn [Env.sockets Env.set_sockets].
    rewrite length_app. simpl. lia. }
  unfold ZIO.flatMap at 1.
  destruct (yield_frame env1) as (Y & YL & YN & _). rewrite Y. clear Y.
  apply (yield_holds _ _ env1 running_stable) in H1.
  set (env2 := snd (Env.yield env1)) in *.
  rewrite N1 in YN. rewrite L1 in YL.
  unfold ZIO.flatMap at 1. unfold ZIO.flatMap at 1.
  unfold SocketChannel_open. rewrite YN.
  eexists. split; [reflexivity|]. split; [exact H1|exact YL].
Qed.

End HalfConnected.

Lemma connectClient_leaves_first_connection_open_witness :
  let run :=
    SocketTransport.connectClient Examples.encodeRole 2 Examples.localhost
      (MoreExamples.halfConnecting [[0]]) in
  fst run = Failure IOException
  /\ Wire.holds 0 Endpoint.running (snd run)
  /\ length (Env.sockets (snd run)) = 1.
Proof.
  apply (connectClient_leaves_first_connection_open Examples.encodeRole 2
           Examples.localhost (MoreExamples.halfConnecting [[0]])
           _ IOException [] eq_refl fresh_silent).
Defined.

Section ClientStreamEndings.

Import SocketTransport.

Variables RemoteRequest NotebookUpdate : Type.
Variable decodeRequests : list byte -> list RemoteRequest * option Throwable.
Variable decodeUpdates : list byte -> list NotebookUpdate * option Throwable.
Variable isShutdownRequest : RemoteRequest -> bool.
Variable client : SocketTransportClient.

Local Abbreviation main := (mainChannel (client_channels client)).
Local Abbreviation upd := (notebookUpdatesChannel (client_channels client)).
Local Abbreviation reqs := (requests decodeRequests isShutdownRequest client).
Local Abbreviation upds := (updates decodeUpdates client).
Local Abbreviation latch := (Env.promise (client_closed client)).

(** With the latch pending, the values decoded and not delivered yet come
    first. *)
Lemma updates_pull_pending (fuel : nat) (u : NotebookUpdate)
  (pending : list NotebookUpdate) (err : option Throwable) (env : Env.t) :
  latch env = Promise.Pending ->
  Stream.pull upds fuel (tt, (u :: pending, err)) env
  = (Stream.Emit u (tt, (pending, err)), env).
Proof.
  intros Hp. unfold updates, updateStream.
  cbn [Stream.pull Stream.interruptAndIgnoreWhen Stream.through_decode
       Env.streamOf Stream.init fst snd].
  rewrite Hp. reflexivity.
Qed.

(** With the latch pending and nothing to deliver, a pull of [updates] is
    a [read()] on the channel of the updates. *)
Lemma updates_pull_read (fuel : nat) (env : Env.t) (fs : FramedSocket.t) :
  latch env = Promise.Pending ->
  nth_error (Env.sockets env) upd = Some fs ->
  Stream.pull upds fuel (tt, ([], None)) env
  = match FramedSocket.read fuel fs with
    | (Success (Some (Some buf)), fs') =>
        (Stream.Skip (tt, decodeUpdates (FramedSocket.BitVector_view buf)),
         Env.set_sockets (Env.update upd fs' (Env.sockets env)) env)
    | (Success (Some None), fs') =>
        (Stream.Skip (tt, ([], None)),
         Env.set_sockets (Env.update upd fs' (Env.sockets env)) env)
    | (Success None, fs') =>
        (Stream.Done,
         Env.set_sockets (Env.update upd fs' (Env.sockets env)) env)
    | (Failure e, fs') =>
        (Stream.Done,
         Env.set_sockets
           (Env.update upd
              (FramedSocket.set_closed
                 (Promise.fail e (FramedSocket.closed fs')) fs')
              (Env.sockets env)) env)
    | (NoReturn, fs') =>
        (Stream.Stall,
         Env.set_sockets (Env.update upd fs' (Env.sockets env)) env)
    end.
Proof.
  intros Hp Hn. unfold updates, updateStream.
  cbn [Stream.pull Stream.interruptAndIgnoreWhen Stream.through_decode
       Env.streamOf Stream.init fst snd].
  rewrite Hp. cbn [Promise.isDone]. rewrite Hn. rewrite bitVectors_pull.
  destruct (FramedSocket.read fuel fs) as [[[[buf|]|]|e|] fs']; reflexivity.
Qed.

Lemma updates_deliver_pending (fuel : nat) (pending : list NotebookUpdate) :
  forall (steps : nat) (err : option Throwable) (env : Env.t),
    latch env = Promise.Pending ->
    Stream.runFrom upds (length pending + steps) fuel (tt, (pending, err)) env
    = (pending
         ++ fst (fst (Stream.runFrom upds steps fuel (tt, ([], err)) env)),
       snd (fst (Stream.runFrom upds steps fuel (tt, ([], err)) env)),
       snd (Stream.runFrom upds steps fuel (tt, ([], err)) env)).
Proof.
  induction pending as [|u pending IH]; intros steps err env Hp.
  - cbn [length Nat.add app].
    destruct (Stream.runFrom upds steps fuel _ env) as [[out e] env'].
    reflexivity.
  - cbn [length Nat.add app Stream.runFrom].
    rewrite (updates_pull_pending fuel u pending err env Hp).
    rewrite (IH steps err env Hp). reflexivity.
Qed.

(** The run of [updates] over the frames of its channel: with the latch
    pending all along, the updates decoded from the frames are delivered
    in order, and the stream ends where the frame stream ends. *)
Lemma updates_run_to_end (fuel : nat) (tail : list byte) :
  forall (frames : list (list byte)) (env : Env.t) (fs : FramedSocket.t)
         (pending : list NotebookUpdate),
    latch env = Promise.Pending ->
    nth_error (Env.sockets env) upd = Some fs ->
    FramedSocket.isConnected fs = true ->
    Wire.allocated fs = true ->
    Forall (fun p => (Z.of_nat (length p) <= 2 ^ 31 - 1)%Z) frames ->
    Forall (fun p => snd (decodeUpdates p) = None) (Wire.payloads frames) ->
    Wire.inbound fs = flat_map Wire.frame frames ++ tail ->
    Wire.endsStream fs tail ->
    length (Wire.chunks fs) + length (Wire.inbound fs) + 4 < fuel ->
    exists steps env',
      Stream.runFrom upds steps fuel (tt, (pending, None)) env
      = (pending
           ++ flat_map (fun p => fst (decodeUpdates p)) (Wire.payloads frames),
         Stream.Completed, env')
      /\ latch env' = Promise.Pending.
Proof.
  induction frames as [|p frames IH];
    intros env fs pending Hp Hn Ho Ha Hsz Hdec Hi Hend Hfuel.
  - (* the frame stream ends here *)
    cbn [flat_map app] in Hi.
    assert (End : exists env',
               Stream.pull upds fuel (tt, ([], None)) env
               = (Stream.Done, env')
               /\ latch env' = Promise.Pending).
    { rewrite (updates_pull_read fuel env fs Hp Hn).
      destruct Hend as [[[He Hlen]|(b0 & b1 & b2 & b3 & junk & Ht & Hneg)]
                       |(Ht & e & He & Hasync)].
      - destruct (read_truncated_length fuel fs Ho Ha He) as (buf & cuts & E).
        + rewrite Hi. exact Hlen.
        + lia.
        + rewrite E. eexists. split; [reflexivity|exact Hp].
      - rewrite Ht in Hi.
        destruct (readBuffer_frame fuel fs b0 b1 b2 b3 junk Ho Ha Hi)
          as (cuts & _ & E).
        + lia.
        + replace (Z.to_nat (bytesInt b0 b1 b2 b3)) with 0 by lia. lia.
        + apply read_of_readBuffer in E. rewrite E.
          unfold Wire.frameResult.
          replace (bytesInt b0 b1 b2 b3 <? 0)%Z with true
            by (symmetry; apply Z.ltb_lt; lia).
          eexists. split; [reflexivity|exact Hp].
      - destruct fuel as [|fuel']; [lia|].
        rewrite read_unfold.
        rewrite (readBuffer_throws fuel' e fs Ho Ha);
          [|rewrite Hi; exact Ht|exact He].
        rewrite Hasync. eexists. split; [reflexivity|exact Hp]. }
    destruct End as (env' & Pull & Hp').
    exists (length pending + 1), env'.
    rewrite (updates_deliver_pending fuel pending 1 None env Hp).
    cbn [Stream.runFrom]. rewrite Pull. cbn [fst snd].
    cbn [Wire.payloads filter flat_map]. split; [reflexivity|exact Hp'].
  - (* a frame in front *)
    inversion Hsz as [|? ? Hmax Hsz']; subst.
    assert (Hs : toInt (Z.of_nat (length p)) = Z.of_nat (length p))
      by (apply toInt_id; lia).
    assert (Hi' : Wire.inbound fs
                  = (intBytes (toInt (Z.of_nat (length p))) ++ p)
                      ++ (flat_map Wire.frame frames ++ tail)).
    { rewrite Hi. cbn [flat_map]. unfold Wire.frame at 1.
      rewrite Hs, <- !app_assoc. reflexivity. }
    assert (Hl : length (Wire.inbound fs)
                 = 4 + length p
                   + length (flat_map Wire.frame frames ++ tail)).
    { rewrite Hi', !length_app. simpl. lia. }
    destruct (frame_read_back fuel p _ fs Hmax Ho Ha Hi')
      as (fs1 & R & I1 & Ho1 & Ha1 & Hc1 & He1 & _); [lia|].
    set (env1 := Env.set_sockets (Env.update upd fs1 (Env.sockets env)) env).
    assert (Hn1 : nth_error (Env.sockets env1) upd = Some fs1).
    { apply nth_error_update_same. apply nth_error_Some. congruence. }
    assert (Hp1 : latch env1 = Promise.Pending) by exact Hp.
    assert (Hf1 : length (Wire.chunks fs1) + length (Wire.inbound fs1) + 4
                  < fuel) by (rewrite I1; lia).
    assert (Hend1 : Wire.endsStream fs1 tail).
    { destruct Hend as [[[He Hlen]|Hm]|(Ht & e & He & Hasync)].
      - left. left. split; [rewrite He1; exact He|exact Hlen].
      - left. right. exact Hm.
      - right. split; [exact Ht|]. exists e. split; [|exact Hasync].
        rewrite He1. exact He. }
    unfold Wire.payloads in Hdec |- *. cbn [filter] in Hdec |- *.
    destruct (length p =? 0) eqn:Ez; cbn [negb] in Hdec |- *.
    + (* a keepalive *)
      destruct (IH env1 fs1 [] Hp1 Hn1 Ho1 Ha1 Hsz' Hdec I1 Hend1 Hf1)
        as (steps & env' & Run & Hp').
      exists (length pending + S steps), env'.
      rewrite (updates_deliver_pending fuel pending (S steps) None env Hp).
      cbn [Stream.runFrom].
      rewrite (updates_pull_read fuel env fs Hp Hn), R. fold env1.
      rewrite Run. cbn [fst snd app].
      split; [reflexivity|exact Hp'].
    + (* a frame of updates *)
      inversion Hdec as [|? ? Pe Hdec']; subst.
      destruct (IH env1 fs1 (fst (decodeUpdates p)) Hp1 Hn1 Ho1 Ha1 Hsz'
                  Hdec' I1 Hend1 Hf1)
        as (steps & env' & Run & Hp').
      exists (length pending + S steps), env'.
      rewrite (updates_deliver_pending fuel pending (S steps) None env Hp).
      cbn [Stream.runFrom].
      rewrite (updates_pull_read fuel env fs Hp Hn), R. fold env1.
      change (FramedSocket.BitVector_view (ByteBuffer.wrap p)) with p.
      cbn [flat_map].
      destruct (decodeUpdates p) as [ds de] eqn:Ed.
      cbn [fst snd] in *. subst de.
      rewrite Run. cbn [fst snd].
      split; [reflexivity|exact Hp'].
Qed.

(** Closing the channels changes no promise. *)
Lemma channels_close_promises (channels : Channels) (env : Env.t) :
  Env.promises (snd (close channels env)) = Env.promises env.
Proof.
  unfold close, ZIO.map, ZIO.zipPar, ZIO.flatMap, Env.onSocket.
  destruct (nth_error (Env.sockets env) (mainChannel channels)) as [fs|].
  - destruct (FramedSocket.close fs) as [r fs'].
    cbn [Env.sockets Env.set_sockets].
    destruct (nth_error _ (notebookUpdatesChannel channels)) as [fs2|].
    + destruct (FramedSocket.close fs2) as [r2 fs2']. destruct r, r2;
        reflexivity.
    + destruct r; reflexivity.
  - destruct (nth_error (Env.sockets env) (notebookUpdatesChannel channels))
      as [fs2|].
    + destruct (FramedSocket.close fs2) as [r2 fs2']. reflexivity.
    + reflexivity.
Qed.

(** After [close()] of the client its latch is completed, whatever became
    of the channels. *)
Lemma client_close_latch (env : Env.t) :
  client_closed client < length (Env.promises env) ->
  Promise.isDone (latch (snd (client_close client env))) = true.
Proof.
  intros Hc.
  pose proof (promise_completed (client_closed client) env Hc) as PC.
  unfold client_close, ZIO.flatMap.
  change (Env.completePromise (client_closed client) Promise.succeed env)
    with (Success tt,
          snd (Env.completePromise (client_closed client) Promise.succeed
                 env)).
  cbv beta iota.
  set (env1 := snd (Env.completePromise (client_closed client)
                      Promise.succeed env)) in *.
  pose proof (channels_close_promises (client_channels client) env1) as CP.
  destruct (close (client_channels client) env1) as [r env2].
  cbn [snd] in *. unfold Env.promise in *. rewrite CP, PC.
  destruct (nth (client_closed client) (Env.promises env) Promise.Pending);
    reflexivity.
Qed.


End ClientStreamEndings.


